(** * Shodan CLI: the [stream] and [scan submit] commands

    A shallow embedding of the two long-running commands of
    [shodan/__main__.py]: [stream] (lines 1145-1299) together with the
    helpers [timestr] and [open_streaming_file] (lines 73-77), and
    [scan_submit] (lines 771-967).

    The commands talk to the outside world: the push channel of the
    streaming API, the REST API, the clock, gzip files and the terminal.
    Each command is a function from a script of what the world answers (the
    events of the push channel with the clock reading taken while each one is
    handled) to the list of calls the command issues, in order, and how it
    ends.  A script is a finite prefix of an unbounded interaction: a command
    that has consumed its whole script without ending is still [Running].

    Exceptions come from the push channel, from the REST API and from the
    user ([KeyboardInterrupt]); calls on output files and on the terminal
    are taken to succeed.  The spinner thread of [scan_submit] appears only
    as its start and its stop, and the status lines printed with
    [click.echo] are left out.

    The development goes on with the parts of the file the commands share
    and with the other commands that save results: the helpers
    [escape_data], [get_banner_field] and [match_filters] (lines 67-119)
    and the rows they feed, [parse] (lines 608-665), [download] (lines
    398-456), [scan_internet] (lines 690-754), the padding and the saved
    file of [host] (lines 519-534 and 567-580), the CSV table of [stats]
    (lines 1098-1142) and the file name of [convert] (lines 137-140).
    Text is ASCII text, and the builtins [int], [float], [str] on floats
    and [click.style] are parameters. *)

From Stdlib Require Import ZArith QArith List Ascii String Bool Lia
  Permutation Sorted.
From stdpp Require Import gmap strings list fin_maps pretty.
Import ListNotations.

Local Open Scope string_scope.
Local Open Scope Z_scope.
Local Open Scope list_scope.

(** ** Python values, dictionaries and exceptions *)

Module Py.

(** The fields the two commands read from a banner ([ip], [ipv6], [port],
    [timestamp], ...) hold JSON scalars: null, an integer or a string. *)
Inductive value :=
| VNone
| VInt (n : Z)
| VStr (s : string).

#[global] Instance value_eq_dec : EqDecision value.
Proof. solve_decision. Defined.

Definition value_to_sum (v : value) : unit + (Z + string) :=
  match v with
  | VNone => inl tt
  | VInt n => inr (inl n)
  | VStr s => inr (inr s)
  end.

Definition value_of_sum (x : unit + (Z + string)) : value :=
  match x with
  | inl _ => VNone
  | inr (inl n) => VInt n
  | inr (inr s) => VStr s
  end.

#[global] Instance value_countable : Countable value.
Proof.
  apply (inj_countable' value_to_sum value_of_sum).
  intros []; reflexivity.
Defined.

(** Truth value of an object in a condition ([if not ip:]). *)
Definition truthy (v : value) : bool :=
  match v with
  | VNone => false
  | VInt n => negb (n =? 0)%Z
  | VStr s => negb (String.eqb s "")
  end.

(** [str(v)], what ['{}'.format(v)] prints. *)
Definition str (v : value) : string :=
  match v with
  | VNone => "None"
  | VInt n => pretty n
  | VStr s => s
  end.

(** A banner is a dictionary from field names to values. *)
Abbreviation banner := (gmap string value).

(** [d.get(key, default)] *)
Definition get (d : banner) (key : string) (dflt : value) : value :=
  match d !! key with
  | Some v => v
  | None => dflt
  end.

(** The exception classes the handlers of the two commands tell apart.
    They are pairwise unrelated by subclassing, except that all but
    [KeyboardInterrupt] derive from [Exception]. *)
Inductive exn :=
| APIError (value : string)          (* shodan.APIError *)
| RequestsTimeout                    (* requests.exceptions.Timeout *)
| SocketTimeout                      (* socket.timeout *)
| KeyboardInterrupt
| ClickException (message : string)  (* click.ClickException *)
| OtherException (repr : string).    (* any other subclass of Exception *)

#[global] Instance exn_eq_dec : EqDecision exn.
Proof. solve_decision. Defined.

(** [isinstance(e, Exception)] *)
Definition is_Exception (e : exn) : bool :=
  match e with
  | KeyboardInterrupt => false
  | _ => true
  end.

(** [repr(e)], as far as the commands need it. *)
Definition repr (e : exn) : string :=
  match e with
  | APIError v => "APIError('" +:+ v +:+ "')"
  | RequestsTimeout => "Timeout()"
  | SocketTimeout => "timeout()"
  | KeyboardInterrupt => "KeyboardInterrupt()"
  | ClickException m => "ClickException('" +:+ m +:+ "')"
  | OtherException r => r
  end.

(** How a command ends, or that it has not ended yet. *)
Inductive outcome :=
| Running                 (* blocked on the push channel *)
| Returned                (* the function returned *)
| Raised (e : exn).       (* the exception left the function *)

#[global] Instance outcome_eq_dec : EqDecision outcome.
Proof. solve_decision. Defined.

End Py.

Import Py.

(** ** The [stream] command *)

Module Stream.

(** The command line options the main loop depends on. *)
Record options := Options {
  limit : Z;                  (* --limit, default -1 *)
  datadir : option string;    (* --datadir, default None *)
  quiet : bool;               (* --quiet *)
  timeout : Z;                (* --timeout, default 0 *)
  compresslevel : Z           (* --compresslevel, default 9 *)
}.

(** [if datadir:] on an optional string. *)
Definition datadir_set (o : options) : option string :=
  match datadir o with
  | Some d => if String.eqb d "" then None else Some d
  | None => None
  end.

(** A file object returned by [gzip.open]; [fileno] tells the objects of
    successive calls apart. *)
Record gzfile := GzFile {
  fileno : nat;
  name : string;
  mode : string;
  level : Z
}.

#[global] Instance gzfile_eq_dec : EqDecision gzfile.
Proof. solve_decision. Defined.

(** [open_streaming_file(directory, timestr, compresslevel=9)]; the optional
    argument is [None] when the caller leaves it out. *)
Definition open_streaming_file (fd : nat) (directory timestr : string)
    (compresslevel : option Z) : gzfile :=
  GzFile fd (directory +:+ "/" +:+ timestr +:+ ".json.gz") "a"
         (match compresslevel with Some l => l | None => 9 end).

(** What the push channel, the clock and the user do next. *)
Inductive event :=
| Yield (b : banner) (timestr : string)
    (* the generator yields [b]; [timestr()], the UTC date of the clock as
       [%Y-%m-%d], returns [timestr] if it is called while [b] is handled *)
| Raise (e : exn)
    (* the generator raises [e], or the user interrupts *)
| Eof.
    (* the generator is exhausted *)

(** The calls the command issues. *)
Inductive action :=
| CreateStream (timeout : Z)        (* _create_stream(stream_type, stream_args, timeout) *)
| Next (b : banner)                 (* the generator hands [b] to the for loop *)
| GzipOpen (f : gzfile)             (* gzip.open(...) returning [f] *)
| Close (f : gzfile)                (* f.close() *)
| WriteBanner (f : gzfile) (b : banner)   (* helpers.write_banner(f, b) *)
| Echo (b : banner)                 (* click.echo(row) for the row built from [b] *)
| Sleep (seconds : Z).              (* time.sleep(seconds) *)

#[global] Instance action_eq_dec : EqDecision action.
Proof. solve_decision. Defined.

(** The local variables of [stream] that change in the loop. *)
Record state := State {
  counter : Z;
  last_time : string;
  fout : option gzfile;
  opened : nat;          (* number of gzip.open calls so far *)
  exhausted : bool       (* the generator bound to [stream] has ended *)
}.

#[global] Instance state_eq_dec : EqDecision state.
Proof. solve_decision. Defined.

(** How one pass through the body of the [for] loop ends. *)
Inductive signal :=
| Continue
| Break             (* quit = True; break *)
| Throw (e : exn).

(** Lines 1243-1249: count the banner against the limit. *)
Definition count_banner (o : options) (st : state) : state * bool :=
  if (0 <? limit o)%Z then
    let c := counter st + 1 in
    (State c (last_time st) (fout st) (opened st) (exhausted st), (limit o <? c)%Z)
  else (st, false).

(** Lines 1252-1258: rotate the output file if the day has changed, then
    write the banner.  A missing file object makes the attribute access
    fail. *)
Definition persist (o : options) (st : state) (b : banner) (timestr : string)
    : list action * state * signal :=
  match datadir_set o with
  | None => ([], st, Continue)
  | Some dir =>
    let cur_time := timestr in
    if negb (String.eqb cur_time (last_time st)) then
      match fout st with
      | None =>
        ([], State (counter st) cur_time None (opened st) (exhausted st),
         Throw (OtherException "AttributeError"))
      | Some old =>
        let f := open_streaming_file (opened st) dir cur_time None in
        ([Close old; GzipOpen f; WriteBanner f b],
         State (counter st) cur_time (Some f) (S (opened st)) (exhausted st),
         Continue)
      end
    else
      match fout st with
      | None => ([], st, Throw (OtherException "AttributeError"))
      | Some f => ([WriteBanner f b], st, Continue)
      end
  end.

(** Lines 1260-1287: print the row unless [--quiet]. *)
Definition print_banner (o : options) (b : banner) : list action :=
  if quiet o then [] else [Echo b].

(** Lines 1243-1287: the body of [for banner in stream]. *)
Definition body (o : options) (st : state) (b : banner) (timestr : string)
    : list action * state * signal :=
  let '(st1, over) := count_banner o st in
  if over then ([], st1, Break)
  else
    match persist o st1 b timestr with
    | (acts, st2, Continue) => (acts ++ print_banner o b, st2, Continue)
    | r => r
    end.

(** Lines 1288-1299: the handlers of the [try] around the [for] loop. *)
Definition on_exception (o : options) (st : state) (e : exn)
    : list action * state * outcome :=
  match e with
  | RequestsTimeout => ([], st, Raised (ClickException "Connection timed out"))
  | KeyboardInterrupt => ([], st, Returned)
  | APIError v => ([], st, Raised (ClickException v))
  | _ =>
    ([Sleep 1; CreateStream (timeout o)],
     State (counter st) (last_time st) (fout st) (opened st) false,
     Running)
  end.

(** One event of the channel.  An exhausted generator yields and raises
    nothing more: the [while] loop spins over it until the user interrupts. *)
Definition step (o : options) (st : state) (ev : event)
    : list action * state * outcome :=
  if exhausted st then
    match ev with
    | Raise KeyboardInterrupt => on_exception o st KeyboardInterrupt
    | _ => ([], st, Running)
    end
  else
    match ev with
    | Yield b timestr =>
      match body o st b timestr with
      | (acts, st', Continue) => (Next b :: acts, st', Running)
      | (acts, st', Break) => (Next b :: acts, st', Returned)
      | (acts, st', Throw e) =>
        let '(acts', st'', out) := on_exception o st' e in
        (Next b :: acts ++ acts', st'', out)
      end
    | Raise e => on_exception o st e
    | Eof =>
      ([], State (counter st) (last_time st) (fout st) (opened st) true, Running)
    end.

(** Lines 1240-1299: [while not quit]. *)
Fixpoint loop (o : options) (st : state) (evs : list event)
    : list action * state * outcome :=
  match evs with
  | [] => ([], st, Running)
  | ev :: evs' =>
    match step o st ev with
    | (acts, st', Running) =>
      let '(acts', st'', out) := loop o st' evs' in
      (acts ++ acts', st'', out)
    | r => r
    end
  end.

(** Lines 1230-1238: what happens before the loop.  [start_day] is what
    [timestr()] returns at line 1234. *)
Definition startup (o : options) (start_day : string) : list action * state :=
  match datadir_set o with
  | Some dir =>
    let f := open_streaming_file 0 dir start_day (Some (compresslevel o)) in
    ([CreateStream (timeout o); GzipOpen f], State 0 start_day (Some f) 1 false)
  | None =>
    ([CreateStream (timeout o)], State 0 start_day None 0 false)
  end.

(** The command from line 1230 on. *)
Definition stream (o : options) (start_day : string) (evs : list event)
    : list action * state * outcome :=
  let '(acts, st) := startup o start_day in
  let '(acts', st', out) := loop o st evs in
  (acts ++ acts', st', out).

(** *** Reading a trace *)

Definition opens (tr : list action) : list gzfile :=
  omap (fun a => match a with GzipOpen f => Some f | _ => None end) tr.

Definition writes (tr : list action) : list (gzfile * banner) :=
  omap (fun a => match a with WriteBanner f b => Some (f, b) | _ => None end) tr.

Definition closes (tr : list action) : list gzfile :=
  omap (fun a => match a with Close f => Some f | _ => None end) tr.

Definition received (tr : list action) : list banner :=
  omap (fun a => match a with Next b => Some b | _ => None end) tr.

Definition yields (evs : list event) : list (banner * string) :=
  omap (fun ev => match ev with Yield b d => Some (b, d) | _ => None end) evs.

Definition trace_of (r : list action * state * outcome) : list action := r.1.1.
Definition state_of (r : list action * state * outcome) : state := r.1.2.
Definition outcome_of (r : list action * state * outcome) : outcome := r.2.

End Stream.

(** ** The [scan submit] command *)

Module ScanSubmit.

(** The answer of [api.scan]: a dictionary with [id] and [credits_left]. *)
Record scan := Scan { scan_id : string; credits_left : Z }.

(** The answer of [api.create_alert]: a dictionary with [id], so a true
    value in [if alert:]. *)
Record alert := Alert { alert_id : string }.

(** [a < b] on clock readings. *)
Definition Qlt_bool (a b : Q) : bool := negb (Qle_bool b a).

(** What the world answers to the calls of one run. *)
Record world := World {
  api_scan : exn + scan;                  (* api.scan(netblocks, force=force) *)
  api_create_alert : exn + alert;         (* api.create_alert(name, netblocks) *)
  helpers_open_file : option exn;         (* helpers.open_file(filename, 'w') raising *)
  scan_start : Q;                         (* time.time() at line 820 *)
  api_scan_status : nat -> exn + string;  (* the k-th api.scan_status call: the
                                             exception it raises or the status *)
  report_raises : option exn              (* an exception while lines 880-961
                                             print and save the results *)
}.

(** What the push channel and the user do next; [now] is what [time.time()]
    returns while the event is handled. *)
Inductive event :=
| Yield (b : banner) (now : Q)
| Raise (e : exn) (now : Q)
| Eof.

Abbreviation table := (gmap value (gmap value banner)).

(** The calls the command issues ([click.echo] of status lines left out). *)
Inductive action :=
| ApiScan (netblocks : list string) (force : bool)
| CreateAlert (name : string) (netblocks : list string)
| OpenFile (filename : string)
| StartSpinner                            (* progress_bar_thread.start() *)
| StopSpinner                             (* finished_event.set(); progress_bar_thread.join() *)
| StreamAlert (aid : string) (timeout : Z)  (* api.stream.alert(aid=..., timeout=wait) *)
| Next (b : banner)                       (* the generator hands [b] to the for loop *)
| Sleep (seconds : Q)
| ScanStatus (id : string)                (* api.scan_status(scan['id']) *)
| Report (hosts : table)                  (* lines 880-961 *)
| DeleteAlert (aid : string).             (* api.delete_alert(alert['id']) *)

(** The local variables that change while results are awaited. *)
Record state := State {
  hosts : table;                (* collections.defaultdict(dict) *)
  cache : gmap string bool;
  polls : nat;                  (* number of api.scan_status calls so far *)
  done : bool
}.

Definition initial : state := State ∅ ∅ 0 false.

Inductive signal :=
| Continue
| Break
| Throw (e : exn).

(** How the [while] loop goes on after an event. *)
Inductive after :=
| Stay                 (* the for loop takes the next banner *)
| Again                (* back to [while not done] *)
| Leave                (* break out of the while loop *)
| Propagate (e : exn). (* the exception leaves the while loop *)

(** Line 825: [banner.get('ip', banner.get('ipv6', None))], and line 826. *)
Definition identify (b : banner) : option value :=
  let ip := get b "ip" (get b "ipv6" VNone) in
  if truthy ip then Some ip else None.

(** Line 830: ['{}:{}'.format(ip, banner['port'])] *)
Definition cache_key (ip port : value) : string :=
  str ip +:+ ":" +:+ str port.

(** [hosts[h][p] = b] on a [defaultdict(dict)] *)
Definition hosts_set (hs : table) (h p : value) (b : banner) : table :=
  <[h := <[p := b]> (default ∅ (hs !! h))]> hs.

(** [hosts[h][p]] read without creating the entry. *)
Definition hosts_get (hs : table) (h p : value) : option banner :=
  hs !! h ≫= (fun m => m !! p).

Section Command.

(** [shodan.helpers.get_ip] is imported from a module that is not among the
    sources at hand: the command is modelled for any such function, which
    returns the key of the host or raises. *)
Variable get_ip : banner -> exn + value.

Variable w : world.
Variable wait : Z.             (* --wait, default 20 *)
Variable sc : scan.            (* the submitted scan *)
Variable al : alert.           (* the alert created for it *)

(** Lines 829-833: store the banner unless its key is in the cache. *)
Definition dedup (st : state) (b : banner) (ip : value) : state * signal :=
  match b !! "port" with
  | None => (st, Throw (OtherException "KeyError('port')"))
  | Some port =>
    let key := cache_key ip port in
    match cache st !! key with
    | Some _ => (st, Continue)
    | None =>
      match get_ip b with
      | inl e => (st, Throw e)
      | inr h =>
        (State (hosts_set (hosts st) h port b) (<[key := true]> (cache st))
               (polls st) (done st),
         Continue)
      end
    end
  end.

(** Lines 835-844: after 60 seconds ask for the status of the scan. *)
Definition poll (st : state) (now : Q) : list action * state * signal :=
  if Qle_bool 60 (now - scan_start w) then
    match api_scan_status w (polls st) with
    | inl e =>
      ([ScanStatus (scan_id sc)],
       State (hosts st) (cache st) (S (polls st)) (done st), Throw e)
    | inr status =>
      if String.eqb status "DONE" then
        ([ScanStatus (scan_id sc)],
         State (hosts st) (cache st) (S (polls st)) true, Break)
      else
        ([ScanStatus (scan_id sc)],
         State (hosts st) (cache st) (S (polls st)) (done st), Continue)
    end
  else ([], st, Continue).

(** Lines 825-844: the body of [for banner in api.stream.alert(...)]. *)
Definition body (st : state) (b : banner) (now : Q)
    : list action * state * signal :=
  match identify b with
  | None => ([], st, Continue)
  | Some ip =>
    match dedup st b ip with
    | (st1, Continue) => poll st1 now
    | (st1, s) => ([], st1, s)
    end
  end.

(** Lines 846-875: the handlers of the [try] around the [for] loop. *)
Definition on_exception (st : state) (e : exn) (now : Q)
    : list action * state * after :=
  match e with
  | APIError _ =>
    if Qlt_bool (now - scan_start w) (inject_Z wait) then
      ([Sleep (1 # 2)], st, Again)
    else if done st then ([], st, Leave)
    else
      match api_scan_status w (polls st) with
      | inl e' =>
        ([ScanStatus (scan_id sc)],
         State (hosts st) (cache st) (S (polls st)) (done st), Propagate e')
      | inr status =>
        ([ScanStatus (scan_id sc)],
         State (hosts st) (cache st) (S (polls st))
               (if String.eqb status "DONE" then true else done st),
         Again)
      end
  | SocketTimeout =>
    if Qlt_bool (now - scan_start w) (inject_Z wait) then ([], st, Again)
    else ([], State (hosts st) (cache st) (polls st) true, Again)
  | KeyboardInterrupt => ([], st, Propagate KeyboardInterrupt)
  | _ => ([StopSpinner], st, Propagate (ClickException (repr e)))
  end.

(** One event of the channel inside the [try]. *)
Definition step (st : state) (ev : event) : list action * state * after :=
  match ev with
  | Yield b now =>
    match body st b now with
    | (acts, st', Continue) => (Next b :: acts, st', Stay)
    | (acts, st', Break) => (Next b :: acts, st', Again)
    | (acts, st', Throw e) =>
      let '(acts', st'', aft) := on_exception st' e now in
      (Next b :: acts ++ acts', st'', aft)
    end
  | Raise e now => on_exception st e now
  | Eof => ([], st, Again)
  end.

(** Lines 822-875: [while not done], entered with the channel open. *)
Fixpoint monitor (st : state) (evs : list event)
    : list action * state * outcome :=
  match evs with
  | [] => ([], st, Running)
  | ev :: evs' =>
    match step st ev with
    | (acts, st', Stay) =>
      let '(acts', st'', out) := monitor st' evs' in
      (acts ++ acts', st'', out)
    | (acts, st', Again) =>
      if done st' then (acts, st', Returned)
      else
        let '(acts', st'', out) := monitor st' evs' in
        (acts ++ StreamAlert (alert_id al) wait :: acts', st'', out)
    | (acts, st', Leave) => (acts, st', Returned)
    | (acts, st', Propagate e) => (acts, st', Raised e)
    end
  end.

(** Lines 803-961: from the output file to the report.  [filename] is the
    option after [strip()]; [output] is the name with the extension added. *)
Definition session (filename output : string) (evs : list event)
    : list action * outcome :=
  let after_open :=
    let '(acts, st, out) := monitor initial evs in
    match out with
    | Returned =>
      (StartSpinner :: StreamAlert (alert_id al) wait :: acts
         ++ [StopSpinner; Report (hosts st)],
       match report_raises w with Some e => Raised e | None => Returned end)
    | _ => (StartSpinner :: StreamAlert (alert_id al) wait :: acts, out)
    end in
  if String.eqb filename "" then after_open
  else
    match helpers_open_file w with
    | Some e => ([OpenFile output], Raised e)
    | None => (OpenFile output :: after_open.1, after_open.2)
    end.

End Command.

(** Lines 807-809: add the extension if it is not there. *)
Definition ends_with (suffix s : string) : bool :=
  let n := String.length s in
  let k := String.length suffix in
  (k <=? n)%nat && String.eqb (substring (n - k) k s) suffix.

Definition output_name (filename : string) : string :=
  if ends_with ".json.gz" filename then filename else filename +:+ ".json.gz".

(** Lines 777-967: the command.  [filename] is the option after [strip()]. *)
Definition scan_submit (get_ip : banner -> exn + value) (w : world)
    (wait : Z) (filename : string) (force : bool) (netblocks : list string)
    (evs : list event) : list action * outcome :=
  let '(acts, alert, out) :=
    match api_scan w with
    | inl e => ([ApiScan netblocks force], None, Raised e)
    | inr sc =>
      if wait <=? 0 then ([ApiScan netblocks force], None, Returned)
      else
        let name := "Scan: " +:+ String.concat ", " netblocks in
        match api_create_alert w with
        | inl e =>
          ([ApiScan netblocks force; CreateAlert name netblocks], None, Raised e)
        | inr al =>
          let '(acts, out) :=
            session get_ip w wait sc al filename (output_name filename) evs in
          (ApiScan netblocks force :: CreateAlert name netblocks :: acts,
           Some al, out)
        end
    end in
  match out with
  | Running => (acts, Running)
  | _ =>
    (* except shodan.APIError as e: raise click.ClickException(e.value) *)
    let out' :=
      match out with
      | Raised (APIError v) => Raised (ClickException v)
      | _ => out
      end in
    (* finally: if alert: api.delete_alert(alert['id']) *)
    (acts ++ match alert with
             | Some al => [DeleteAlert (alert_id al)]
             | None => []
             end,
     out')
  end.

(** *** Reading a trace *)

Definition deletes (tr : list action) : list string :=
  omap (fun a => match a with DeleteAlert aid => Some aid | _ => None end) tr.

Definition creates (tr : list action) : list string :=
  omap (fun a => match a with CreateAlert n _ => Some n | _ => None end) tr.

Definition polled (tr : list action) : list string :=
  omap (fun a => match a with ScanStatus id => Some id | _ => None end) tr.

Definition sleeps (tr : list action) : list Q :=
  omap (fun a => match a with Sleep s => Some s | _ => None end) tr.

Definition received (tr : list action) : list banner :=
  omap (fun a => match a with Next b => Some b | _ => None end) tr.

End ScanSubmit.

(** ** Scenarios and the sentences of the specification the code departs from *)

Module StreamSpec.
Import Stream.

(** The file of [open_streaming_file] for a day. *)
Definition day_file (dir day : string) : string :=
  dir +:+ "/" +:+ day +:+ ".json.gz".

(** A script of banners only, each with the day it is handled on. *)
Definition yield_all (recs : list (banner * string)) : list event :=
  map (fun r => Yield r.1 r.2) recs.

(** The actions on output files, in order. *)
Definition file_actions (tr : list action) : list action :=
  List.filter (fun a => match a with
                        | GzipOpen _ | Close _ | WriteBanner _ _ => true
                        | _ => false
                        end) tr.

(** The open file is the one of the day of [last_time]. *)
Definition file_is_current (dir : string) (st : state) : Prop :=
  exists f, fout st = Some f /\ name f = day_file dir (last_time st).

(** The calendar day of a banner's own [timestamp] field
    (["2020-01-01T23:59:58.123456"]).  The command never reads the field;
    the definition serves to state the sentence below. *)
Definition record_day (b : banner) : option string :=
  match b !! "timestamp" with
  | Some (VStr s) => Some (substring 0 10 s)
  | _ => None
  end.

(** "No record is ever dropped from persistence because of counting against
    the limit": every banner the loop takes from the channel is written. *)
Definition no_record_dropped_by_limit : Prop :=
  forall o start evs b,
    0 < limit o -> is_Some (datadir_set o) ->
    In b (received (trace_of (stream o start evs))) ->
    In b (map snd (writes (trace_of (stream o start evs)))).

(** "Rotation is computed from each record's own timestamp": five banners
    whose timestamps lie on the days D1, D1, D2, D2, D3 open three files,
    whatever the clock says. *)
Definition rotation_by_record_timestamp : Prop :=
  forall o dir start recs d1 d2 d3,
    datadir_set o = Some dir -> limit o <= 0 ->
    d1 <> d2 -> d2 <> d3 -> d1 <> d3 ->
    map (fun r => record_day r.1) recs =
      [Some d1; Some d1; Some d2; Some d2; Some d3] ->
    length (opens (trace_of (stream o start (yield_all recs)))) = 3%nat.

(** "For every day on which zero records are processed, no output file is
    created for that day." *)
Definition no_file_for_day_without_record : Prop :=
  forall o dir start evs day f,
    datadir_set o = Some dir ->
    (forall b, ~ In (Yield b day) evs) ->
    In f (opens (trace_of (stream o start evs))) ->
    name f <> day_file dir day.

(** A transport-level timeout. *)
Definition transport_timeout (e : exn) : Prop :=
  e = RequestsTimeout \/ e = SocketTimeout.

(** "For every transport-level timeout the consumer waits, reopens the
    channel and continues without surfacing the error." *)
Definition timeouts_are_retried : Prop :=
  forall o st e evs,
    exhausted st = false -> transport_timeout e ->
    loop o st (Raise e :: evs) =
    ([Sleep 1; CreateStream (timeout o)] ++ trace_of (loop o st evs),
     state_of (loop o st evs), outcome_of (loop o st evs)).

(** Sample banners. *)
Definition rec1 : banner :=
  {[ "ip" := VStr "1.2.3.4"; "port" := VInt 80;
     "timestamp" := VStr "2020-01-01T10:00:00.000000" ]}.
Definition rec2 : banner :=
  {[ "ip" := VStr "1.2.3.4"; "port" := VInt 443;
     "timestamp" := VStr "2020-01-01T23:59:59.000000" ]}.
Definition rec3 : banner :=
  {[ "ip" := VStr "5.6.7.8"; "port" := VInt 22;
     "timestamp" := VStr "2020-01-02T00:00:01.000000" ]}.
Definition rec4 : banner :=
  {[ "ip" := VStr "5.6.7.8"; "port" := VInt 80;
     "timestamp" := VStr "2020-01-02T12:00:00.000000" ]}.
Definition rec5 : banner :=
  {[ "ip" := VStr "9.9.9.9"; "port" := VInt 53;
     "timestamp" := VStr "2020-01-03T08:00:00.000000" ]}.

(** [--limit 2 --datadir data --quiet] *)
Definition limit_two : options := Options 2 (Some "data") true 0 9.

(** [--datadir data --quiet --compresslevel 5] *)
Definition to_datadir : options := Options (-1) (Some "data") true 0 5.

End StreamSpec.

Module ScanSubmitSpec.
Import ScanSubmit.

Definition trace_of (r : list action * state * outcome) : list action := r.1.1.
Definition state_of (r : list action * state * outcome) : state := r.1.2.
Definition outcome_of (r : list action * state * outcome) : outcome := r.2.

(** The identity of a banner: its [ip] (or else [ipv6]) and its [port]. *)
Definition identity (b : banner) : option (value * value) :=
  match identify b, b !! "port" with
  | Some ip, Some port => Some (ip, port)
  | _, _ => None
  end.

(** The first banner of a list with a given identity. *)
Fixpoint first_seen (i : value * value) (bs : list banner) : option banner :=
  match bs with
  | [] => None
  | b :: bs' =>
    if decide (identity b = Some i) then Some b else first_seen i bs'
  end.

(** What lines 825-833 do to the table and the cache, whatever comes after
    them. *)
Definition remember (get_ip : banner -> exn + value)
    (tc : table * gmap string bool) (b : banner) : table * gmap string bool :=
  match identify b with
  | None => tc
  | Some ip =>
    match dedup get_ip (State tc.1 tc.2 0 false) b ip with
    | (st, _) => (hosts st, cache st)
    end
  end.

(** [v] is an integer. *)
Definition is_int (v : value) : bool :=
  match v with
  | VInt _ => true
  | _ => false
  end.

(** Two banners of one session agree on what a host is: their ports are
    integers, both have a host key, and they have the same address whenever
    their addresses print the same or their host keys are the same. *)
Definition consistent (get_ip : banner -> exn + value) (b1 b2 : banner) : bool :=
  match identity b1, identity b2 with
  | Some i1, Some i2 =>
    match get_ip b1, get_ip b2 with
    | inr h1, inr h2 =>
      is_int i1.2 && is_int i2.2
      && implb (bool_decide (str i1.1 = str i2.1)) (bool_decide (i1.1 = i2.1))
      && implb (bool_decide (h1 = h2)) (bool_decide (i1.1 = i2.1))
    | _, _ => false
    end
  | _, _ => true
  end.

(** A colon occurs in the string. *)
Fixpoint has_colon (s : string) : bool :=
  match s with
  | EmptyString => false
  | String c s' => if Ascii.eqb c ":"%char then true else has_colon s'
  end.

Definition well_formed (get_ip : banner -> exn + value) (bs : list banner) : bool :=
  forallb (fun b1 => forallb (consistent get_ip b1) bs) bs.

(** What the table and the cache hold after the banners [hist]. *)
Definition holds_first_seen (get_ip : banner -> exn + value)
    (tc : table * gmap string bool) (hist : list banner) : Prop :=
  (forall k, is_Some (tc.2 !! k) <->
     exists b i, In b hist /\ identity b = Some i /\ cache_key i.1 i.2 = k) /\
  (forall h p b, hosts_get tc.1 h p = Some b <->
     exists i, first_seen i hist = Some b /\ get_ip b = inr h /\
               b !! "port" = Some p).

(** The alert the command has created when it runs in world [w]. *)
Definition created_alert (w : world) (wait : Z) : option alert :=
  match api_scan w with
  | inl _ => None
  | inr _ =>
    if wait <=? 0 then None
    else match api_create_alert w with
         | inl _ => None
         | inr al => Some al
         end
  end.

(** The clock reading an event is handled at. *)
Definition event_time (ev : event) : option Q :=
  match ev with
  | Yield _ now => Some now
  | Raise _ now => Some now
  | Eof => None
  end.

(** "Every time elapsed session time crosses the 60-second check interval
    the scan status is polled, and if the poll reports DONE the session
    ends": whenever an event is handled a minute or more after the start,
    the status is asked for, and the session is over if the service says
    DONE. *)
Definition polled_once_a_minute_has_passed : Prop :=
  forall get_ip w wait sc al ev now,
    0 < wait ->
    event_time ev = Some now ->
    (60 <= now - scan_start w)%Q ->
    (forall k, api_scan_status w k = inr "DONE") ->
    In (ScanStatus (scan_id sc))
       (trace_of (monitor get_ip w wait sc al initial [ev])) /\
    outcome_of (monitor get_ip w wait sc al initial [ev]) <> Running.

(** Modelled from the spec: [shodan.helpers.get_ip] is not among the sources
    at hand.  The specification groups the results by host and takes
    [ip], or else [ipv6], as the host of a banner. *)
Definition host_key (b : banner) : exn + value :=
  match identify b with
  | Some ip => inr ip
  | None => inl (OtherException "KeyError('ip_str')")
  end.

(** A world in which every call succeeds and the scan is reported done. *)
Definition scan_done : world :=
  World (inr (Scan "S1" 99)) (inr (Alert "A1")) None 0
        (fun _ => inr "DONE") None.

(** A world in which the scan keeps running. *)
Definition scan_running : world :=
  World (inr (Scan "S1" 99)) (inr (Alert "A1")) None 0
        (fun _ => inr "PROCESSING") None.

Definition http_first : banner :=
  {[ "ip" := VStr "1.2.3.4"; "port" := VInt 80; "data" := VStr "first" ]}.
Definition http_again : banner :=
  {[ "ip" := VStr "1.2.3.4"; "port" := VInt 80; "data" := VStr "again" ]}.
Definition https_other : banner :=
  {[ "ip" := VStr "5.6.7.8"; "port" := VInt 443; "data" := VStr "tls" ]}.
Definition no_address : banner :=
  {[ "port" := VInt 80; "data" := VStr "?" ]}.

(** The ways out of the monitoring session, as the event that takes them
    when [k] status polls have been made: the interrupt of the user, an
    unexpected exception, the time-out of the channel once [wait] seconds
    have passed, and an error of the service once [wait] seconds have passed
    if the status poll that follows it raises (an error) or answers DONE
    (completion). *)
Definition exit_event (w : world) (wait : Z) (k : nat) (ev : event) : bool :=
  match ev with
  | Raise KeyboardInterrupt _ => true
  | Raise SocketTimeout now =>
    negb (Qlt_bool (now - scan_start w) (inject_Z wait))
  | Raise (APIError _) now =>
    negb (Qlt_bool (now - scan_start w) (inject_Z wait))
    && match api_scan_status w k with
       | inl _ => true
       | inr status => String.eqb status "DONE"
       end
  | Raise _ _ => true
  | Yield _ _ => false
  | Eof => false
  end.

End ScanSubmitSpec.

(** ** Strings *)

Module Text.

Definition LF : string := String "010" "".     (* '\n' *)
Definition CR : string := String "013" "".     (* '\r' *)
Definition TAB : string := String "009" "".    (* '\t' *)

(** [s.replace(old, new)] for a non-empty [old]: the occurrences of [old]
    are found from the left and do not overlap; [skip] characters of the
    occurrence just replaced are still to be passed over. *)
Fixpoint replace_from (old new : string) (skip : nat) (s : string) : string :=
  match s with
  | "" => ""
  | String c s' =>
    match skip with
    | S k => replace_from old new k s'
    | O =>
      if String.prefix old s
      then new +:+ replace_from old new (String.length old - 1) s'
      else String c (replace_from old new 0 s')
    end
  end.

(** [s.replace("", new)] puts [new] before every character and at the end. *)
Fixpoint interleave (new s : string) : string :=
  match s with
  | "" => new
  | String c s' => new +:+ String c (interleave new s')
  end.

(** [s.replace(old, new)] *)
Definition replace (old new s : string) : string :=
  match old with
  | "" => interleave new s
  | _ => replace_from old new 0 s
  end.

(** [s.split(sep)] for a separator of one character. *)
Fixpoint split (sep : ascii) (s : string) : list string :=
  match s with
  | "" => [""]
  | String c s' =>
    if Ascii.eqb c sep then "" :: split sep s'
    else
      match split sep s' with
      | piece :: pieces => String c piece :: pieces
      | [] => [String c ""]
      end
  end.

(** [s.split(sep, 1)] for a separator of one character: the text before the
    first separator and the text after it, or nothing if there is no
    separator (the list has one element then). *)
Fixpoint split_once (sep : ascii) (s : string) : option (string * string) :=
  match s with
  | "" => None
  | String c s' =>
    if Ascii.eqb c sep then Some ("", s')
    else
      match split_once sep s' with
      | Some (before, rest) => Some (String c before, rest)
      | None => None
      end
  end.

(** [c.isspace()] for a character of ASCII text. *)
Definition is_space (c : ascii) : bool :=
  let n := nat_of_ascii c in
  ((9 <=? n) && (n <=? 13) || (28 <=? n) && (n <=? 32))%nat.

(** [s.lstrip()], [s.rstrip()] and [s.strip()] on ASCII text. *)
Fixpoint lstrip (s : string) : string :=
  match s with
  | "" => ""
  | String c s' => if is_space c then lstrip s' else s
  end.

Fixpoint rstrip (s : string) : string :=
  match s with
  | "" => ""
  | String c s' =>
    match rstrip s' with
    | "" => if is_space c then "" else String c ""
    | r => String c r
    end
  end.

Definition strip (s : string) : string := rstrip (lstrip s).

(** [sub in s] on strings *)
Definition contains (sub s : string) : bool :=
  match String.index 0 sub s with
  | Some _ => true
  | None => false
  end.

(** The character occurs in the string. *)
Fixpoint has_char (c : ascii) (s : string) : bool :=
  match s with
  | "" => false
  | String a s' => if Ascii.eqb a c then true else has_char c s'
  end.

End Text.

(** ** Banners as JSON documents: fields, filters and rows *)

Module Fields.
Import Text.

#[local] Set Warnings "-register-all".

(** A decoded JSON value.  A float is the rational number it denotes. *)
Inductive json :=
| JNull
| JBool (b : bool)
| JInt (n : Z)
| JFloat (x : Q)
| JStr (s : string)
| JList (l : list json)
| JDict (d : gmap string json).

Abbreviation record := (gmap string json).

(** Truth value of an object in a condition. *)
Definition truthy (v : json) : bool :=
  match v with
  | JNull => false
  | JBool b => b
  | JInt n => negb (n =? 0)%Z
  | JFloat x => negb (Qeq_bool x 0)
  | JStr s => negb (String.eqb s "")
  | JList l => match l with [] => false | _ => true end
  | JDict d => negb (Nat.eqb (size d) 0)
  end.

(** Lines 67-71.  Anything but a string has no [encode] to call. *)
Definition escape_data (args : json) : exn + string :=
  match args with
  | JStr s => inr (replace TAB "\t" (replace CR "\r" (replace LF "\n" s)))
  | _ => inl (OtherException "AttributeError")
  end.

(** Lines 84-87: [current_obj = current_obj[field]] along the fields; only a
    dictionary can be indexed by a string, and only at a key it has.  [None]
    stands for the exception. *)
Fixpoint descend (current_obj : json) (fields : list string) : option json :=
  match fields with
  | [] => Some current_obj
  | field :: fields' =>
    match current_obj with
    | JDict d =>
      match d !! field with
      | Some v => descend v fields'
      | None => None
      end
    | _ => None
    end
  end.

(** Lines 79-91 *)
Definition get_banner_field (banner : record) (flat_field : string) : json :=
  let fields := split "." flat_field in
  match descend (JDict banner) fields with
  | Some current_obj => current_obj
  | None => JNull
  end.

(** The strings of a list, if all its elements are strings. *)
Fixpoint strings_of (l : list json) : option (list string) :=
  match l with
  | [] => Some []
  | JStr s :: l' =>
    match strings_of l' with
    | Some ss => Some (s :: ss)
    | None => None
    end
  | _ :: _ => None
  end.

(** [sep.join(l)] *)
Definition join (sep : string) (l : list json) : exn + string :=
  match strings_of l with
  | Some ss => inr (String.concat sep ss)
  | None => inl (OtherException "TypeError")
  end.

(** [check in l] for a string [check] and a list [l] *)
Definition in_list (check : string) (l : list json) : bool :=
  existsb (fun v => match v with JStr s => String.eqb check s | _ => false end) l.

Section Builtins.

(** The builtins [int] and [float] applied to a string ([None]: they raise
    [ValueError]), [str] applied to a float, and [click.style] with the
    colour that [COLORIZE_FIELDS] (not among the sources) gives a field. *)
Variable int_ : string -> option Z.
Variable float_ : string -> option Q.
Variable str_float : Q -> string.
Variable style : string -> string -> string.

(** Lines 95-117: one filter.  [inr true]: the loop goes on with the next
    filter; [inr false]: [return False]; [inl e]: [e] is raised. *)
Definition check_filter (banner : record) (args : string) : exn + bool :=
  match split_once ":" args with
  | None => inl (OtherException "ValueError")
  | Some (flat_field, check) =>
    let value := get_banner_field banner flat_field in
    if negb (truthy value) then inr false
    else
      match value with
      | JList l => inr (in_list check l)
      | JStr s => inr (contains check s)
      | JInt n =>
        match int_ check with
        | Some m => inr (m =? n)%Z
        | None => inl (OtherException "ValueError")
        end
      | JFloat x =>
        match float_ check with
        | Some y => inr (Qeq_bool y x)
        | None => inl (OtherException "ValueError")
        end
      | _ => inr true
      end
  end.

(** Lines 93-119 *)
Fixpoint match_filters (banner : record) (filters : list string) : exn + bool :=
  match filters with
  | [] => inr true
  | args :: filters' =>
    match check_filter banner args with
    | inr true => match_filters banner filters'
    | r => r
    end
  end.

(** Lines 644-660 (and 1266-1281, 1028-1042): the text of one field. *)
Definition cell (color : bool) (field : string) (value : json) : exn + string :=
  if truthy value then
    match
      match value with
      | JList l => join ";" l
      | JInt n => inr (pretty n)
      | JFloat x => inr (str_float x)
      | _ => escape_data value
      end
    with
    | inr tmp => inr (if color then style field tmp else tmp)
    | inl e => inl e
    end
  else inr "".

(** Lines 632, 643-663: the row of a banner; [value_of] reads a field. *)
Fixpoint row_from (value_of : string -> json) (color : bool)
    (separator : string) (row : string) (fields : list string) : exn + string :=
  match fields with
  | [] => inr row
  | field :: fields' =>
    match cell color field (value_of field) with
    | inr tmp => row_from value_of color separator (row +:+ tmp +:+ separator) fields'
    | inl e => inl e
    end
  end.

(** The row of [parse] (lines 632-663) and of [stream] (lines 1262-1285). *)
Definition parse_row (color : bool) (separator : string) (fields : list string)
    (banner : record) : exn + string :=
  row_from (get_banner_field banner) color separator "" fields.

(** The row of [search] (lines 1024-1046): [field in banner and
    banner[field]]. *)
Definition search_row (color : bool) (separator : string) (fields : list string)
    (banner : record) : exn + string :=
  row_from (fun field => match banner !! field with Some v => v | None => JNull end)
           color separator "" fields.

End Builtins.

End Fields.

(** ** The [parse] command *)

Module Parse.
Import Text Fields.

(** Lines 611-614 (and 1005-1008, 1169-1172): the fields to print. *)
Definition fields_of (fields : string) : exn + list string :=
  let fields := map strip (split "," fields) in
  if (length fields =? 0)%nat
  then inl (ClickException "Please define at least one property to show")
  else inr fields.

(** The calls the command issues. *)
Inductive action :=
| OpenFile (filename : string)       (* helpers.open_file(filename) *)
| WriteBanner (b : record)           (* helpers.write_banner(fout, banner) *)
| Echo (row : string).               (* click.echo(row) *)

Section Command.
Variable int_ : string -> option Z.
Variable float_ : string -> option Q.
Variable str_float : Q -> string.
Variable style : string -> string -> string.

Variable color : bool.
Variable fields : list string.
Variable filters : list string.
Variable separator : string.

(** Lines 631-665: the loop over the banners of the input files; [fout]
    tells whether an output file is open. *)
Fixpoint parse_banners (fout : bool) (banners : list record)
    : list action * outcome :=
  match banners with
  | [] => ([], Returned)
  | banner :: banners' =>
    let has_filters := (0 <? length filters)%nat in
    match (if has_filters then match_filters int_ float_ banner filters
           else inr true) with
    | inl e => ([], Raised e)
    | inr false => parse_banners fout banners'
    | inr true =>
      let written := if fout then [WriteBanner banner] else [] in
      match parse_row str_float style color separator fields banner with
      | inl e => (written, Raised e)
      | inr row =>
        let '(acts, out) := parse_banners fout banners' in
        (written ++ Echo row :: acts, out)
      end
    end
  end.

End Command.

(** Lines 608-665; [banners] is what [helpers.iterate_files(filenames)]
    yields. *)
Definition parse (int_ : string -> option Z) (float_ : string -> option Q)
    (str_float : Q -> string) (style : string -> string -> string)
    (color : bool) (fields : string) (filters : list string)
    (filename : option string) (separator : string) (banners : list record)
    : list action * outcome :=
  match fields_of fields with
  | inl e => ([], Raised e)
  | inr fields =>
    let has_filters := (0 <? length filters)%nat in
    let listing fout :=
      parse_banners int_ float_ str_float style color fields filters separator
                    fout banners in
    match filename with
    | Some name =>
      if String.eqb name "" then listing false
      else if negb has_filters then
        ([], Raised (ClickException
           "Output file specified without any filters. Need to use filters with this option."))
      else
        let '(acts, out) := listing true in
        (OpenFile (ScanSubmit.output_name name) :: acts, out)
    | None => listing false
    end
  end.

Definition written (tr : list action) : list record :=
  omap (fun a => match a with WriteBanner b => Some b | _ => None end) tr.

Definition echoed (tr : list action) : list string :=
  omap (fun a => match a with Echo row => Some row | _ => None end) tr.

(** [match_filters] returns [True]. *)
Definition accepts (int_ : string -> option Z) (float_ : string -> option Q)
    (filters : list string) (banner : record) : bool :=
  match match_filters int_ float_ banner filters with
  | inr true => true
  | _ => false
  end.

End Parse.

(** ** The [download] command *)

Module Download.
Import Text.

(** What the search cursor does next. *)
Inductive event :=
| Yield (b : banner)
| Raise (e : exn)
| Eof.

(** What the API answers. *)
Record world := World {
  api_count : exn + Z;          (* api.count(query)['total'] *)
  api_info : option exn         (* api.info() raising *)
}.

(** The calls the command issues (the summary lines left out). *)
Inductive action :=
| ApiCount (query : string)
| ApiInfo
| OpenFile (filename : string)          (* helpers.open_file(filename, 'w') *)
| SearchCursor (query : string)         (* api.search_cursor(query, minify=False) *)
| Next (b : banner)                     (* the cursor hands [b] to the for loop *)
| WriteBanner (b : banner)              (* helpers.write_banner(fout, banner) *)
| EchoNotice                            (* 'Notice: fewer results were saved than requested' *)
| EchoSaved (count : Z) (filename : string)
| CloseFile.                            (* leaving the [with] block *)

(** Lines 432-437 *)
Definition effective_limit (limit total : Z) : Z :=
  let limit := if total <? limit then total else limit in
  if limit <=? 0 then total else limit.

(** How the for loop of lines 444-449 stands. *)
Inductive progress :=
| Listening                 (* waiting for the cursor *)
| Finished.                 (* the loop and its [try] are left *)

(** Lines 441-451: the loop over the cursor; every exception ends it
    silently. *)
Fixpoint save (limit count : Z) (evs : list event)
    : list action * Z * progress :=
  match evs with
  | [] => ([], count, Listening)
  | Yield b :: evs' =>
    let count := count + 1 in
    if limit <=? count then ([Next b; WriteBanner b], count, Finished)
    else
      let '(acts, count', p) := save limit count evs' in
      (Next b :: WriteBanner b :: acts, count', p)
  | Raise e :: _ => ([], count, Finished)
  | Eof :: _ => ([], count, Finished)
  end.

(** Lines 398-456; [filename] is the argument as given. *)
Definition download (w : world) (limit : Z) (filename : string)
    (query : list string) (evs : list event) : list action * outcome :=
  let query := strip (String.concat " " query) in
  if String.eqb query "" then ([], Raised (ClickException "Empty search query"))
  else
    let filename := strip filename in
    if String.eqb filename "" then ([], Raised (ClickException "Empty filename"))
    else
      let filename := ScanSubmit.output_name filename in
      let unresponsive :=
        Raised (ClickException
          "The Shodan API is unresponsive at the moment, please try again later.") in
      match api_count w with
      | inl _ => ([ApiCount query], unresponsive)
      | inr total =>
        match api_info w with
        | Some _ => ([ApiCount query; ApiInfo], unresponsive)
        | None =>
          let limit := effective_limit limit total in
          let '(acts, count, p) := save limit 0 evs in
          let start :=
            [ApiCount query; ApiInfo; OpenFile filename; SearchCursor query] in
          match p with
          | Listening => (start ++ acts, Running)
          | Finished =>
            (start ++ acts
               ++ (if count <? limit then [EchoNotice] else [])
               ++ [EchoSaved count filename; CloseFile],
             Returned)
          end
        end
      end.

Definition written (tr : list action) : list banner :=
  omap (fun a => match a with WriteBanner b => Some b | _ => None end) tr.

Definition yielded (evs : list event) : list banner :=
  omap (fun ev => match ev with Yield b => Some b | _ => None end) evs.

End Download.

(** ** The [scan internet] command *)

Module ScanInternet.

(** What the push channel and the user do next. *)
Inductive event :=
| Yield (b : banner)
| Raise (e : exn)
| Eof.

(** What the API answers. *)
Record world := World {
  api_scan_internet : exn + ScanSubmit.scan;   (* api.scan_internet(port, protocol) *)
  api_ports : exn + list Z;                    (* api.ports() *)
  api_scan_status : nat -> exn + ScanSubmit.scan * string
    (* the k-th api.scan_status call: the answer and its ['status'] *)
}.

(** The calls the command issues (the status lines left out). *)
Inductive action :=
| ApiScanInternet (port : Z) (protocol : string)
| ApiPorts
| OpenFile (filename : string)             (* helpers.open_file(filename, 'w') *)
| StreamPorts (ports : list Z) (timeout : Z) (* api.stream.ports([port], timeout=90) *)
| Next (b : banner)                        (* the generator hands [b] to the for loop *)
| WriteBanner (b : banner)                 (* helpers.write_banner(fout, banner) *)
| Echo (b : banner)                        (* the line of lines 726-731 *)
| ScanStatus (id : string)                 (* api.scan_status(scan['id']) *)
| CloseFile                                (* leaving the [with] block *)
| EchoFinished (counter : Z).              (* 'Scan finished: {0} devices found' *)

(** The local variables that change while the command listens. *)
Record state := State {
  counter : Z;
  scan : ScanSubmit.scan;     (* the answer bound to [scan] *)
  polls : nat;                (* number of api.scan_status calls so far *)
  done : bool
}.

Section Command.

(** Building the line of lines 726-731 calls [helpers.get_ip] and reads
    [COLORIZE_FIELDS], which are not among the sources: [show] tells which
    exception, if any, the line of a banner raises. *)
Variable show : banner -> option exn.

Variable w : world.
Variable quiet : bool.
Variable port : Z.

(** How the [while] loop goes on after an exception. *)
Inductive after :=
| Again                 (* back to [while not done] *)
| Leave                 (* break *)
| Propagate (e : exn).

(** Lines 732-751: the handlers of the [try] around the for loop. *)
Definition on_exception (st : state) (e : exn) : list action * state * after :=
  match e with
  | APIError _ | SocketTimeout =>
    if done st then ([], st, Leave)
    else
      match api_scan_status w (polls st) with
      | inl e' =>
        ([ScanStatus (ScanSubmit.scan_id (scan st))],
         State (counter st) (scan st) (S (polls st)) (done st), Propagate e')
      | inr (answer, status) =>
        ([ScanStatus (ScanSubmit.scan_id (scan st))],
         State (counter st) answer (S (polls st))
               (if String.eqb status "DONE" then true else done st),
         Again)
      end
  | KeyboardInterrupt => ([], st, Propagate KeyboardInterrupt)
  | _ => ([], st, Propagate (ClickException (repr e)))
  end.

(** Lines 719-751: [while not done], entered with the channel open. *)
Fixpoint listen (st : state) (evs : list event) : list action * state * outcome :=
  let handle acts st e evs' :=
    let '(acts', st', aft) := on_exception st e in
    match aft with
    | Again =>
      if done st' then (acts ++ acts', st', Returned)
      else
        let '(more, st'', out) := listen st' evs' in
        (acts ++ acts' ++ StreamPorts [port] 90 :: more, st'', out)
    | Leave => (acts ++ acts', st', Returned)
    | Propagate e' => (acts ++ acts', st', Raised e')
    end in
  match evs with
  | [] => ([], st, Running)
  | Yield b :: evs' =>
    let st1 := State (counter st + 1) (scan st) (polls st) (done st) in
    if quiet then
      let '(more, st', out) := listen st1 evs' in
      (Next b :: WriteBanner b :: more, st', out)
    else
      match show b with
      | None =>
        let '(more, st', out) := listen st1 evs' in
        (Next b :: WriteBanner b :: Echo b :: more, st', out)
      | Some e => handle [Next b; WriteBanner b] st1 e evs'
      end
  | Raise e :: evs' => handle [] st e evs'
  | Eof :: evs' =>
    let '(more, st', out) := listen st evs' in
    (StreamPorts [port] 90 :: more, st', out)
  end.

End Command.

(** Lines 690-754 *)
Definition scan_internet (show : banner -> option exn) (w : world)
    (quiet : bool) (port : Z) (protocol : string) (evs : list event)
    : list action * outcome :=
  (* except shodan.APIError as e: raise click.ClickException(e.value) *)
  let outer e :=
    match e with
    | APIError v => Raised (ClickException v)
    | _ => Raised e
    end in
  match api_scan_internet w with
  | inl e => ([ApiScanInternet port protocol], outer e)
  | inr sc =>
    match api_ports w with
    | inl e => ([ApiScanInternet port protocol; ApiPorts], outer e)
    | inr official_ports =>
      if existsb (Z.eqb port) official_ports
      then ([ApiScanInternet port protocol; ApiPorts], Returned)
      else
        let filename := pretty port +:+ "-" +:+ protocol +:+ ".json.gz" in
        let start :=
          [ApiScanInternet port protocol; ApiPorts; OpenFile filename;
           StreamPorts [port] 90] in
        let '(acts, st, out) := listen show w quiet port (State 0 sc 0 false) evs in
        match out with
        | Running => (start ++ acts, Running)
        | Returned =>
          (start ++ acts ++ [CloseFile; EchoFinished (counter st)], Returned)
        | Raised e => (start ++ acts ++ [CloseFile], outer e)
        end
    end
  end.

Definition written (tr : list action) : list banner :=
  omap (fun a => match a with WriteBanner b => Some b | _ => None end) tr.

Definition received (tr : list action) : list banner :=
  omap (fun a => match a with Next b => Some b | _ => None end) tr.

Definition polled (tr : list action) : list string :=
  omap (fun a => match a with ScanStatus id => Some id | _ => None end) tr.

Definition closed (tr : list action) : nat :=
  length (omap (fun a => match a with CloseFile => Some tt | _ => None end) tr).

Definition finished (tr : list action) : list Z :=
  omap (fun a => match a with EchoFinished n => Some n | _ => None end) tr.

Definition opened (tr : list action) : list string :=
  omap (fun a => match a with OpenFile name => Some name | _ => None end) tr.

(** An API whose scan is done at the third poll; 80 and 443 are crawled
    anyway. *)
Definition done_at_third_poll : world :=
  World (inr (ScanSubmit.Scan "Mo8W7itcWumiy9Ay" 0)) (inr [80; 443])
        (fun k => if (k <? 2)%nat
                  then inr (ScanSubmit.Scan "Mo8W7itcWumiy9Ay" 0, "PROCESSING")
                  else inr (ScanSubmit.Scan "Mo8W7itcWumiy9Ay" 0, "DONE")).

End ScanInternet.

(** ** The [host] command: placeholder banners and the saved file *)

Module Host.

Import Fields.

(** A banner of [host['data']]: its ['port'], an integer in every answer of
    the API, and its other keys. *)
Record service := Service {
  port : Z;
  others : gmap string json
}.

(** [ports.remove(x)]: the first occurrence goes. *)
Fixpoint remove (x : Z) (ports : list Z) : list Z :=
  match ports with
  | [] => []
  | p :: ports' => if p =? x then ports' else p :: remove x ports'
  end.

(** Lines 521-524: the ports the user cannot see the data for. *)
Definition unseen (ports : list Z) (data : list service) : list Z :=
  fold_left
    (fun ports banner =>
       if existsb (Z.eqb (port banner)) ports
       then remove (port banner) ports
       else ports)
    data ports.

(** Lines 528-533 *)
Definition placeholder (p : Z) (timestamp : json) : service :=
  Service p
    (<["transport" := JStr "tcp"]>
       (<["timestamp" := timestamp]>
          (<["placeholder" := JBool true]> ∅))).

(** Lines 527-534: every placeholder takes the timestamp of the banner that
    is last in [host['data']] when it is built. *)
Fixpoint add_placeholders (ports : list Z) (data : list service)
    : exn + list service :=
  match ports with
  | [] => inr data
  | p :: ports' =>
    match last data with
    | None => inl (OtherException "IndexError('list index out of range')")
    | Some oldest =>
      match others oldest !! "timestamp" with
      | None => inl (OtherException "KeyError('timestamp')")
      | Some timestamp =>
        add_placeholders ports' (data ++ [placeholder p timestamp])
      end
    end
  end.

(** Lines 519-534: [host['data']] after the padding. *)
Definition pad (ports : list Z) (data : list service) : exn + list service :=
  if Nat.eqb (length ports) (length data) then inr data
  else add_placeholders (unseen ports data) data.

(** [sorted(data, key=lambda k: k['port'])]: ascending and stable. *)
Fixpoint insert_by_port (b : service) (sorted : list service) : list service :=
  match sorted with
  | [] => [b]
  | c :: sorted' =>
    if port b <=? port c then b :: c :: sorted'
    else c :: insert_by_port b sorted'
  end.

Definition sorted_by_port (data : list service) : list service :=
  fold_right insert_by_port [] data.

(** ['placeholder' not in banner] *)
Definition is_real (b : service) : bool :=
  match others b !! "placeholder" with
  | None => true
  | Some _ => false
  end.

(** Lines 578-580: the banners written to the file. *)
Definition saved (data : list service) : list service :=
  List.filter is_real (sorted_by_port data).

(** Lines 568-573: the name of the file, if one is written. *)
Definition saved_name (filename : option string) (save : bool) (ip : string)
    : option string :=
  let given :=
    match filename with
    | Some (String _ _) => true
    | _ => false
    end in
  if given || save then
    let filename :=
      if save then ip +:+ ".json.gz" else default "" filename in
    Some (ScanSubmit.output_name filename)
  else None.

(** The ports of the banners, in order. *)
Definition ports_of (data : list service) : list Z := map port data.

(** The order of [sorted]: ascending ports. *)
Definition by_port (a b : service) : Prop := port a <= port b.

End Host.

(** ** The [stats] command: the CSV table *)

Module Stats.

Import Fields.

(** An item of a facet: its ['value'] and its ['count']. *)
Definition item : Type := json * json.

(** [results['facets']]: the facets in the order of the answer. *)
Definition facets : Type := list (string * list item).

(** Lines 1101-1103 *)
Definition csv_name (filename : string) : string :=
  if ScanSubmit.ends_with ".csv" filename then filename
  else filename +:+ ".csv".

(** Lines 1113-1117 *)
Definition header (results : facets) : list json :=
  fold_left (fun row facet => row ++ [JStr facet.1; JStr ""]) results [].

(** Lines 1127-1136: the for loop that fills one row. *)
Fixpoint fill (counter : nat) (results : facets) (pos : nat)
    (row : list json) (has_items : bool) : list json * bool :=
  match results with
  | [] => (row, has_items)
  | (_, values) :: results' =>
    match values !! counter with
    | Some (value, count) =>
      fill counter results' (pos + 2)
           (<[S pos := count]> (<[pos := value]> row)) true
    | None => fill counter results' (pos + 2) row has_items
    end
  end.

(** Lines 1120-1142: the rows the [while] loop writes; [None] if the loop
    has not ended after [fuel] rounds. *)
Fixpoint data_rows (fuel : nat) (counter : nat) (results : facets)
    : option (list (list json)) :=
  match fuel with
  | O => None
  | S fuel' =>
    let row := replicate (length results * 2) (JStr "") in
    let '(row, has_items) := fill counter results 0%nat row false in
    if has_items
    then cons row <$> data_rows fuel' (S counter) results
    else Some []
  end.

(** Lines 1105-1142: all the rows of the file. *)
Definition csv (fuel : nat) (query : string) (results : facets)
    : option (list (list json)) :=
  app [[JStr "Query"; JStr query]; []; header results]
    <$> data_rows fuel 0 results.

(** The two cells of a facet in the row of rank [k]. *)
Definition cells (k : nat) (facet : string * list item) : list json :=
  match facet.2 !! k with
  | Some (value, count) => [value; count]
  | None => [JStr ""; JStr ""]
  end.

(** The length of the longest facet. *)
Definition longest (results : facets) : nat :=
  fold_right (fun facet n => Nat.max (length facet.2) n) 0%nat results.

End Stats.

(** ** The [convert] command: the name of the output file *)

Module Convert.

(** Lines 137-140 *)
Definition output_filename (input format : string) : string :=
  let basename :=
    Text.replace ".json" "" (Text.replace ".json.gz" "" input) in
  basename +:+ "." +:+ format.

End Convert.

(** * Theorems *)

(** ** The [stream] command *)

Module StreamProofs.
Import Stream StreamSpec.
#[local] Arguments trace_of : simpl never.
#[local] Arguments state_of : simpl never.
#[local] Arguments outcome_of : simpl never.

(** *** Traces of the loop *)

Lemma opens_app tr1 tr2 : opens (tr1 ++ tr2) = opens tr1 ++ opens tr2.
Proof. apply omap_app. Qed.

Lemma writes_app tr1 tr2 : writes (tr1 ++ tr2) = writes tr1 ++ writes tr2.
Proof. apply omap_app. Qed.

Lemma received_app tr1 tr2 :
  received (tr1 ++ tr2) = received tr1 ++ received tr2.
Proof. apply omap_app. Qed.

(** The cases of [loop] on a non-empty script. *)
Lemma loop_cons o st ev evs :
  loop o st (ev :: evs) =
  match outcome_of (step o st ev) with
  | Running =>
    (trace_of (step o st ev) ++ trace_of (loop o (state_of (step o st ev)) evs),
     state_of (loop o (state_of (step o st ev)) evs),
     outcome_of (loop o (state_of (step o st ev)) evs))
  | _ => step o st ev
  end.
Proof.
  simpl. destruct (step o st ev) as [[acts st'] out].
  destruct out; try reflexivity.
  unfold trace_of, state_of, outcome_of; simpl.
  destruct (loop o st' evs) as [[acts' st''] out']; reflexivity.
Qed.

Lemma stream_eq o start evs :
  stream o start evs =
  ((startup o start).1 ++ trace_of (loop o (startup o start).2 evs),
   state_of (loop o (startup o start).2 evs),
   outcome_of (loop o (startup o start).2 evs)).
Proof.
  unfold stream. destruct (startup o start) as [acts st]. simpl.
  destruct (loop o st evs) as [[acts' st'] out]. reflexivity.
Qed.

Lemma stream_trace o start evs :
  trace_of (stream o start evs) =
  (startup o start).1 ++ trace_of (loop o (startup o start).2 evs).
Proof. rewrite stream_eq. reflexivity. Qed.

Lemma stream_state o start evs :
  state_of (stream o start evs) = state_of (loop o (startup o start).2 evs).
Proof. rewrite stream_eq. reflexivity. Qed.

Lemma stream_outcome o start evs :
  outcome_of (stream o start evs) = outcome_of (loop o (startup o start).2 evs).
Proof. rewrite stream_eq. reflexivity. Qed.

(** *** Compression level *)

Ltac step_cases :=
  unfold step, body, count_banner, persist, print_banner, on_exception,
    trace_of, state_of, outcome_of;
  repeat case_match; simplify_eq; simpl.

Lemma step_opens_level o st ev :
  Forall (fun f => level f = 9) (opens (trace_of (step o st ev))).
Proof.
  step_cases; try rewrite opens_app; simpl; repeat constructor.
Qed.

Lemma loop_opens_level o evs : forall st,
  Forall (fun f => level f = 9) (opens (trace_of (loop o st evs))).
Proof.
  induction evs as [|ev evs IH]; intros st.
  - constructor.
  - rewrite loop_cons. pose proof (step_opens_level o st ev) as Hs.
    destruct (outcome_of (step o st ev)); try exact Hs.
    unfold trace_of at 1; simpl. rewrite opens_app.
    apply Forall_app; split; [exact Hs | apply IH].
Qed.

Lemma startup_some o start dir :
  datadir_set o = Some dir ->
  startup o start =
  ([CreateStream (timeout o);
    GzipOpen (open_streaming_file 0 dir start (Some (compresslevel o)))],
   State 0 start (Some (open_streaming_file 0 dir start (Some (compresslevel o))))
         1 false).
Proof. intros H. unfold startup. rewrite H. reflexivity. Qed.

Lemma startup_none o start :
  datadir_set o = None ->
  startup o start = ([CreateStream (timeout o)], State 0 start None 0 false).
Proof. intros H. unfold startup. rewrite H. reflexivity. Qed.

Lemma step_opens_none o st ev :
  datadir_set o = None -> opens (trace_of (step o st ev)) = [].
Proof.
  intros H. step_cases; try rewrite opens_app; simpl; congruence.
Qed.

Lemma loop_opens_none o evs : forall st,
  datadir_set o = None -> opens (trace_of (loop o st evs)) = [].
Proof.
  induction evs as [|ev evs IH]; intros st H; [reflexivity|].
  rewrite loop_cons. pose proof (step_opens_none o st ev H) as Hs.
  destruct (outcome_of (step o st ev)); try exact Hs.
  unfold trace_of at 1; simpl. rewrite opens_app, Hs, IH; auto.
Qed.

Lemma levels_all_nine (l : list gzfile) :
  Forall (fun f => level f = 9) l -> map level l = replicate (length l) 9.
Proof.
  induction 1 as [|f l Hf _ IH]; simpl; [reflexivity|].
  rewrite Hf, IH. reflexivity.
Qed.

(** C10: the file opened before the loop (line 1238) gets the level of
    [--compresslevel]; every file opened later, at a rotation (line 1257),
    gets level 9, whatever [--compresslevel] says.  Without a data directory
    no file is opened. *)
Theorem C10_compresslevel_first_file_only o start evs :
  map level (opens (trace_of (stream o start evs))) =
  match datadir_set o with
  | Some _ =>
    compresslevel o ::
      replicate (length (opens (trace_of (stream o start evs))) - 1) 9
  | None => []
  end.
Proof.
  rewrite stream_trace, opens_app.
  destruct (datadir_set o) as [dir|] eqn:E.
  - rewrite (startup_some o start dir E).
    simpl. rewrite Nat.sub_0_r. f_equal.
    apply levels_all_nine, loop_opens_level.
  - rewrite (startup_none o start E).
    simpl. rewrite loop_opens_none; auto.
Qed.

(** *** Files are opened lazily *)

Lemma step_open_shape o dir st ev f :
  datadir_set o = Some dir ->
  In (GzipOpen f) (trace_of (step o st ev)) ->
  exists b day old post,
    ev = Yield b day /\
    f = open_streaming_file (opened st) dir day None /\
    trace_of (step o st ev) =
      [Next b] ++ Close old :: GzipOpen f :: WriteBanner f b :: post.
Proof.
  intros Hdir.
  step_cases; intros Hin;
    repeat (rewrite in_app_iff in Hin; simpl in Hin);
    intuition (try discriminate); simplify_eq;
    eexists _, _, _, _; (split; [reflexivity|split; reflexivity]).
Qed.

Lemma loop_open_shape o dir evs : forall st f,
  datadir_set o = Some dir ->
  In (GzipOpen f) (trace_of (loop o st evs)) ->
  exists b day old pre post,
    In (Yield b day) evs /\
    f = open_streaming_file (fileno f) dir day None /\
    trace_of (loop o st evs) =
      pre ++ Close old :: GzipOpen f :: WriteBanner f b :: post.
Proof.
  induction evs as [|ev evs IH]; intros st f Hdir Hin; [destruct Hin|].
  rewrite loop_cons in Hin |- *.
  assert (Hhere : In (GzipOpen f) (trace_of (step o st ev)) ->
    exists b day old post, In (Yield b day) (ev :: evs) /\
      f = open_streaming_file (fileno f) dir day None /\
      trace_of (step o st ev) =
        [Next b] ++ Close old :: GzipOpen f :: WriteBanner f b :: post).
  { intros H. destruct (step_open_shape o dir st ev f Hdir H)
      as (b & day & old & post & -> & Hf & Htr).
    exists b, day, old, post. split; [left; reflexivity|].
    split; [rewrite Hf at 1; rewrite Hf; reflexivity | exact Htr]. }
  destruct (outcome_of (step o st ev)) eqn:Hout.
  - unfold trace_of at 1 in Hin. simpl in Hin.
    unfold trace_of at 1. simpl.
    apply in_app_or in Hin as [Hin|Hin].
    + destruct (Hhere Hin) as (b & day & old & post & Hev & Hf & Htr).
      exists b, day, old, [Next b], (post ++ trace_of (loop o (state_of (step o st ev)) evs)).
      split; [exact Hev|]. split; [exact Hf|].
      rewrite Htr. rewrite <- !app_assoc. reflexivity.
    + destruct (IH _ _ Hdir Hin) as (b & day & old & pre & post & Hev & Hf & Htr).
      exists b, day, old, (trace_of (step o st ev) ++ pre), post.
      split; [right; exact Hev|]. split; [exact Hf|].
      rewrite Htr. rewrite <- app_assoc. reflexivity.
  - destruct (Hhere Hin) as (b & day & old & post & Hev & Hf & Htr).
    exists b, day, old, [Next b], post. auto.
  - destruct (Hhere Hin) as (b & day & old & post & Hev & Hf & Htr).
    exists b, day, old, [Next b], post. auto.
Qed.

Lemma length_append s t :
  String.length (s +:+ t) = (String.length s + String.length t)%nat.
Proof.
  induction s as [|c s IH]; [reflexivity|].
  change (S (String.length (s +:+ t)) = S (String.length s + String.length t)).
  rewrite IH. reflexivity.
Qed.

Lemma append_inj_r s t1 : forall t2, t1 +:+ s = t2 +:+ s -> t1 = t2.
Proof.
  induction t1 as [|c t1 IH]; intros [|c' t2] H.
  - reflexivity.
  - apply (f_equal String.length) in H.
    change (String.length s = S (String.length (t2 +:+ s))) in H.
    rewrite length_append in H. lia.
  - apply (f_equal String.length) in H.
    change (S (String.length (t1 +:+ s)) = String.length s) in H.
    rewrite length_append in H. lia.
  - change (String c (t1 +:+ s) = String c' (t2 +:+ s)) in H.
    injection H as -> H. rewrite (IH _ H). reflexivity.
Qed.

Lemma day_file_inj dir d1 d2 : day_file dir d1 = day_file dir d2 -> d1 = d2.
Proof.
  unfold day_file. intros H.
  apply (inj (String.app dir)), (inj (String.app "/")) in H.
  exact (append_inj_r _ _ _ H).
Qed.

(** C4 (amended): with a data directory, the only file opened without a
    record is the one of the day the command starts on (opened before the
    loop, line 1238).  Every other file is opened for the day on which a
    banner is being handled, right after the previous file is closed and
    right before that banner is written to it; so for a day other than the
    day of the start on which no banner is handled, no file is opened. *)
Theorem C4_files_after_start_opened_by_a_record o dir start evs :
  datadir_set o = Some dir ->
  (forall f,
     In (GzipOpen f) (trace_of (stream o start evs)) ->
     f = open_streaming_file 0 dir start (Some (compresslevel o)) \/
     exists b day old pre post,
       In (Yield b day) evs /\
       name f = day_file dir day /\
       trace_of (stream o start evs) =
         pre ++ Close old :: GzipOpen f :: WriteBanner f b :: post) /\
  (forall day f,
     day <> start ->
     (forall b, ~ In (Yield b day) evs) ->
     In (GzipOpen f) (trace_of (stream o start evs)) ->
     name f <> day_file dir day).
Proof.
  intros Hdir.
  assert (Hshape : forall f,
     In (GzipOpen f) (trace_of (stream o start evs)) ->
     f = open_streaming_file 0 dir start (Some (compresslevel o)) \/
     exists b day old pre post,
       In (Yield b day) evs /\
       name f = day_file dir day /\
       trace_of (stream o start evs) =
         pre ++ Close old :: GzipOpen f :: WriteBanner f b :: post).
  { intros f. rewrite stream_trace, (startup_some o start dir Hdir).
    simpl. intros [Hin|[Hin|Hin]]; [discriminate | left; congruence |].
    right.
    destruct (loop_open_shape o dir evs _ f Hdir Hin)
      as (b & day & old & pre & post & Hev & Hf & Htr).
    exists b, day, old,
      (CreateStream (timeout o)
         :: GzipOpen (open_streaming_file 0 dir start (Some (compresslevel o)))
         :: pre), post.
    split; [exact Hev|]. split; [rewrite Hf; reflexivity|].
    rewrite Htr. reflexivity. }
  split; [exact Hshape|].
  intros day f Hday Hnone Hin Hname.
  destruct (Hshape f Hin) as [->|(b & day' & _ & _ & _ & Hev & Hf & _)].
  - apply Hday. symmetry. exact (day_file_inj dir _ _ Hname).
  - rewrite Hf in Hname. apply day_file_inj in Hname. subst day'.
    exact (Hnone b Hev).
Qed.

Lemma C4_witness :
  datadir_set to_datadir = Some "data" /\
  "2020-01-02" <> "2020-01-01" /\
  forall f,
    In (GzipOpen f)
       (trace_of (stream to_datadir "2020-01-01"
                    [Yield rec1 "2020-01-01"; Yield rec3 "2020-01-03"])) ->
    name f <> day_file "data" "2020-01-02".
Proof.
  assert (H1 : datadir_set to_datadir = Some "data") by reflexivity.
  assert (H2 : "2020-01-02" <> "2020-01-01") by discriminate.
  split; [exact H1|]. split; [exact H2|].
  intros f.
  apply (proj2 (C4_files_after_start_opened_by_a_record to_datadir "data"
                  "2020-01-01"
                  [Yield rec1 "2020-01-01"; Yield rec3 "2020-01-03"] H1)
               "2020-01-02" f H2).
  intros b [Hb|[Hb|[]]]; discriminate Hb.
Defined.

(** C4 (counterexample): the command is started on 2020-01-01 and the first
    banner arrives on 2020-01-02.  No banner is handled on 2020-01-01, yet
    the file of that day has been opened. *)
Lemma C4_counterexample :
  opens (trace_of (stream to_datadir "2020-01-01" [Yield rec3 "2020-01-02"])) =
    [open_streaming_file 0 "data" "2020-01-01" (Some 5);
     open_streaming_file 1 "data" "2020-01-02" None] /\
  ~ no_file_for_day_without_record.
Proof.
  split; [vm_compute; reflexivity|].
  intros H.
  apply (H to_datadir "data" "2020-01-01" [Yield rec3 "2020-01-02"]
           "2020-01-01" (open_streaming_file 0 "data" "2020-01-01" (Some 5)));
    try reflexivity.
  - intros b [Hb|[]]. discriminate Hb.
  - vm_compute. tauto.
Qed.

(** *** Rotation by the clock *)

Lemma count_banner_within o st :
  limit o <= 0 \/ counter st < limit o ->
  count_banner o st =
  (State (if (0 <? limit o)%Z then counter st + 1 else counter st)
         (last_time st) (fout st) (opened st) (exhausted st), false).
Proof.
  intros H. unfold count_banner.
  destruct (0 <? limit o)%Z eqn:E.
  - f_equal. apply Z.ltb_ge. apply Z.ltb_lt in E. lia.
  - destruct st; reflexivity.
Qed.

Lemma persist_same_day o dir st f b day :
  datadir_set o = Some dir -> fout st = Some f -> day = last_time st ->
  persist o st b day = ([WriteBanner f b], st, Continue).
Proof.
  intros Hd Hf ->. unfold persist. rewrite Hd, String.eqb_refl, Hf. reflexivity.
Qed.

Lemma persist_new_day o dir st f b day :
  datadir_set o = Some dir -> fout st = Some f -> day <> last_time st ->
  persist o st b day =
  ([Close f; GzipOpen (open_streaming_file (opened st) dir day None);
    WriteBanner (open_streaming_file (opened st) dir day None) b],
   State (counter st) day (Some (open_streaming_file (opened st) dir day None))
         (S (opened st)) (exhausted st),
   Continue).
Proof.
  intros Hd Hf Hne. unfold persist. rewrite Hd.
  apply String.eqb_neq in Hne. rewrite Hne, Hf. reflexivity.
Qed.

Lemma step_yield_same_day o dir st f b day :
  datadir_set o = Some dir -> fout st = Some f -> exhausted st = false ->
  limit o <= 0 \/ counter st < limit o ->
  day = last_time st ->
  step o st (Yield b day) =
  (Next b :: WriteBanner f b :: print_banner o b,
   State (if (0 <? limit o)%Z then counter st + 1 else counter st)
         day (Some f) (opened st) false,
   Running).
Proof.
  intros Hd Hf Hx Hl ->. unfold step, body.
  rewrite Hx, (count_banner_within o st Hl).
  rewrite (persist_same_day o dir _ f b (last_time st) Hd); [|exact Hf|reflexivity].
  simpl. rewrite Hx, Hf. reflexivity.
Qed.

Lemma step_yield_new_day o dir st f b day :
  datadir_set o = Some dir -> fout st = Some f -> exhausted st = false ->
  limit o <= 0 \/ counter st < limit o ->
  day <> last_time st ->
  step o st (Yield b day) =
  (Next b :: Close f :: GzipOpen (open_streaming_file (opened st) dir day None)
     :: WriteBanner (open_streaming_file (opened st) dir day None) b
     :: print_banner o b,
   State (if (0 <? limit o)%Z then counter st + 1 else counter st)
         day (Some (open_streaming_file (opened st) dir day None))
         (S (opened st)) false,
   Running).
Proof.
  intros Hd Hf Hx Hl Hne. unfold step, body.
  rewrite Hx, (count_banner_within o st Hl).
  rewrite (persist_new_day o dir _ f b day Hd); [|exact Hf|exact Hne].
  simpl. rewrite Hx. reflexivity.
Qed.



(** C3 (amended): the day of a file is the UTC date of the clock at the
    moment a banner is handled ([timestr()], line 1253), not a field of the
    banner and not the date the command started on.  Started on day d1 with
    banners handled on the days d1, d1, d2, d2, d3, the command opens exactly
    three files, closes each one before it opens the next, and writes each
    banner to the file of the day it is handled on. *)
Theorem C3_rotation_follows_clock_at_handling o dir d1 d2 d3 b1 b2 b3 b4 b5 :
  datadir_set o = Some dir ->
  limit o <= 0 \/ 5 <= limit o ->
  d1 <> d2 -> d2 <> d3 ->
  let tr := trace_of (stream o d1
              [Yield b1 d1; Yield b2 d1; Yield b3 d2; Yield b4 d2; Yield b5 d3]) in
  let f1 := open_streaming_file 0 dir d1 (Some (compresslevel o)) in
  let f2 := open_streaming_file 1 dir d2 None in
  let f3 := open_streaming_file 2 dir d3 None in
  opens tr = [f1; f2; f3] /\
  file_actions tr =
    [GzipOpen f1; WriteBanner f1 b1; WriteBanner f1 b2; Close f1;
     GzipOpen f2; WriteBanner f2 b3; WriteBanner f2 b4; Close f2;
     GzipOpen f3; WriteBanner f3 b5].
Proof.
  intros Hd Hl H12 H23 tr f1 f2 f3. subst tr f1 f2 f3.
  assert (E21 : String.eqb d2 d1 = false) by (apply String.eqb_neq; congruence).
  assert (E32 : String.eqb d3 d2 = false) by (apply String.eqb_neq; congruence).
  destruct (quiet o) eqn:Q.
  all: destruct (0 <? limit o)%Z eqn:E.
  all: assert (Hk : (0 <? limit o)%Z = true -> forall k, k <= 5 -> (limit o <? k)%Z = false)
      by (intros E' k Hk; apply Z.ltb_ge; apply Z.ltb_lt in E'; lia).
  all: unfold stream, startup; rewrite Hd.
  all: repeat (first
      [ rewrite Hd | rewrite String.eqb_refl | rewrite E21 | rewrite E32
      | rewrite E | rewrite Q | rewrite (Hk E) by lia
      | progress unfold step, body, count_banner, persist, print_banner, file_actions, trace_of
      | progress cbn -[Z.ltb String.eqb datadir_set open_streaming_file] ]).
  all: split; reflexivity.
Qed.

Lemma C3_witness :
  datadir_set to_datadir = Some "data" /\
  (limit to_datadir <= 0 \/ 5 <= limit to_datadir) /\
  "2020-01-01" <> "2020-01-02" /\ "2020-01-02" <> "2020-01-03" /\
  opens (trace_of (stream to_datadir "2020-01-01"
           [Yield rec1 "2020-01-01"; Yield rec2 "2020-01-01";
            Yield rec3 "2020-01-02"; Yield rec4 "2020-01-02";
            Yield rec5 "2020-01-03"])) =
    [open_streaming_file 0 "data" "2020-01-01" (Some 5);
     open_streaming_file 1 "data" "2020-01-02" None;
     open_streaming_file 2 "data" "2020-01-03" None].
Proof.
  assert (H1 : datadir_set to_datadir = Some "data") by reflexivity.
  assert (H2 : limit to_datadir <= 0 \/ 5 <= limit to_datadir)
    by (left; vm_compute; discriminate).
  assert (H3 : "2020-01-01" <> "2020-01-02") by discriminate.
  assert (H4 : "2020-01-02" <> "2020-01-03") by discriminate.
  repeat (split; [assumption|]).
  exact (proj1 (C3_rotation_follows_clock_at_handling to_datadir "data"
                  "2020-01-01" "2020-01-02" "2020-01-03"
                  rec1 rec2 rec3 rec4 rec5 H1 H2 H3 H4)).
Defined.

(** C3 (counterexample): five banners whose own timestamps lie on
    2020-01-01, 2020-01-01, 2020-01-02, 2020-01-02 and 2020-01-03 are all
    handled on 2020-01-03 by a command started that day: a single file is
    opened, not three. *)
Lemma C3_counterexample :
  map record_day [rec1; rec2; rec3; rec4; rec5] =
    [Some "2020-01-01"; Some "2020-01-01"; Some "2020-01-02";
     Some "2020-01-02"; Some "2020-01-03"] /\
  opens (trace_of (stream to_datadir "2020-01-03"
           (yield_all [(rec1, "2020-01-03"); (rec2, "2020-01-03");
                       (rec3, "2020-01-03"); (rec4, "2020-01-03");
                       (rec5, "2020-01-03")]))) =
    [open_streaming_file 0 "data" "2020-01-03" (Some 5)] /\
  ~ rotation_by_record_timestamp.
Proof.
  split; [vm_compute; reflexivity|].
  split; [vm_compute; reflexivity|].
  intros H.
  specialize (H to_datadir "data" "2020-01-03"
    [(rec1, "2020-01-03"); (rec2, "2020-01-03"); (rec3, "2020-01-03");
     (rec4, "2020-01-03"); (rec5, "2020-01-03")]
    "2020-01-01" "2020-01-02" "2020-01-03").
  assert (Hlen : length (opens (trace_of (stream to_datadir "2020-01-03"
           (yield_all [(rec1, "2020-01-03"); (rec2, "2020-01-03");
                       (rec3, "2020-01-03"); (rec4, "2020-01-03");
                       (rec5, "2020-01-03")])))) = 1%nat)
    by (vm_compute; reflexivity).
  rewrite Hlen in H.
  assert (1 = 3)%nat; [|discriminate].
  apply H; try discriminate; try reflexivity.
Qed.

(** *** Every write goes to the file of the day *)

Lemma writes_print o b : writes (print_banner o b) = [].
Proof. unfold print_banner. destruct (quiet o); reflexivity. Qed.

Lemma received_print o b : received (print_banner o b) = [].
Proof. unfold print_banner. destruct (quiet o); reflexivity. Qed.

Lemma count_banner_frame o st :
  last_time (count_banner o st).1 = last_time st /\
  fout (count_banner o st).1 = fout st /\
  opened (count_banner o st).1 = opened st /\
  exhausted (count_banner o st).1 = exhausted st.
Proof. unfold count_banner. destruct (0 <? limit o)%Z; simpl; auto. Qed.

Lemma step_writes_current o dir st ev :
  datadir_set o = Some dir -> file_is_current dir st ->
  file_is_current dir (state_of (step o st ev)) /\
  forall f b, In (f, b) (writes (trace_of (step o st ev))) ->
    exists day, ev = Yield b day /\ name f = day_file dir day.
Proof.
  intros Hd (f0 & Hf0 & Hn0). unfold step, state_of, trace_of.
  destruct (exhausted st) eqn:Hx.
  { destruct ev as [b day|e|]; [|destruct e|]; simpl;
      (split; [exists f0; auto | intros f1 b1 []]). }
  destruct ev as [b day|e|].
  - unfold body.
    destruct (count_banner_frame o st) as (Hl & Hf & _ & _).
    destruct (count_banner o st) as [st1 over]. simpl in Hl, Hf.
    destruct over; simpl.
    + split; [exists f0; rewrite Hf, Hl; auto | intros f1 b1 []].
    + destruct (decide (day = last_time st1)) as [Hday|Hday].
      * rewrite (persist_same_day o dir st1 f0 b day Hd) by congruence.
        simpl. rewrite writes_print.
        split; [exists f0; rewrite Hf, Hl; auto|].
        intros f b' [[= <- <-]|[]].
        exists day. split; [reflexivity|]. congruence.
      * rewrite (persist_new_day o dir st1 f0 b day Hd) by congruence.
        simpl. rewrite writes_print.
        split; [eexists; split; reflexivity|].
        intros f b' [[= <- <-]|[]].
        exists day. split; reflexivity.
  - destruct e; simpl; (split; [exists f0; auto | intros f1 b1 []]).
  - simpl. split; [exists f0; auto | intros f1 b1 []].
Qed.

Lemma loop_writes_current o dir evs : forall st,
  datadir_set o = Some dir -> file_is_current dir st ->
  forall f b, In (f, b) (writes (trace_of (loop o st evs))) ->
    exists day, In (Yield b day) evs /\ name f = day_file dir day.
Proof.
  induction evs as [|ev evs IH]; intros st Hd Hcur f b Hin; [destruct Hin|].
  destruct (step_writes_current o dir st ev Hd Hcur) as [Hcur' Hw].
  rewrite loop_cons in Hin.
  assert (Hhere : In (f, b) (writes (trace_of (step o st ev))) ->
            exists day, In (Yield b day) (ev :: evs) /\ name f = day_file dir day).
  { intros H. destruct (Hw f b H) as (day & -> & Hn).
    exists day. split; [left; reflexivity | exact Hn]. }
  destruct (outcome_of (step o st ev)); [|auto|auto].
  unfold trace_of at 1 in Hin. simpl in Hin.
  rewrite writes_app in Hin. apply in_app_or in Hin as [Hin|Hin]; [auto|].
  destruct (IH _ Hd Hcur' f b Hin) as (day & Hev & Hn).
  exists day. split; [right; exact Hev | exact Hn].
Qed.

(** Every banner that is written goes to the file named after the UTC date
    of the clock at the moment the banner is handled. *)
Lemma written_to_the_file_of_the_day o dir start evs f b :
  datadir_set o = Some dir ->
  In (f, b) (writes (trace_of (stream o start evs))) ->
  exists day, In (Yield b day) evs /\ name f = day_file dir day.
Proof.
  intros Hd. rewrite stream_trace, (startup_some o start dir Hd).
  simpl. apply (loop_writes_current o dir evs _ Hd).
  eexists. split; reflexivity.
Qed.
(** *** The limit, on a channel that only yields *)

Lemma step_yield_within o dir st f b day :
  datadir_set o = Some dir -> fout st = Some f -> exhausted st = false ->
  limit o <= 0 \/ counter st < limit o ->
  exists tr st' f',
    step o st (Yield b day) = (tr, st', Running) /\
    map snd (writes tr) = [b] /\ received tr = [b] /\
    fout st' = Some f' /\ exhausted st' = false /\
    counter st' = (if (0 <? limit o)%Z then counter st + 1 else counter st).
Proof.
  intros Hd Hf Hx Hl.
  destruct (decide (day = last_time st)) as [Hday|Hday].
  - eexists _, _, f.
    split; [apply (step_yield_same_day o dir); eassumption|].
    simpl. rewrite writes_print, received_print. auto.
  - eexists _, _, _.
    split; [apply (step_yield_new_day o dir); eassumption|].
    simpl. rewrite writes_print, received_print. auto.
Qed.

Lemma step_yield_over o st b day :
  exhausted st = false -> 0 < limit o -> limit o <= counter st ->
  exists st', step o st (Yield b day) = ([Next b], st', Returned).
Proof.
  intros Hx Hl Hc. unfold step, body, count_banner. rewrite Hx.
  assert (E : (0 <? limit o)%Z = true) by (apply Z.ltb_lt; lia).
  assert (E' : (limit o <? counter st + 1)%Z = true) by (apply Z.ltb_lt; lia).
  rewrite E, E'. eexists. reflexivity.
Qed.

Lemma loop_running o st ev evs tr st' :
  step o st ev = (tr, st', Running) ->
  trace_of (loop o st (ev :: evs)) = tr ++ trace_of (loop o st' evs) /\
  state_of (loop o st (ev :: evs)) = state_of (loop o st' evs) /\
  outcome_of (loop o st (ev :: evs)) = outcome_of (loop o st' evs).
Proof. intros H. rewrite loop_cons, H. auto. Qed.

Lemma loop_stops o st ev evs tr st' out :
  step o st ev = (tr, st', out) -> out <> Running ->
  loop o st (ev :: evs) = (tr, st', out).
Proof.
  intros H Hne. rewrite loop_cons, H. unfold outcome_of. cbn [snd].
  destruct out; congruence.
Qed.

Lemma loop_limit o dir recs : forall st f,
  datadir_set o = Some dir -> 0 < limit o ->
  fout st = Some f -> exhausted st = false ->
  0 <= counter st <= limit o ->
  map snd (writes (trace_of (loop o st (yield_all recs)))) =
    take (Z.to_nat (limit o - counter st)) (map fst recs) /\
  received (trace_of (loop o st (yield_all recs))) =
    take (S (Z.to_nat (limit o - counter st))) (map fst recs) /\
  outcome_of (loop o st (yield_all recs)) =
    (if (Z.to_nat (limit o - counter st) <? length recs)%nat
     then Returned else Running).
Proof.
  induction recs as [|[b day] recs IH]; intros st f Hd Hl Hf Hx Hc.
  - simpl. rewrite take_nil. auto.
  - unfold yield_all. rewrite map_cons. fold (yield_all recs).
    cbn [fst snd].
    destruct (decide (counter st < limit o)) as [Hlt|Hge].
    + assert (Hn : Z.to_nat (limit o - counter st) =
                   S (Z.to_nat (limit o - (counter st + 1)))) by lia.
      assert (E : (0 <? limit o)%Z = true) by (apply Z.ltb_lt; lia).
      destruct (step_yield_within o dir st f b day Hd Hf Hx (or_intror Hlt))
        as (tr & st' & f' & Hstep & Hw & Hr & Hf' & Hx' & Hc').
      rewrite E in Hc'.
      destruct (loop_running o st _ (yield_all recs) _ _ Hstep) as (-> & _ & ->).
      destruct (IH st' f' Hd Hl Hf' Hx') as (IHw & IHr & IHo); [lia|].
      rewrite Hc' in IHw, IHr, IHo.
      rewrite writes_app, received_app, map_app, Hw, Hr, IHw, IHr, IHo, Hn.
      simpl. auto.
    + assert (Hn : Z.to_nat (limit o - counter st) = 0%nat) by lia.
      destruct (step_yield_over o st b day Hx Hl) as [st' Hstep]; [lia|].
      rewrite (loop_stops o st _ (yield_all recs) _ _ _ Hstep), Hn by discriminate.
      simpl. auto.
Qed.

(** C1 (amended): a banner is counted against the limit when it is taken
    from the channel, before it is written (lines 1244-1249 precede lines
    1252-1258).  With a data directory, a positive limit and a channel that
    only yields banners, exactly the first [limit] banners are written; the
    banner after them is taken from the channel, found over the limit and
    discarded unwritten, and the command returns. *)
Theorem C1_first_limit_records_written o dir start recs :
  datadir_set o = Some dir -> 0 < limit o ->
  let r := stream o start (yield_all recs) in
  map snd (writes (trace_of r)) = take (Z.to_nat (limit o)) (map fst recs) /\
  received (trace_of r) = take (S (Z.to_nat (limit o))) (map fst recs) /\
  outcome_of r =
    (if (Z.to_nat (limit o) <? length recs)%nat then Returned else Running).
Proof.
  intros Hd Hl r. subst r.
  rewrite stream_trace, stream_outcome, (startup_some o start dir Hd).
  cbn [fst snd].
  destruct (loop_limit o dir recs
    (State 0 start (Some (open_streaming_file 0 dir start (Some (compresslevel o)))) 1 false)
    (open_streaming_file 0 dir start (Some (compresslevel o))) Hd Hl eq_refl eq_refl)
    as (Hw & Hr & Ho); [simpl; lia|].
  cbn [counter] in Hw, Hr, Ho. rewrite Z.sub_0_r in Hw, Hr, Ho.
  rewrite writes_app, received_app, map_app, Hw, Hr, Ho. simpl. auto.
Qed.

Lemma C1_witness :
  datadir_set limit_two = Some "data" /\ 0 < limit limit_two /\
  map snd (writes (trace_of (stream limit_two "2020-01-01"
             (yield_all [(rec1, "2020-01-01"); (rec2, "2020-01-01");
                         (rec3, "2020-01-01"); (rec4, "2020-01-01")])))) =
    [rec1; rec2] /\
  received (trace_of (stream limit_two "2020-01-01"
             (yield_all [(rec1, "2020-01-01"); (rec2, "2020-01-01");
                         (rec3, "2020-01-01"); (rec4, "2020-01-01")]))) =
    [rec1; rec2; rec3] /\
  outcome_of (stream limit_two "2020-01-01"
             (yield_all [(rec1, "2020-01-01"); (rec2, "2020-01-01");
                         (rec3, "2020-01-01"); (rec4, "2020-01-01")])) =
    Returned.
Proof.
  assert (H1 : datadir_set limit_two = Some "data") by reflexivity.
  assert (H2 : 0 < limit limit_two) by reflexivity.
  split; [exact H1|]. split; [exact H2|].
  exact (C1_first_limit_records_written limit_two "data" "2020-01-01"
           [(rec1, "2020-01-01"); (rec2, "2020-01-01");
            (rec3, "2020-01-01"); (rec4, "2020-01-01")] H1 H2).
Defined.

Lemma limit_two_three_banners b1 b2 b3 :
  stream limit_two "2020-01-01"
    [Yield b1 "2020-01-01"; Yield b2 "2020-01-01"; Yield b3 "2020-01-01"] =
  ([CreateStream 0;
    GzipOpen (open_streaming_file 0 "data" "2020-01-01" (Some 9));
    Next b1; WriteBanner (open_streaming_file 0 "data" "2020-01-01" (Some 9)) b1;
    Next b2; WriteBanner (open_streaming_file 0 "data" "2020-01-01" (Some 9)) b2;
    Next b3],
   State 3 "2020-01-01"
         (Some (open_streaming_file 0 "data" "2020-01-01" (Some 9))) 1 false,
   Returned).
Proof. reflexivity. Qed.

(** C1 (counterexample): with [--limit 2] and three banners on the channel,
    the third banner is taken from the channel and counted, the count
    exceeds the limit, and the banner is never written. *)
Lemma C1_counterexample :
  received (trace_of (stream limit_two "2020-01-01"
              [Yield rec1 "2020-01-01"; Yield rec2 "2020-01-01";
               Yield rec3 "2020-01-01"])) = [rec1; rec2; rec3] /\
  map snd (writes (trace_of (stream limit_two "2020-01-01"
              [Yield rec1 "2020-01-01"; Yield rec2 "2020-01-01";
               Yield rec3 "2020-01-01"]))) = [rec1; rec2] /\
  counter (state_of (stream limit_two "2020-01-01"
              [Yield rec1 "2020-01-01"; Yield rec2 "2020-01-01";
               Yield rec3 "2020-01-01"])) = 3 /\
  ~ no_record_dropped_by_limit.
Proof.
  rewrite (limit_two_three_banners rec1 rec2 rec3).
  split; [reflexivity|]. split; [reflexivity|]. split; [reflexivity|].
  intros H.
  specialize (H limit_two "2020-01-01"
                [Yield rec1 "2020-01-01"; Yield rec2 "2020-01-01";
                 Yield rec3 "2020-01-01"] rec3).
  rewrite (limit_two_three_banners rec1 rec2 rec3) in H.
  destruct H as [H|[H|[]]];
    [reflexivity | eexists; reflexivity | right; right; left; reflexivity | |].
  - apply (f_equal (fun m : banner => m !! "ip")) in H. discriminate H.
  - apply (f_equal (fun m : banner => m !! "ip")) in H. discriminate H.
Qed.

(** *** Exceptions *)

Lemma state_eta st :
  exhausted st = false ->
  State (counter st) (last_time st) (fout st) (opened st) false = st.
Proof. destruct st; simpl; intros ->; reflexivity. Qed.

(** C5 (amended): when the channel raises while the loop waits on it,
    [requests.exceptions.Timeout] ends the command at once with the error
    "Connection timed out", [shodan.APIError] ends it at once with the
    error of the service, and [KeyboardInterrupt] makes it return; none of
    the three is followed by a sleep or a new channel.  Every other
    exception ([socket.timeout] among them) is followed by
    [time.sleep(1)] and a new channel from [_create_stream], and the loop
    goes on with the state it had. *)
Theorem C5_which_exceptions_are_retried o st e evs :
  exhausted st = false ->
  loop o st (Raise e :: evs) =
  match e with
  | RequestsTimeout => ([], st, Raised (ClickException "Connection timed out"))
  | APIError v => ([], st, Raised (ClickException v))
  | KeyboardInterrupt => ([], st, Returned)
  | _ =>
    ([Sleep 1; CreateStream (timeout o)] ++ trace_of (loop o st evs),
     state_of (loop o st evs), outcome_of (loop o st evs))
  end.
Proof.
  intros Hx. rewrite loop_cons. unfold step, on_exception. rewrite Hx.
  rewrite (state_eta st Hx).
  destruct e; reflexivity.
Qed.

Lemma C5_witness :
  exhausted (State 0 "2020-01-01" None 0 false) = false /\
  loop to_datadir (State 0 "2020-01-01" None 0 false)
       [Raise SocketTimeout; Raise (APIError "Invalid API key")] =
  ([Sleep 1; CreateStream 0], State 0 "2020-01-01" None 0 false,
   Raised (ClickException "Invalid API key")).
Proof.
  split; [reflexivity|].
  exact (C5_which_exceptions_are_retried to_datadir
           (State 0 "2020-01-01" None 0 false) SocketTimeout
           [Raise (APIError "Invalid API key")] eq_refl).
Defined.

(** C5 (counterexample): the channel raises [requests.exceptions.Timeout];
    the command ends with "Connection timed out" and neither sleeps nor
    opens a new channel. *)
Lemma C5_counterexample :
  stream to_datadir "2020-01-01" [Raise RequestsTimeout; Yield rec1 "2020-01-01"] =
    ([CreateStream 0; GzipOpen (open_streaming_file 0 "data" "2020-01-01" (Some 5))],
     State 0 "2020-01-01" (Some (open_streaming_file 0 "data" "2020-01-01" (Some 5))) 1 false,
     Raised (ClickException "Connection timed out")) /\
  ~ timeouts_are_retried.
Proof.
  split; [reflexivity|].
  intros H.
  specialize (H to_datadir (State 0 "2020-01-01" None 0 false) RequestsTimeout []
                eq_refl (or_introl eq_refl)).
  discriminate H.
Qed.

End StreamProofs.

(** ** The [scan submit] command *)

Module ScanSubmitProofs.
Import ScanSubmit ScanSubmitSpec.
#[local] Arguments trace_of : simpl never.
#[local] Arguments state_of : simpl never.
#[local] Arguments outcome_of : simpl never.

(** *** The alert is deleted *)

Section Monitor.
Variable get_ip : banner -> exn + value.
Variable w : world.
Variable wait : Z.
Variable sc : scan.
Variable al : alert.

Local Abbreviation monitor := (monitor get_ip w wait sc al).
Local Abbreviation step := (step get_ip w wait sc).
Local Abbreviation body := (body get_ip w sc).
Local Abbreviation on_exception := (on_exception w wait sc).

Lemma deletes_app tr1 tr2 : deletes (tr1 ++ tr2) = deletes tr1 ++ deletes tr2.
Proof. apply omap_app. Qed.

Lemma banners_received_app tr1 tr2 :
  received (tr1 ++ tr2) = received tr1 ++ received tr2.
Proof. apply omap_app. Qed.

(** The cases of [monitor] on a non-empty script. *)
Lemma monitor_cons st ev evs :
  monitor st (ev :: evs) =
  match step st ev with
  | (acts, st', Stay) =>
    (acts ++ trace_of (monitor st' evs), state_of (monitor st' evs),
     outcome_of (monitor st' evs))
  | (acts, st', Again) =>
    if done st' then (acts, st', Returned)
    else
      (acts ++ StreamAlert (alert_id al) wait :: trace_of (monitor st' evs),
       state_of (monitor st' evs), outcome_of (monitor st' evs))
  | (acts, st', Leave) => (acts, st', Returned)
  | (acts, st', Propagate e) => (acts, st', Raised e)
  end.
Proof.
  simpl. destruct (step st ev) as [[acts st'] aft].
  unfold trace_of, state_of, outcome_of.
  destruct aft; try reflexivity.
  - destruct (ScanSubmit.monitor _ _ _ _ _ st' evs) as [[acts' st''] out'].
    reflexivity.
  - destruct (done st'); [reflexivity|].
    destruct (ScanSubmit.monitor _ _ _ _ _ st' evs) as [[acts' st''] out'].
    reflexivity.
Qed.

Ltac step_cases :=
  unfold ScanSubmit.step, ScanSubmit.body, ScanSubmit.dedup, ScanSubmit.poll,
    ScanSubmit.on_exception;
  repeat case_match; simplify_eq; simpl.

Lemma step_deletes st ev : deletes (step st ev).1.1 = [].
Proof. step_cases; try rewrite deletes_app; reflexivity. Qed.

Lemma monitor_deletes evs : forall st, deletes (trace_of (monitor st evs)) = [].
Proof.
  induction evs as [|ev evs IH]; intros st; [reflexivity|].
  rewrite monitor_cons. pose proof (step_deletes st ev) as Hs.
  destruct (step st ev) as [[acts st'] aft]. simpl in Hs.
  destruct aft; [| destruct (done st') | |];
    unfold trace_of; simpl; rewrite ?deletes_app; simpl;
    rewrite ?Hs; try reflexivity; apply IH.
Qed.

End Monitor.

Lemma session_deletes get_ip w wait sc al filename output evs :
  deletes (session get_ip w wait sc al filename output evs).1 = [].
Proof.
  unfold session.
  pose proof (monitor_deletes get_ip w wait sc al evs initial) as Hm.
  destruct (monitor get_ip w wait sc al initial evs) as [[acts st] out].
  unfold trace_of in Hm. simpl in Hm.
  destruct (String.eqb filename ""), out, (helpers_open_file w); simpl;
    rewrite ?deletes_app, ?Hm; reflexivity.
Qed.

(** *** The ways out of the session *)

Section Exits.
Variable get_ip : banner -> exn + value.
Variable w : world.
Variable wait : Z.
Variable sc : scan.
Variable al : alert.

Local Abbreviation monitor := (monitor get_ip w wait sc al).
Local Abbreviation step := (step get_ip w wait sc).

Ltac event_cases :=
  unfold ScanSubmit.step, ScanSubmit.body, ScanSubmit.dedup, ScanSubmit.poll,
    ScanSubmit.on_exception;
  repeat case_match; simplify_eq; simpl.

Ltac run_parts :=
  repeat match goal with
         | |- context [trace_of (?a, ?s, ?o)] => change (trace_of (a, s, o)) with a
         | |- context [state_of (?a, ?s, ?o)] => change (state_of (a, s, o)) with s
         | |- context [outcome_of (?a, ?s, ?o)] => change (outcome_of (a, s, o)) with o
         end.

Lemma creates_app tr1 tr2 : creates (tr1 ++ tr2) = creates tr1 ++ creates tr2.
Proof. apply omap_app. Qed.

Lemma status_calls_app tr1 tr2 : polled (tr1 ++ tr2) = polled tr1 ++ polled tr2.
Proof. apply omap_app. Qed.

Lemma step_creates st ev : creates (step st ev).1.1 = [].
Proof. event_cases; try rewrite creates_app; reflexivity. Qed.

Lemma monitor_creates evs : forall st, creates (trace_of (monitor st evs)) = [].
Proof.
  induction evs as [|ev evs IH]; intros st; [reflexivity|].
  rewrite monitor_cons. pose proof (step_creates st ev) as Hs.
  destruct (step st ev) as [[acts st'] aft]. simpl in Hs.
  destruct aft; [| destruct (done st') | |];
    unfold trace_of; simpl; rewrite ?creates_app; simpl;
    rewrite ?Hs; try reflexivity; apply IH.
Qed.

(** The counter of the polls counts the status calls of the trace. *)
Lemma step_polls st ev :
  polls (step st ev).1.2 = (polls st + length (polled (step st ev).1.1))%nat.
Proof.
  event_cases; rewrite ?status_calls_app; simpl; rewrite ?length_app; simpl; lia.
Qed.

Lemma monitor_polls evs : forall st,
  polls (state_of (monitor st evs))
  = (polls st + length (polled (trace_of (monitor st evs))))%nat.
Proof.
  induction evs as [|ev evs IH]; intros st.
  - unfold state_of, trace_of. simpl. lia.
  - rewrite monitor_cons. pose proof (step_polls st ev) as Hs.
    destruct (step st ev) as [[acts st'] aft]. simpl in Hs.
    destruct aft; [| destruct (done st') | |]; run_parts;
      rewrite ?status_calls_app, ?length_app, ?IH;
      change (polled (StreamAlert (alert_id al) wait
                        :: trace_of (monitor st' evs)))
        with (polled (trace_of (monitor st' evs)));
      lia.
Qed.

(** A banner that lets the for loop go on leaves [done] as it is. *)
Lemma step_stay st ev acts st' :
  step st ev = (acts, st', Stay) -> done st' = done st.
Proof. event_cases; intros; simplify_eq; reflexivity. Qed.

(** While the session listens, the scan is not flagged done. *)
Lemma monitor_listening evs : forall st,
  done st = false -> outcome_of (monitor st evs) = Running ->
  done (state_of (monitor st evs)) = false.
Proof.
  induction evs as [|ev evs IH]; intros st Hd; [intros _; exact Hd|].
  rewrite monitor_cons. pose proof (step_stay st ev) as Hs.
  destruct (step st ev) as [[acts st'] aft].
  destruct aft; [| destruct (done st') eqn:Hd' | |];
    run_parts; try discriminate.
  - apply IH. rewrite (Hs acts st' eq_refl). exact Hd.
  - apply IH. exact Hd'.
Qed.

(** A longer script goes on where the shorter one stands. *)
Lemma monitor_app evs evs' : forall st,
  outcome_of (monitor st evs) = Running ->
  monitor st (evs ++ evs') =
  (trace_of (monitor st evs) ++ trace_of (monitor (state_of (monitor st evs)) evs'),
   state_of (monitor (state_of (monitor st evs)) evs'),
   outcome_of (monitor (state_of (monitor st evs)) evs')).
Proof.
  induction evs as [|ev evs IH]; intros st.
  - intros _. unfold trace_of, state_of, outcome_of. simpl.
    destruct (ScanSubmit.monitor get_ip w wait sc al st evs') as [[a s] out].
    reflexivity.
  - rewrite <- app_comm_cons, !monitor_cons.
    destruct (step st ev) as [[acts st'] aft].
    destruct aft; [| destruct (done st') | |];
      run_parts; try discriminate.
    + intros Hrun. rewrite (IH st' Hrun). run_parts.
      rewrite app_assoc. reflexivity.
    + intros Hrun. rewrite (IH st' Hrun). run_parts.
      rewrite <- app_assoc. reflexivity.
Qed.

(** Each of the ways out ends the loop. *)
Lemma exit_event_leaves st ev :
  done st = false -> exit_event w wait (polls st) ev = true ->
  outcome_of (monitor st [ev]) <> Running.
Proof.
  intros Hd Hexit. rewrite monitor_cons.
  destruct ev as [b now|e now|]; try discriminate.
  unfold step, ScanSubmit.step, ScanSubmit.on_exception.
  destruct e; simpl in Hexit; unfold outcome_of; simpl; try discriminate.
  - apply andb_true_iff in Hexit as [Hwait Hpoll].
    apply negb_true_iff in Hwait. rewrite Hwait, Hd.
    destruct (api_scan_status w (polls st)) as [e'|status]; [discriminate|].
    rewrite Hpoll. simpl. discriminate.
  - apply negb_true_iff in Hexit. rewrite Hexit. simpl. discriminate.
Qed.

(** The session listens exactly when its loop does. *)
Lemma session_listens filename output evs :
  (session get_ip w wait sc al filename output evs).2 = Running ->
  outcome_of (monitor initial evs) = Running /\
  polled (session get_ip w wait sc al filename output evs).1
  = polled (trace_of (monitor initial evs)).
Proof.
  unfold session, outcome_of, trace_of.
  destruct (ScanSubmit.monitor get_ip w wait sc al initial evs) as [[acts st] out].
  destruct (String.eqb filename ""), out, (helpers_open_file w),
    (report_raises w); simpl;
    try discriminate; intros _; split; reflexivity.
Qed.

Lemma session_leaves filename output evs :
  outcome_of (monitor initial evs) <> Running ->
  (session get_ip w wait sc al filename output evs).2 <> Running.
Proof.
  unfold session, outcome_of.
  destruct (ScanSubmit.monitor get_ip w wait sc al initial evs) as [[acts st] out].
  destruct (String.eqb filename ""), out, (helpers_open_file w),
    (report_raises w); simpl; try discriminate; intros H; contradiction.
Qed.

Lemma session_exit filename output evs ev :
  (session get_ip w wait sc al filename output evs).2 = Running ->
  exit_event w wait
    (length (polled (session get_ip w wait sc al filename output evs).1)) ev
  = true ->
  (session get_ip w wait sc al filename output (evs ++ [ev])).2 <> Running.
Proof.
  intros Hrun Hexit.
  destruct (session_listens filename output evs Hrun) as [Hm Hp].
  apply session_leaves. rewrite (monitor_app evs [ev] initial Hm).
  unfold outcome_of at 1. simpl.
  apply exit_event_leaves.
  - apply monitor_listening; [reflexivity|exact Hm].
  - rewrite monitor_polls. simpl. rewrite <- Hp. exact Hexit.
Qed.

End Exits.

Lemma session_creates get_ip w wait sc al filename output evs :
  creates (session get_ip w wait sc al filename output evs).1 = [].
Proof.
  unfold session.
  pose proof (monitor_creates get_ip w wait sc al evs initial) as Hm.
  destruct (monitor get_ip w wait sc al initial evs) as [[acts st] out].
  unfold trace_of in Hm. simpl in Hm.
  destruct (String.eqb filename ""), out, (helpers_open_file w); simpl;
    rewrite ?creates_app, ?Hm; reflexivity.
Qed.

(** C2: on every path on which the command ends (it returns, or an
    exception leaves it: a time-out, an error of the service, any other
    exception, an interrupt of the user), [api.delete_alert] is called
    exactly once, with the id of the alert that [api.create_alert] returned;
    it is not called at all when no alert was created (the submission failed,
    [api.create_alert] failed, or [wait <= 0]), nor while the command is
    still listening.  The call is the last one of the run, after the one
    call of [api.create_alert]; without an alert the command ends before it
    listens; and each way out of the session is taken: from a run that is
    still listening, the interrupt, an unexpected exception, the time-out
    after [wait] seconds, and the error of the service after [wait] seconds
    whose status poll raises or answers DONE, each ends the command with
    that one call. *)
Theorem C2_alert_deleted_exactly_once get_ip w wait filename force netblocks evs :
  (deletes (scan_submit get_ip w wait filename force netblocks evs).1 =
   match (scan_submit get_ip w wait filename force netblocks evs).2 with
   | Running => []
   | _ =>
     match created_alert w wait with
     | Some al => [alert_id al]
     | None => []
     end
   end) /\
  (forall al,
     created_alert w wait = Some al ->
     (scan_submit get_ip w wait filename force netblocks evs).2 <> Running ->
     exists pre,
       (scan_submit get_ip w wait filename force netblocks evs).1
       = pre ++ [DeleteAlert (alert_id al)] /\
       creates pre = ["Scan: " +:+ String.concat ", " netblocks] /\
       deletes pre = []) /\
  (created_alert w wait = None ->
   (scan_submit get_ip w wait filename force netblocks evs).2 <> Running) /\
  (forall ev,
     (scan_submit get_ip w wait filename force netblocks evs).2 = Running ->
     exit_event w wait
       (length (polled (scan_submit get_ip w wait filename force netblocks evs).1))
       ev = true ->
     (scan_submit get_ip w wait filename force netblocks (evs ++ [ev])).2
       <> Running /\
     exists al,
       created_alert w wait = Some al /\
       deletes (scan_submit get_ip w wait filename force netblocks (evs ++ [ev])).1
       = [alert_id al]).
Proof.
  assert (Hdel : forall evs,
    deletes (scan_submit get_ip w wait filename force netblocks evs).1 =
    match (scan_submit get_ip w wait filename force netblocks evs).2 with
    | Running => []
    | _ =>
      match created_alert w wait with
      | Some al => [alert_id al]
      | None => []
      end
    end).
  { intros evs0. unfold scan_submit, created_alert.
    destruct (api_scan w) as [e|sc]; [destruct e; reflexivity|].
    destruct (wait <=? 0); [reflexivity|].
    destruct (api_create_alert w) as [e|al]; [destruct e; reflexivity|].
    pose proof (session_deletes get_ip w wait sc al filename
                  (output_name filename) evs0) as Hs.
    destruct (session get_ip w wait sc al filename (output_name filename) evs0)
      as [acts out].
    simpl in Hs.
    destruct out as [| |e]; [| |destruct e]; simpl;
      rewrite ?deletes_app, ?Hs; reflexivity. }
  split; [apply Hdel|]. split; [|split].
  - intros al0. unfold scan_submit, created_alert.
    destruct (api_scan w) as [e|sc]; [discriminate|].
    destruct (wait <=? 0); [discriminate|].
    destruct (api_create_alert w) as [e|al]; [discriminate|].
    intros [= <-].
    pose proof (session_deletes get_ip w wait sc al filename
                  (output_name filename) evs) as Hd.
    pose proof (session_creates get_ip w wait sc al filename
                  (output_name filename) evs) as Hc.
    destruct (session get_ip w wait sc al filename (output_name filename) evs)
      as [acts out].
    simpl in Hd, Hc.
    destruct out as [| |e]; [| |destruct e]; simpl; intros Hleft;
      try contradiction;
      (exists (ApiScan netblocks force
               :: CreateAlert ("Scan: " +:+ String.concat ", " netblocks)
                              netblocks
               :: acts);
       split; [reflexivity|]; split;
       [change (creates (ApiScan netblocks force
                  :: CreateAlert ("Scan: " +:+ String.concat ", " netblocks)
                                 netblocks :: acts))
          with (("Scan: " +:+ String.concat ", " netblocks) :: creates acts);
        rewrite Hc; reflexivity
       |exact Hd]).
  - unfold scan_submit, created_alert.
    destruct (api_scan w) as [e|sc]; [destruct e; discriminate|].
    destruct (wait <=? 0); [discriminate|].
    destruct (api_create_alert w) as [e|al]; [destruct e; discriminate|].
    discriminate.
  - intros ev Hrun Hexit.
    assert (Hleft :
      (scan_submit get_ip w wait filename force netblocks (evs ++ [ev])).2
      <> Running /\ exists al, created_alert w wait = Some al).
    { revert Hrun Hexit. unfold scan_submit, created_alert.
      destruct (api_scan w) as [e|sc]; [destruct e; discriminate|].
      destruct (wait <=? 0); [discriminate|].
      destruct (api_create_alert w) as [e|al]; [destruct e; discriminate|].
      pose proof (session_exit get_ip w wait sc al filename
                    (output_name filename) evs ev) as Hs.
      destruct (session get_ip w wait sc al filename (output_name filename) evs)
        as [acts out].
      destruct (session get_ip w wait sc al filename (output_name filename)
                  (evs ++ [ev])) as [acts' out'].
      simpl in Hs.
      destruct out as [| |e]; [| |destruct e]; simpl; try discriminate.
      intros _ Hexit. specialize (Hs eq_refl Hexit).
      split; [|eexists; reflexivity].
      destruct out' as [| |e]; [contradiction| |destruct e]; simpl; discriminate. }
    destruct Hleft as [Hout [al Hal]].
    split; [exact Hout|]. exists al. split; [exact Hal|].
    rewrite Hdel, Hal.
    destruct ((scan_submit get_ip w wait filename force netblocks
                 (evs ++ [ev])).2); [contradiction|reflexivity|reflexivity].
Qed.

Lemma C2_witness :
  created_alert scan_running 20 = Some (Alert "A1") /\
  (scan_submit host_key scan_running 20 "" false ["198.51.100.0/24"]
     [Yield http_first 1]).2 = Running /\
  exit_event scan_running 20
    (length (polled (scan_submit host_key scan_running 20 "" false
                       ["198.51.100.0/24"] [Yield http_first 1]).1))
    (Raise KeyboardInterrupt 2) = true /\
  (scan_submit host_key scan_running 20 "" false ["198.51.100.0/24"]
     ([Yield http_first 1] ++ [Raise KeyboardInterrupt 2])).2 <> Running /\
  exists al,
    created_alert scan_running 20 = Some al /\
    deletes (scan_submit host_key scan_running 20 "" false ["198.51.100.0/24"]
               ([Yield http_first 1] ++ [Raise KeyboardInterrupt 2])).1
    = [alert_id al].
Proof.
  assert (H1 : created_alert scan_running 20 = Some (Alert "A1")) by reflexivity.
  assert (H2 : (scan_submit host_key scan_running 20 "" false ["198.51.100.0/24"]
                  [Yield http_first 1]).2 = Running) by reflexivity.
  assert (H3 : exit_event scan_running 20
    (length (polled (scan_submit host_key scan_running 20 "" false
                       ["198.51.100.0/24"] [Yield http_first 1]).1))
    (Raise KeyboardInterrupt 2) = true) by reflexivity.
  exact (conj H1 (conj H2 (conj H3
    (proj2 (proj2 (proj2
       (C2_alert_deleted_exactly_once host_key scan_running 20 "" false
          ["198.51.100.0/24"] [Yield http_first 1])))
       (Raise KeyboardInterrupt 2) H2 H3)))).
Defined.



(** *** Banners without an address *)

Lemma identify_none b :
  b !! "ip" = None -> b !! "ipv6" = None -> identify b = None.
Proof. intros H1 H2. unfold identify, get. rewrite H1, H2. reflexivity. Qed.

(** C7: a banner with neither [ip] nor [ipv6] changes neither the cache nor
    the table (nor anything else of the state), raises nothing, and the loop
    goes on with the next event. *)
Theorem C7_banner_without_address_skipped get_ip w wait sc al st b now evs :
  b !! "ip" = None -> b !! "ipv6" = None ->
  body get_ip w sc st b now = ([], st, Continue) /\
  monitor get_ip w wait sc al st (Yield b now :: evs) =
    (Next b :: trace_of (monitor get_ip w wait sc al st evs),
     state_of (monitor get_ip w wait sc al st evs),
     outcome_of (monitor get_ip w wait sc al st evs)).
Proof.
  intros H1 H2.
  assert (Hb : body get_ip w sc st b now = ([], st, Continue)).
  { unfold body. rewrite (identify_none b H1 H2). reflexivity. }
  split; [exact Hb|].
  rewrite monitor_cons. unfold step. rewrite Hb. reflexivity.
Qed.

Lemma C7_witness :
  no_address !! "ip" = None /\ no_address !! "ipv6" = None /\
  body host_key scan_running (Scan "S1" 99) initial no_address 5 =
    ([], initial, Continue).
Proof.
  assert (H1 : no_address !! "ip" = None) by reflexivity.
  assert (H2 : no_address !! "ipv6" = None) by reflexivity.
  split; [exact H1|]. split; [exact H2|].
  exact (proj1 (C7_banner_without_address_skipped host_key scan_running 20
                  (Scan "S1" 99) (Alert "A1") initial no_address 5 [] H1 H2)).
Defined.


(** *** The table and the cache *)

Lemma step_table get_ip w wait sc st ev :
  (hosts (step get_ip w wait sc st ev).1.2,
   cache (step get_ip w wait sc st ev).1.2) =
  foldl (remember get_ip) (hosts st, cache st)
        (received (step get_ip w wait sc st ev).1.1).
Proof.
  unfold step, body, poll, on_exception, remember, dedup.
  repeat case_match; simplify_eq; simpl;
    rewrite ?banners_received_app; simpl;
    unfold remember, dedup; simpl;
    repeat case_match; simplify_eq; simpl; try reflexivity.
Qed.


Lemma trace_of_eq (a : list action) (s : state) (o : outcome) :
  trace_of (a, s, o) = a.
Proof. reflexivity. Qed.

Lemma state_of_eq (a : list action) (s : state) (o : outcome) :
  state_of (a, s, o) = s.
Proof. reflexivity. Qed.

Lemma outcome_of_eq (a : list action) (s : state) (o : outcome) :
  outcome_of (a, s, o) = o.
Proof. reflexivity. Qed.

Lemma monitor_table get_ip w wait sc al evs : forall st,
  (hosts (state_of (monitor get_ip w wait sc al st evs)),
   cache (state_of (monitor get_ip w wait sc al st evs))) =
  foldl (remember get_ip) (hosts st, cache st)
        (received (trace_of (monitor get_ip w wait sc al st evs))).
Proof.
  induction evs as [|ev evs IH]; intros st; [reflexivity|].
  rewrite monitor_cons. pose proof (step_table get_ip w wait sc st ev) as Hs.
  destruct (step get_ip w wait sc st ev) as [[acts st'] aft]. simpl in Hs.
  destruct aft; [| destruct (done st') | |];
    rewrite !trace_of_eq, !state_of_eq, ?banners_received_app; simpl;
    rewrite ?foldl_app, <- ?Hs; try reflexivity; apply IH.
Qed.

Lemma identity_Some b ip p :
  identity b = Some (ip, p) <-> identify b = Some ip /\ b !! "port" = Some p.
Proof.
  unfold identity. destruct (identify b), (b !! "port"); split;
    [intros [= -> ->]; auto | intros [[= ->] [= ->]]; reflexivity
    | discriminate | intros [_ [=]] | discriminate | intros [[=] _]
    | discriminate | intros [[=] _]].
Qed.

Lemma first_seen_Some i bs b :
  first_seen i bs = Some b -> In b bs /\ identity b = Some i.
Proof.
  induction bs as [|b0 bs IH]; simpl; [discriminate|].
  destruct (decide (identity b0 = Some i)) as [Hi|Hi].
  - intros [= ->]. auto.
  - intros H. destruct (IH H). auto.
Qed.

Lemma first_seen_None i bs :
  first_seen i bs = None <-> forall b, In b bs -> identity b <> Some i.
Proof.
  induction bs as [|b0 bs IH]; simpl.
  - split; [intros _ b []|reflexivity].
  - destruct (decide (identity b0 = Some i)) as [Hi|Hi].
    + split; [discriminate|]. intros H. destruct (H b0); auto.
    + rewrite IH. split.
      * intros H b [<-|Hb]; auto.
      * intros H b Hb. apply H. auto.
Qed.

Lemma first_seen_app i l1 l2 :
  first_seen i (l1 ++ l2) =
  match first_seen i l1 with
  | Some b => Some b
  | None => first_seen i l2
  end.
Proof.
  induction l1 as [|b0 l1 IH]; simpl; [reflexivity|].
  destruct (decide (identity b0 = Some i)); [reflexivity|exact IH].
Qed.

Lemma hosts_get_set hs h p b h' p' :
  hosts_get (hosts_set hs h p b) h' p' =
  if decide ((h', p') = (h, p)) then Some b else hosts_get hs h' p'.
Proof.
  unfold hosts_get, hosts_set.
  destruct (decide (h' = h)) as [->|Hh].
  - rewrite lookup_insert_eq. simpl.
    destruct (decide (p' = p)) as [->|Hp].
    + rewrite lookup_insert_eq. rewrite decide_True; reflexivity.
    + rewrite lookup_insert_ne by congruence.
      rewrite decide_False by congruence.
      destruct (hs !! h); reflexivity.
  - rewrite lookup_insert_ne by congruence.
    rewrite decide_False by congruence. reflexivity.
Qed.

Lemma well_formed_spec get_ip bs :
  well_formed get_ip bs = true <->
  forall b1 b2, In b1 bs -> In b2 bs -> consistent get_ip b1 b2 = true.
Proof.
  unfold well_formed. rewrite forallb_forall. split.
  - intros H b1 b2 H1 H2. specialize (H b1 H1).
    rewrite forallb_forall in H. auto.
  - intros H b1 H1. rewrite forallb_forall. auto.
Qed.

Lemma has_colon_app s t : has_colon (s +:+ t) = has_colon s || has_colon t.
Proof.
  induction s as [|c s IH]; simpl; [reflexivity|].
  destruct (Ascii.eqb c ":"%char); [reflexivity|exact IH].
Qed.

Lemma pretty_N_go_no_colon x : forall s,
  has_colon s = false -> has_colon (pretty_N_go x s) = false.
Proof.
  induction (N.lt_wf_0 x) as [x _ IH]; intros s Hs.
  destruct (decide (x = 0)%N) as [->|Hx].
  - rewrite pretty_N_go_0. exact Hs.
  - rewrite pretty_N_go_step by lia. apply IH.
    + apply N.div_lt; lia.
    + simpl. unfold pretty_N_char.
      destruct (x `mod` 10)%N as [|[[[|[]|]|[[]|[]|]|]|[[|[]|]|[[]|[]|]|]|]];
        simpl; exact Hs.
Qed.

Lemma pretty_Z_no_colon (z : Z) : has_colon (pretty z) = false.
Proof.
  assert (HN : forall n : N, has_colon (pretty n) = false).
  { intros n. unfold pretty, pretty_N. case_decide; [reflexivity|].
    apply pretty_N_go_no_colon. reflexivity. }
  destruct z as [|p|p]; unfold pretty, pretty_Z; [reflexivity| |].
  - apply HN.
  - rewrite has_colon_app. simpl. apply HN.
Qed.

Lemma split_at_last_colon s1 : forall s2 t1 t2,
  s1 +:+ String ":" t1 = s2 +:+ String ":" t2 ->
  has_colon t1 = false -> has_colon t2 = false ->
  s1 = s2 /\ t1 = t2.
Proof.
  induction s1 as [|c s1 IH]; intros [|c' s2] t1 t2 H H1 H2.
  - change (String ":" t1 = String ":" t2) in H. injection H as ->. auto.
  - change (String ":" t1 = String c' (s2 +:+ String ":" t2)) in H.
    injection H as <- ->. rewrite has_colon_app in H1. simpl in H1.
    rewrite orb_true_r in H1. discriminate.
  - change (String c (s1 +:+ String ":" t1) = String ":" t2) in H.
    injection H as -> <-. rewrite has_colon_app in H2. simpl in H2.
    rewrite orb_true_r in H2. discriminate.
  - change (String c (s1 +:+ String ":" t1) = String c' (s2 +:+ String ":" t2)) in H.
    injection H as -> H. destruct (IH _ _ _ H H1 H2) as [-> ->]. auto.
Qed.

Lemma cache_key_inj ip1 ip2 (n1 n2 : Z) :
  cache_key ip1 (VInt n1) = cache_key ip2 (VInt n2) ->
  str ip1 = str ip2 /\ n1 = n2.
Proof.
  unfold cache_key. intros H.
  change (str ip1 +:+ String ":" (pretty n1) = str ip2 +:+ String ":" (pretty n2)) in H.
  destruct (split_at_last_colon _ _ _ _ H (pretty_Z_no_colon n1)
              (pretty_Z_no_colon n2)) as [Hs Hn].
  split; [exact Hs|]. apply (inj pretty). exact Hn.
Qed.

Lemma consistent_spec get_ip b1 b2 i1 i2 :
  consistent get_ip b1 b2 = true ->
  identity b1 = Some i1 -> identity b2 = Some i2 ->
  exists h1 h2,
    get_ip b1 = inr h1 /\ get_ip b2 = inr h2 /\
    (cache_key i1.1 i1.2 = cache_key i2.1 i2.2 -> i1 = i2) /\
    ((h1, i1.2) = (h2, i2.2) -> i1 = i2).
Proof.
  unfold consistent. intros H H1 H2. rewrite H1, H2 in H.
  destruct (get_ip b1) as [|h1], (get_ip b2) as [|h2]; try discriminate.
  destruct i1 as [ip1 p1], i2 as [ip2 p2]. simpl in *.
  repeat (apply andb_true_iff in H as [H ?]).
  destruct p1 as [|n1|], p2 as [|n2|]; try discriminate.
  exists h1, h2. repeat split.
  - intros E. apply cache_key_inj in E as [Es ->].
    rewrite (bool_decide_eq_true_2 _ Es) in *. simpl in *.
    f_equal. eapply bool_decide_eq_true_1. eassumption.
  - intros [= -> ->].
    rewrite (bool_decide_eq_true_2 (h2 = h2) eq_refl) in *. simpl in *.
    f_equal. eapply bool_decide_eq_true_1. eassumption.
Qed.

Lemma remember_skip get_ip tc b : identity b = None -> remember get_ip tc b = tc.
Proof.
  unfold identity, remember, dedup. destruct tc as [hs c].
  destruct (identify b); [|reflexivity].
  destruct (b !! "port"); [discriminate|reflexivity].
Qed.

Lemma remember_hit get_ip tc b i :
  identity b = Some i -> is_Some (tc.2 !! cache_key i.1 i.2) ->
  remember get_ip tc b = tc.
Proof.
  destruct i as [ip p], tc as [hs c]. intros Hi [v Hv].
  apply identity_Some in Hi as [Hip Hp].
  unfold remember, dedup. simpl in *. rewrite Hip, Hp, Hv. reflexivity.
Qed.

Lemma remember_miss get_ip tc b i h :
  identity b = Some i -> tc.2 !! cache_key i.1 i.2 = None ->
  get_ip b = inr h ->
  remember get_ip tc b =
  (hosts_set tc.1 h i.2 b, <[cache_key i.1 i.2 := true]> tc.2).
Proof.
  destruct i as [ip p], tc as [hs c]. intros Hi Hv Hh.
  apply identity_Some in Hi as [Hip Hp].
  unfold remember, dedup. simpl in *. rewrite Hip, Hp, Hv, Hh. reflexivity.
Qed.


Lemma holds_first_seen_nil get_ip : holds_first_seen get_ip (∅, ∅) [].
Proof.
  split.
  - intros k. simpl. rewrite lookup_empty. split.
    + intros [v Hv]. discriminate.
    + intros (b & i & [] & _).
  - intros h p b. unfold hosts_get. simpl. rewrite lookup_empty. simpl.
    split; [discriminate|]. intros (i & Hi & _). discriminate.
Qed.

Lemma first_seen_snoc_keep i hist b :
  (identity b <> Some i \/ is_Some (first_seen i hist)) ->
  first_seen i (hist ++ [b]) = first_seen i hist.
Proof.
  intros H. rewrite first_seen_app.
  destruct (first_seen i hist) as [b0|] eqn:E; [reflexivity|].
  destruct H as [H|[b0 H]]; [|discriminate].
  simpl. rewrite decide_False by exact H. reflexivity.
Qed.

Lemma holds_first_seen_snoc get_ip tc hist b :
  holds_first_seen get_ip tc hist ->
  (forall b1 b2, In b1 (hist ++ [b]) -> In b2 (hist ++ [b]) ->
                 consistent get_ip b1 b2 = true) ->
  holds_first_seen get_ip (remember get_ip tc b) (hist ++ [b]).
Proof.
  intros [I1 I2] Hwf.
  assert (Hb : In b (hist ++ [b])) by (apply in_or_app; right; left; reflexivity).
  assert (Hh : forall b0, In b0 hist -> In b0 (hist ++ [b]))
    by (intros b0 H0; apply in_or_app; left; exact H0).
  destruct (identity b) as [i|] eqn:Hi.
  2:{ (* the banner has no identity: nothing changes *)
    rewrite (remember_skip get_ip tc b Hi).
    assert (Hfs : forall j, first_seen j (hist ++ [b]) = first_seen j hist).
    { intros j. apply first_seen_snoc_keep. left. congruence. }
    split.
    - intros k. rewrite I1. split.
      + intros (b0 & j & H0 & Hj & Hk). exists b0, j. auto.
      + intros (b0 & j & H0 & Hj & Hk). exists b0, j.
        apply in_app_or in H0 as [H0|[<-|[]]]; [auto|congruence].
    - intros h p b'. rewrite I2. split.
      + intros (j & Hj & Hc). exists j. rewrite Hfs. auto.
      + intros (j & Hj & Hc). exists j. rewrite <- Hfs. auto. }
  destruct (consistent_spec get_ip b b i i (Hwf b b Hb Hb) Hi Hi)
    as (h & _ & Hget & _ & _ & _).
  destruct (tc.2 !! cache_key i.1 i.2) as [v|] eqn:Hc.
  - (* the key is in the cache: an earlier banner has the identity *)
    rewrite (remember_hit get_ip tc b i Hi) by (rewrite Hc; eauto).
    assert (Hearlier : is_Some (first_seen i hist)).
    { destruct (proj1 (I1 _) (ltac:(rewrite Hc; eauto)))
        as (b0 & i0 & H0 & Hi0 & Hk).
      destruct (consistent_spec get_ip b0 b i0 i (Hwf b0 b (Hh _ H0) Hb) Hi0 Hi)
        as (_ & _ & _ & _ & Hkey & _).
      specialize (Hkey Hk). subst i0.
      destruct (first_seen i hist) as [b1|] eqn:E; [eauto|].
      exfalso. exact (proj1 (first_seen_None i hist) E b0 H0 Hi0). }
    assert (Hfs : forall j, first_seen j (hist ++ [b]) = first_seen j hist).
    { intros j. apply first_seen_snoc_keep.
      destruct (decide (j = i)) as [->|Hj]; [right; exact Hearlier|].
      left. congruence. }
    split.
    + intros k. rewrite I1. split.
      * intros (b0 & j & H0 & Hj & Hk). exists b0, j. auto.
      * intros (b0 & j & H0 & Hj & Hk).
        apply in_app_or in H0 as [H0|[<-|[]]]; [exists b0, j; auto|].
        assert (j = i) by congruence. subst j.
        apply I1. rewrite <- Hk, Hc. eauto.
    + intros h' p b'. rewrite I2. split.
      * intros (j & Hj & Hcell). exists j. rewrite Hfs. auto.
      * intros (j & Hj & Hcell). exists j. rewrite <- Hfs. auto.
  - (* a new key: the banner is the first with its identity *)
    rewrite (remember_miss get_ip tc b i h Hi Hc Hget).
    assert (Hnone : first_seen i hist = None).
    { apply first_seen_None. intros b0 H0 Hi0.
      assert (Hs : is_Some (tc.2 !! cache_key i.1 i.2))
        by (apply I1; exists b0, i; auto).
      rewrite Hc in Hs. destruct Hs as [? Hs]. discriminate. }
    assert (Hport : b !! "port" = Some i.2).
    { destruct i as [ip p]. apply identity_Some in Hi. tauto. }
    assert (Hnew : first_seen i (hist ++ [b]) = Some b).
    { rewrite first_seen_app, Hnone. simpl.
      rewrite decide_True by exact Hi. reflexivity. }
    assert (Hold : forall j, j <> i ->
              first_seen j (hist ++ [b]) = first_seen j hist).
    { intros j Hj. apply first_seen_snoc_keep. left. congruence. }
    split.
    + intros k. simpl. split.
      * intros Hs. destruct (decide (cache_key i.1 i.2 = k)) as [Hk|Hk].
        -- exists b, i. auto.
        -- rewrite lookup_insert_ne in Hs by exact Hk.
           apply I1 in Hs as (b0 & j & H0 & Hj & Hk'). exists b0, j. auto.
      * intros (b0 & j & H0 & Hj & Hk).
        destruct (decide (cache_key i.1 i.2 = k)) as [Hk'|Hk'].
        -- rewrite Hk', lookup_insert_eq. eauto.
        -- rewrite lookup_insert_ne by exact Hk'.
           apply in_app_or in H0 as [H0|[<-|[]]].
           ++ apply I1. exists b0, j. auto.
           ++ assert (j = i) by congruence. subst j. contradiction.
    + intros h' p b'. simpl. rewrite hosts_get_set.
      destruct (decide ((h', p) = (h, i.2))) as [Hcell|Hcell].
      * injection Hcell as -> ->. split.
        -- intros [= <-]. exists i. auto.
        -- intros (j & Hj & Hg & Hp).
           destruct (decide (j = i)) as [->|Hji]; [congruence|].
           rewrite (Hold j Hji) in Hj.
           apply first_seen_Some in Hj as [H0 Hj].
           destruct (consistent_spec get_ip b' b j i (Hwf b' b (Hh _ H0) Hb) Hj Hi)
             as (h1 & h2 & Hg1 & Hg2 & _ & Hsame).
           exfalso. apply Hji, Hsame.
           assert (Hp' : b' !! "port" = Some j.2).
           { destruct j as [ip' p']. apply identity_Some in Hj. tauto. }
           congruence.
      * rewrite I2. split.
        -- intros (j & Hj & Hg & Hp). exists j.
           rewrite first_seen_app, Hj. auto.
        -- intros (j & Hj & Hg & Hp). exists j.
           destruct (decide (j = i)) as [->|Hji].
           ++ rewrite Hnew in Hj. injection Hj as <-.
              exfalso. apply Hcell. congruence.
           ++ rewrite (Hold j Hji) in Hj. auto.
Qed.

Lemma holds_first_seen_foldl get_ip bs : forall tc hist,
  holds_first_seen get_ip tc hist ->
  (forall b1 b2, In b1 (hist ++ bs) -> In b2 (hist ++ bs) ->
                 consistent get_ip b1 b2 = true) ->
  holds_first_seen get_ip (foldl (remember get_ip) tc bs) (hist ++ bs).
Proof.
  induction bs as [|b bs IH]; intros tc hist Hinv Hwf.
  - rewrite app_nil_r. exact Hinv.
  - simpl. replace (hist ++ b :: bs) with ((hist ++ [b]) ++ bs) in *
      by (rewrite <- app_assoc; reflexivity).
    apply IH; [|exact Hwf].
    apply holds_first_seen_snoc; [exact Hinv|].
    intros b1 b2 H1 H2. apply Hwf; apply in_or_app; left; assumption.
Qed.

(** C6: in one monitoring session whose banners agree on what a host is,
    the table holds, in the cell of a host and a port, exactly the first
    banner received with an identity: every entry is the first-seen banner
    of an identity, every identity received has an entry with its first-seen
    banner, and no identity has two entries.  A later banner with an
    identity already seen changes nothing. *)
Theorem C6_first_seen_banner_kept get_ip w wait sc al evs :
  let r := monitor get_ip w wait sc al initial evs in
  well_formed get_ip (received (trace_of r)) = true ->
  (forall h p b,
     hosts_get (hosts (state_of r)) h p = Some b <->
     exists i, first_seen i (received (trace_of r)) = Some b /\
               get_ip b = inr h /\ b !! "port" = Some p) /\
  (forall i b,
     first_seen i (received (trace_of r)) = Some b ->
     exists h, get_ip b = inr h /\
               hosts_get (hosts (state_of r)) h i.2 = Some b) /\
  (forall h p b h' p' b',
     hosts_get (hosts (state_of r)) h p = Some b ->
     hosts_get (hosts (state_of r)) h' p' = Some b' ->
     identity b = identity b' -> h = h' /\ p = p' /\ b = b').
Proof.
  intros r Hwf. subst r. rewrite well_formed_spec in Hwf.
  pose proof (monitor_table get_ip w wait sc al evs initial) as Ht.
  pose proof (holds_first_seen_foldl get_ip
                (received (trace_of (monitor get_ip w wait sc al initial evs)))
                (∅, ∅) [] (holds_first_seen_nil get_ip) Hwf) as [_ H2].
  simpl in Ht. rewrite <- Ht in H2. simpl in H2.
  split; [exact H2|]. split.
  - intros i b Hfs.
    destruct (first_seen_Some _ _ _ Hfs) as [Hin Hi].
    destruct (consistent_spec get_ip b b i i (Hwf b b Hin Hin) Hi Hi)
      as (h & _ & Hg & _).
    exists h. split; [exact Hg|]. apply H2. exists i.
    split; [exact Hfs|]. split; [exact Hg|].
    destruct i as [ip p]. apply identity_Some in Hi. tauto.
  - intros h p b h' p' b' Hb Hb' Hsame.
    apply H2 in Hb as (i & Hfs & Hg & Hp).
    apply H2 in Hb' as (i' & Hfs' & Hg' & Hp').
    destruct (first_seen_Some _ _ _ Hfs) as [_ Hi].
    destruct (first_seen_Some _ _ _ Hfs') as [_ Hi'].
    assert (i = i') by congruence. subst i'.
    assert (b = b') by congruence. subst b'.
    repeat split; congruence.
Qed.

Lemma C6_witness :
  well_formed host_key
    (received (trace_of (monitor host_key scan_running 20 (Scan "S1" 99)
       (Alert "A1") initial
       [Yield http_first 1; Yield http_again 2; Yield https_other 3]))) = true /\
  hosts_get (hosts (state_of (monitor host_key scan_running 20 (Scan "S1" 99)
       (Alert "A1") initial
       [Yield http_first 1; Yield http_again 2; Yield https_other 3])))
    (VStr "1.2.3.4") (VInt 80) = Some http_first.
Proof.
  assert (Hwf : well_formed host_key
    (received (trace_of (monitor host_key scan_running 20 (Scan "S1" 99)
       (Alert "A1") initial
       [Yield http_first 1; Yield http_again 2; Yield https_other 3]))) = true)
    by (vm_compute; reflexivity).
  split; [exact Hwf|].
  apply (proj1 (C6_first_seen_banner_kept host_key scan_running 20
                  (Scan "S1" 99) (Alert "A1")
                  [Yield http_first 1; Yield http_again 2; Yield https_other 3]
                  Hwf)).
  exists (VStr "1.2.3.4", VInt 80).
  split; [vm_compute; reflexivity|]. split; reflexivity.
Defined.


(** *** Polling the status of the scan *)

(** C9 (amended): the status of the scan is asked for after a banner with an
    address has been handled a minute or more after the start (line 836
    follows the bookkeeping of lines 825-833 in the body of the for loop);
    if the answer is DONE the session is over at once, before any further
    event and whatever [wait] is. *)
Theorem C9_done_scan_ends_session_on_next_record
    get_ip w wait sc al st b now evs ip port :
  identify b = Some ip -> b !! "port" = Some port ->
  (is_Some (cache st !! cache_key ip port) \/ exists h, get_ip b = inr h) ->
  (60 <= now - scan_start w)%Q ->
  In (ScanStatus (scan_id sc)) (step get_ip w wait sc st (Yield b now)).1.1 /\
  (api_scan_status w (polls st) = inr "DONE" ->
   exists st',
     monitor get_ip w wait sc al st (Yield b now :: evs) =
       ([Next b; ScanStatus (scan_id sc)], st', Returned) /\
     done st' = true /\ polls st' = S (polls st)).
Proof.
  intros Hip Hport Hknown Hmin.
  apply Qle_bool_iff in Hmin.
  assert (Hd : exists st1, dedup get_ip st b ip = (st1, Continue) /\
                           polls st1 = polls st).
  { unfold dedup. rewrite Hport.
    destruct (cache st !! cache_key ip port) as [v|] eqn:Hc.
    - eexists. split; reflexivity.
    - destruct Hknown as [[v Hv]|[h Hh]]; [discriminate|].
      rewrite Hh. eexists. split; reflexivity. }
  destruct Hd as (st1 & Hd & Hpolls).
  split.
  - unfold step, body. rewrite Hip, Hd. unfold poll. rewrite Hmin.
    destruct (api_scan_status w (polls st1)) as [e|status].
    + destruct (on_exception w wait sc _ e now) as [[acts' st''] aft].
      simpl. auto.
    + destruct (String.eqb status "DONE"); simpl; auto.
  - intros Hdone. rewrite monitor_cons.
    unfold step, body. rewrite Hip, Hd. unfold poll.
    rewrite Hmin, Hpolls, Hdone. simpl.
    eexists. split; [reflexivity|]. simpl. auto.
Qed.

Lemma C9_witness :
  identify http_first = Some (VStr "1.2.3.4") /\
  http_first !! "port" = Some (VInt 80) /\
  (60 <= 61 - scan_start scan_done)%Q /\
  exists st',
    monitor host_key scan_done 300 (Scan "S1" 99) (Alert "A1") initial
      [Yield http_first 61; Yield https_other 62] =
      ([Next http_first; ScanStatus "S1"], st', Returned) /\
    done st' = true /\ polls st' = 1%nat.
Proof.
  assert (H1 : identify http_first = Some (VStr "1.2.3.4")) by reflexivity.
  assert (H2 : http_first !! "port" = Some (VInt 80)) by reflexivity.
  assert (H3 : (60 <= 61 - scan_start scan_done)%Q)
    by (vm_compute; discriminate).
  split; [exact H1|]. split; [exact H2|]. split; [exact H3|].
  exact (proj2 (C9_done_scan_ends_session_on_next_record host_key scan_done 300
                  (Scan "S1" 99) (Alert "A1") initial http_first 61
                  [Yield https_other 62] (VStr "1.2.3.4") (VInt 80)
                  H1 H2 (or_intror (ex_intro _ (VStr "1.2.3.4") eq_refl)) H3)
               eq_refl).
Defined.

(** C9 (counterexample): the scan is DONE and [wait] is 300.  The channel
    times out 100 seconds after the start: the session opens the channel
    again, asks for no status and goes on listening. *)
Lemma C9_counterexample :
  monitor host_key scan_done 300 (Scan "S1" 99) (Alert "A1") initial
    [Raise SocketTimeout 100] = ([StreamAlert "A1" 300], initial, Running) /\
  ~ polled_once_a_minute_has_passed.
Proof.
  split; [reflexivity|].
  intros H.
  destruct (H host_key scan_done 300 (Scan "S1" 99) (Alert "A1")
              (Raise SocketTimeout 100) 100%Q) as [_ Hout];
    try reflexivity.
  - vm_compute. discriminate.
  - apply Hout. reflexivity.
Qed.

(** *** Time-outs of the channel *)

(** A [socket.timeout] before [wait] seconds have passed: the channel is
    opened again at once. *)
Lemma socket_timeout_before_wait get_ip w wait sc al st now evs :
  done st = false ->
  (now - scan_start w < inject_Z wait)%Q ->
  monitor get_ip w wait sc al st (Raise SocketTimeout now :: evs) =
    (StreamAlert (alert_id al) wait
       :: trace_of (monitor get_ip w wait sc al st evs),
     state_of (monitor get_ip w wait sc al st evs),
     outcome_of (monitor get_ip w wait sc al st evs)).
Proof.
  intros Hdone Hlt. rewrite monitor_cons. unfold step, on_exception.
  assert (E : Qlt_bool (now - scan_start w) (inject_Z wait) = true).
  { unfold Qlt_bool. apply negb_true_iff.
    destruct (Qle_bool (inject_Z wait) (now - scan_start w)) eqn:E';
      [|reflexivity].
    apply Qle_bool_iff in E'. exfalso. exact (Qlt_not_le _ _ Hlt E'). }
  rewrite E, Hdone. reflexivity.
Qed.

(** A [socket.timeout] once [wait] seconds have passed ends the session. *)
Lemma socket_timeout_after_wait get_ip w wait sc al st now evs :
  (inject_Z wait <= now - scan_start w)%Q ->
  monitor get_ip w wait sc al st (Raise SocketTimeout now :: evs) =
    ([], State (hosts st) (cache st) (polls st) true, Returned).
Proof.
  intros Hle. rewrite monitor_cons. unfold step, on_exception.
  assert (E : Qlt_bool (now - scan_start w) (inject_Z wait) = false).
  { unfold Qlt_bool. apply negb_false_iff. apply Qle_bool_iff. exact Hle. }
  rewrite E. reflexivity.
Qed.

(** A [shodan.APIError] before [wait] seconds have passed: the session
    sleeps half a second, then opens the channel again. *)
Lemma api_error_before_wait get_ip w wait sc al st v now evs :
  done st = false ->
  (now - scan_start w < inject_Z wait)%Q ->
  monitor get_ip w wait sc al st (Raise (APIError v) now :: evs) =
    (Sleep (1 # 2) :: StreamAlert (alert_id al) wait
       :: trace_of (monitor get_ip w wait sc al st evs),
     state_of (monitor get_ip w wait sc al st evs),
     outcome_of (monitor get_ip w wait sc al st evs)).
Proof.
  intros Hdone Hlt. rewrite monitor_cons. unfold step, on_exception.
  assert (E : Qlt_bool (now - scan_start w) (inject_Z wait) = true).
  { unfold Qlt_bool. apply negb_true_iff.
    destruct (Qle_bool (inject_Z wait) (now - scan_start w)) eqn:E';
      [|reflexivity].
    apply Qle_bool_iff in E'. exfalso. exact (Qlt_not_le _ _ Hlt E'). }
  rewrite E, Hdone. reflexivity.
Qed.


End ScanSubmitProofs.

(** ** Strings *)

Module TextProofs.
Import Text.

Lemma append_cons c s t : String c s +:+ t = String c (s +:+ t).
Proof. reflexivity. Qed.

Lemma append_nil_l t : "" +:+ t = t.
Proof. reflexivity. Qed.

Lemma append_nil_r s : s +:+ "" = s.
Proof.
  induction s as [|c s IH]; [reflexivity|].
  rewrite append_cons, IH. reflexivity.
Qed.

Lemma append_assoc s t u : (s +:+ t) +:+ u = s +:+ (t +:+ u).
Proof.
  induction s as [|c s IH]; [reflexivity|].
  rewrite !append_cons, IH. reflexivity.
Qed.

Lemma has_char_app c s t : has_char c (s +:+ t) = has_char c s || has_char c t.
Proof.
  induction s as [|a s IH]; [reflexivity|].
  rewrite append_cons. simpl. destruct (Ascii.eqb a c); [reflexivity|exact IH].
Qed.

Lemma prefix_one c a s :
  String.prefix (String c "") (String a s) = Ascii.eqb a c.
Proof.
  simpl. destruct (ascii_dec c a) as [->|Hne].
  - rewrite Ascii.eqb_refl. destruct s; reflexivity.
  - symmetry. apply Ascii.eqb_neq. congruence.
Qed.

(** Replacing one character: every occurrence goes. *)
Lemma replace_char_cons c new a s :
  replace (String c "") new (String a s) =
  (if Ascii.eqb a c then new else String a "") +:+ replace (String c "") new s.
Proof.
  unfold replace. cbn [replace_from]. rewrite prefix_one.
  destruct (Ascii.eqb a c); reflexivity.
Qed.

Lemma replace_char_nil c new : replace (String c "") new "" = "".
Proof. reflexivity. Qed.

Lemma replace_char_app c new s t :
  replace (String c "") new (s +:+ t) =
  replace (String c "") new s +:+ replace (String c "") new t.
Proof.
  induction s as [|a s IH]; [reflexivity|].
  rewrite append_cons, !replace_char_cons, IH, append_assoc. reflexivity.
Qed.

Lemma replace_char_absent c new s :
  has_char c s = false -> replace (String c "") new s = s.
Proof.
  induction s as [|a s IH]; [reflexivity|].
  cbn [has_char]. rewrite replace_char_cons.
  destruct (Ascii.eqb a c); [discriminate|].
  intros H. rewrite (IH H). reflexivity.
Qed.

Lemma replace_char_gone c new s :
  has_char c new = false -> has_char c (replace (String c "") new s) = false.
Proof.
  intros Hnew. induction s as [|a s IH]; [reflexivity|].
  rewrite replace_char_cons, has_char_app, IH, orb_false_r.
  destruct (Ascii.eqb a c) eqn:E; [exact Hnew|].
  cbn [has_char]. rewrite E. reflexivity.
Qed.

Lemma replace_char_keeps_out c d new s :
  has_char d new = false -> has_char d s = false ->
  has_char d (replace (String c "") new s) = false.
Proof.
  intros Hnew. induction s as [|a s IH]; [reflexivity|].
  cbn [has_char]. rewrite replace_char_cons, has_char_app.
  destruct (Ascii.eqb a d) eqn:E; [discriminate|].
  intros H. rewrite (IH H), orb_false_r.
  destruct (Ascii.eqb a c); [exact Hnew|]. cbn [has_char]. rewrite E. reflexivity.
Qed.

(** [split] never gives the empty list. *)
Lemma split_not_nil sep s : split sep s <> [].
Proof.
  destruct s as [|c s]; simpl; [discriminate|].
  destruct (Ascii.eqb c sep); [discriminate|].
  destruct (split sep s); discriminate.
Qed.

Lemma split_absent sep s : has_char sep s = false -> split sep s = [s].
Proof.
  induction s as [|c s IH]; [reflexivity|].
  simpl. destruct (Ascii.eqb c sep); [discriminate|].
  intros H. rewrite (IH H). reflexivity.
Qed.

Lemma split_app sep a b :
  split sep (a +:+ String sep b) = split sep a ++ split sep b.
Proof.
  induction a as [|c a IH].
  - rewrite append_nil_l. simpl. rewrite Ascii.eqb_refl. reflexivity.
  - rewrite append_cons. simpl. destruct (Ascii.eqb c sep).
    + rewrite IH. reflexivity.
    + rewrite IH. pose proof (split_not_nil sep a) as Hne.
      destruct (split sep a); [contradiction|reflexivity].
Qed.

Lemma split_once_first sep a b :
  has_char sep a = false -> split_once sep (a +:+ String sep b) = Some (a, b).
Proof.
  induction a as [|c a IH].
  - intros _. rewrite append_nil_l. simpl. rewrite Ascii.eqb_refl. reflexivity.
  - rewrite append_cons. simpl. destruct (Ascii.eqb c sep); [discriminate|].
    intros H. rewrite (IH H). reflexivity.
Qed.

End TextProofs.

(** ** Fields, filters and rows *)

Module FieldsProofs.
Import Text Fields TextProofs.

Lemma escape_data_str s :
  escape_data (JStr s) =
  inr (replace TAB "\t" (replace CR "\r" (replace LF "\n" s))).
Proof. reflexivity. Qed.

(** X1: the text [escape_data] returns for a string holds no line feed, no
    carriage return and no tab, and escaping it once more gives it back
    unchanged. *)
Theorem escape_data_removes_control_characters s :
  exists t,
    escape_data (JStr s) = inr t /\
    has_char "010" t = false /\ has_char "013" t = false /\
    has_char "009" t = false /\
    escape_data (JStr t) = inr t.
Proof.
  exists (replace TAB "\t" (replace CR "\r" (replace LF "\n" s))).
  assert (Hlf : has_char "010"
            (replace TAB "\t" (replace CR "\r" (replace LF "\n" s))) = false).
  { apply replace_char_keeps_out; [reflexivity|].
    apply replace_char_keeps_out; [reflexivity|].
    apply replace_char_gone. reflexivity. }
  assert (Hcr : has_char "013"
            (replace TAB "\t" (replace CR "\r" (replace LF "\n" s))) = false).
  { apply replace_char_keeps_out; [reflexivity|].
    apply replace_char_gone. reflexivity. }
  assert (Htab : has_char "009"
            (replace TAB "\t" (replace CR "\r" (replace LF "\n" s))) = false).
  { apply replace_char_gone. reflexivity. }
  split; [reflexivity|]. repeat (split; [assumption|]).
  rewrite escape_data_str. unfold LF, CR, TAB in *.
  rewrite (replace_char_absent "010" "\n" _ Hlf).
  rewrite (replace_char_absent "013" "\r" _ Hcr).
  rewrite (replace_char_absent "009" "\t" _ Htab).
  reflexivity.
Qed.

(** X2: [escape_data] works piece by piece, and a line feed comes out as
    the two characters backslash and n: a text with a line feed and the
    same text with backslash-n in its place are escaped to the same
    string, so the escaping cannot be undone. *)
Theorem escape_data_confuses_newline_and_backslash_n s t :
  exists s' t',
    escape_data (JStr s) = inr s' /\ escape_data (JStr t) = inr t' /\
    escape_data (JStr (s +:+ LF +:+ t)) = inr (s' +:+ "\n" +:+ t') /\
    escape_data (JStr (s +:+ "\n" +:+ t)) = inr (s' +:+ "\n" +:+ t').
Proof.
  eexists _, _. split; [reflexivity|]. split; [reflexivity|].
  rewrite !escape_data_str. unfold LF, CR, TAB.
  rewrite !replace_char_app. split; reflexivity.
Qed.

Lemma descend_app fields1 : forall obj fields2,
  descend obj (fields1 ++ fields2) =
  match descend obj fields1 with
  | Some v => descend v fields2
  | None => None
  end.
Proof.
  induction fields1 as [|f fs IH]; intros obj fields2; [reflexivity|].
  simpl. destruct obj; try reflexivity.
  destruct (d !! f); [apply IH|reflexivity].
Qed.

(** X3: a dotted field is read step by step:
    [get_banner_field(banner, a + '.' + b)] is [get_banner_field(d, b)]
    when [get_banner_field(banner, a)] is a dictionary [d], and [None]
    otherwise (a missing key, or a value that is no dictionary). *)
Theorem get_banner_field_nested banner a b :
  get_banner_field banner (a +:+ "." +:+ b) =
  match get_banner_field banner a with
  | JDict d => get_banner_field d b
  | _ => JNull
  end.
Proof.
  unfold get_banner_field.
  change ("." +:+ b) with (String "." b).
  rewrite split_app, descend_app.
  destruct (descend (JDict banner) (split "." a)) as [v|]; [|reflexivity].
  destruct v; try reflexivity;
    pose proof (split_not_nil "." b) as Hne;
    destruct (split "." b); try contradiction; reflexivity.
Qed.


Section Filters.
Variable int_ : string -> option Z.
Variable float_ : string -> option Q.

Local Abbreviation check_filter := (check_filter int_ float_).
Local Abbreviation match_filters := (match_filters int_ float_).

(** X4: the filters are tried in order and all of them must hold: the
    verdict on two lists of filters put together is the verdict on the
    first list if that is a rejection or an exception (the second list is
    not looked at), and the verdict on the second list otherwise. *)
Theorem match_filters_app banner filters1 filters2 :
  match_filters banner (filters1 ++ filters2) =
  match match_filters banner filters1 with
  | inr true => match_filters banner filters2
  | r => r
  end.
Proof.
  induction filters1 as [|args fs IH]; [reflexivity|].
  simpl. destruct (check_filter banner args) as [e|[|]]; [reflexivity|exact IH|reflexivity].
Qed.

(** X5: a filter on a field whose value is false in a condition (the field
    is missing, or holds null, false, 0, 0.0, an empty string, list or
    dictionary) rejects the banner whatever text is asked for: a banner with
    [port] 0 is not matched by the filter [port:0]. *)
Theorem match_filters_rejects_false_value banner field check filters :
  has_char ":" field = false ->
  truthy (get_banner_field banner field) = false ->
  match_filters banner ((field +:+ ":" +:+ check) :: filters) = inr false.
Proof.
  intros Hfield Hfalse. simpl. unfold Fields.check_filter.
  change (":" +:+ check) with (String ":" check).
  rewrite (split_once_first ":" field check Hfield), Hfalse. reflexivity.
Qed.

(** X6: a filter on a field that holds [true] or a non-empty dictionary is
    satisfied by any text: the banner is judged by the other filters
    alone. *)
Theorem match_filters_ignores_unknown_types banner field check filters v :
  has_char ":" field = false ->
  get_banner_field banner field = v ->
  (v = JBool true \/ exists d, v = JDict d /\ size d <> 0%nat) ->
  match_filters banner ((field +:+ ":" +:+ check) :: filters) =
  match_filters banner filters.
Proof.
  intros Hfield Hv Hkind. simpl. unfold Fields.check_filter.
  change (":" +:+ check) with (String ":" check).
  rewrite (split_once_first ":" field check Hfield), Hv.
  destruct Hkind as [->|(d & -> & Hd)]; simpl; [reflexivity|].
  destruct (Nat.eqb_spec (size d) 0); [contradiction|reflexivity].
Qed.

Lemma match_filters_all banner filters :
  (forall args, In args filters -> exists r, check_filter banner args = inr r) ->
  match_filters banner filters =
  inr (forallb (fun args =>
                  match check_filter banner args with
                  | inr true => true
                  | _ => false
                  end) filters).
Proof.
  induction filters as [|args fs IH]; intros Hok; [reflexivity|].
  simpl. destruct (Hok args (or_introl eq_refl)) as [r Hr].
  rewrite Hr. destruct r; [|reflexivity].
  rewrite IH; [reflexivity|]. intros a Ha. apply Hok. right. exact Ha.
Qed.

Lemma forallb_permutation {A} (f : A -> bool) l1 l2 :
  Permutation l1 l2 -> forallb f l1 = forallb f l2.
Proof.
  induction 1 as [|x l1 l2 _ IH|x y l|l1 l2 l3 _ IH1 _ IH2]; simpl.
  - reflexivity.
  - rewrite IH. reflexivity.
  - destruct (f x), (f y); reflexivity.
  - congruence.
Qed.

(** X7: when none of the filters raises on the banner, their order does not
    matter. *)
Theorem match_filters_order_irrelevant banner filters1 filters2 :
  (forall args, In args filters1 -> exists r, check_filter banner args = inr r) ->
  Permutation filters1 filters2 ->
  match_filters banner filters1 = match_filters banner filters2.
Proof.
  intros Hok Hperm.
  rewrite (match_filters_all banner filters1 Hok).
  rewrite (match_filters_all banner filters2).
  - f_equal. apply forallb_permutation. exact Hperm.
  - intros args Hin. apply Hok.
    apply (Permutation_in args (Permutation_sym Hperm) Hin).
Qed.

End Filters.

Section Rows.
Variable str_float : Q -> string.
Variable style : string -> string -> string.

Lemma get_banner_field_plain banner field :
  has_char "." field = false ->
  get_banner_field banner field =
  match banner !! field with Some v => v | None => JNull end.
Proof.
  intros H. unfold get_banner_field. rewrite (split_absent "." field H).
  simpl. destruct (banner !! field); reflexivity.
Qed.

Lemma row_from_ext value1 value2 color separator fields : forall row,
  (forall field, In field fields -> value1 field = value2 field) ->
  row_from str_float style value1 color separator row fields =
  row_from str_float style value2 color separator row fields.
Proof.
  induction fields as [|f fs IH]; intros row Hsame; [reflexivity|].
  simpl. rewrite (Hsame f (or_introl eq_refl)).
  destruct (cell str_float style color f (value2 f)); [reflexivity|].
  apply IH. intros g Hg. apply Hsame. right. exact Hg.
Qed.

(** X8: for field names without a dot, [search] and [parse] (and [stream])
    print the same row for a banner; the two differ only on dotted names,
    which [search] takes as plain keys. *)
Theorem search_row_agrees_with_parse_row color separator fields banner :
  Forall (fun field => has_char "." field = false) fields ->
  search_row str_float style color separator fields banner =
  parse_row str_float style color separator fields banner.
Proof.
  intros Hplain. unfold search_row, parse_row.
  apply row_from_ext. intros field Hin.
  rewrite Forall_forall in Hplain.
  symmetry. apply get_banner_field_plain. apply Hplain.
  apply list_elem_of_In. exact Hin.
Qed.

End Rows.

(** Sample builtins: [int] on the texts 0 and 80, [float] on none. *)
Lemma match_filters_rejects_false_value_witness :
  has_char ":" "port" = false /\
  truthy (get_banner_field {[ "port" := JInt 0 ]} "port") = false /\
  match_filters (fun s => if String.eqb s "0" then Some 0 else None)
                (fun _ => None)
                {[ "port" := JInt 0 ]} ["port:0"; "org:x"] = inr false.
Proof.
  assert (H1 : has_char ":" "port" = false) by reflexivity.
  assert (H2 : truthy (get_banner_field {[ "port" := JInt 0 ]} "port") = false)
    by reflexivity.
  split; [exact H1|]. split; [exact H2|].
  exact (match_filters_rejects_false_value
           (fun s => if String.eqb s "0" then Some 0 else None) (fun _ => None)
           {[ "port" := JInt 0 ]} "port" "0" ["org:x"] H1 H2).
Defined.

Lemma match_filters_ignores_unknown_types_witness :
  has_char ":" "ssl" = false /\
  match_filters (fun _ => None) (fun _ => None)
                {[ "ssl" := JDict {[ "cert" := JNull ]} ]} ["ssl:anything"] =
    inr true.
Proof.
  assert (H1 : has_char ":" "ssl" = false) by reflexivity.
  assert (H2 : get_banner_field {[ "ssl" := JDict {[ "cert" := JNull ]} ]} "ssl"
               = JDict {[ "cert" := JNull ]}) by reflexivity.
  split; [exact H1|].
  apply (match_filters_ignores_unknown_types (fun _ => None) (fun _ => None)
           {[ "ssl" := JDict {[ "cert" := JNull ]} ]} "ssl" "anything" []
           (JDict {[ "cert" := JNull ]}) H1 H2).
  right. exists {[ "cert" := JNull ]}. split; [reflexivity|].
  vm_compute. discriminate.
Defined.

Lemma match_filters_order_irrelevant_witness :
  (forall args, In args ["port:80"; "org:x"] ->
     exists r, check_filter (fun s => if String.eqb s "80" then Some 80 else None)
                            (fun _ => None)
                            {[ "port" := JInt 80 ]} args = inr r) /\
  Permutation ["port:80"; "org:x"] ["org:x"; "port:80"] /\
  match_filters (fun s => if String.eqb s "80" then Some 80 else None)
                (fun _ => None) {[ "port" := JInt 80 ]} ["port:80"; "org:x"] =
  match_filters (fun s => if String.eqb s "80" then Some 80 else None)
                (fun _ => None) {[ "port" := JInt 80 ]} ["org:x"; "port:80"].
Proof.
  assert (H1 : forall args, In args ["port:80"; "org:x"] ->
     exists r, check_filter (fun s => if String.eqb s "80" then Some 80 else None)
                            (fun _ => None)
                            {[ "port" := JInt 80 ]} args = inr r).
  { intros args [<-|[<-|[]]]; eexists; reflexivity. }
  assert (H2 : Permutation ["port:80"; "org:x"] ["org:x"; "port:80"])
    by apply perm_swap.
  split; [exact H1|]. split; [exact H2|].
  exact (match_filters_order_irrelevant _ _ _ _ _ H1 H2).
Defined.

Lemma search_row_agrees_with_parse_row_witness :
  Forall (fun field => has_char "." field = false) ["ip_str"; "port"] /\
  search_row (fun _ => "") (fun _ t => t) false TAB ["ip_str"; "port"]
             {[ "ip_str" := JStr "1.2.3.4"; "port" := JInt 80 ]} =
  parse_row (fun _ => "") (fun _ t => t) false TAB ["ip_str"; "port"]
            {[ "ip_str" := JStr "1.2.3.4"; "port" := JInt 80 ]}.
Proof.
  assert (H : Forall (fun field => has_char "." field = false) ["ip_str"; "port"])
    by (repeat constructor).
  split; [exact H|].
  exact (search_row_agrees_with_parse_row _ _ false TAB _ _ H).
Defined.

End FieldsProofs.

(** ** The [parse] command *)

Module ParseProofs.
Import Text Fields Parse TextProofs.

Lemma fields_of_split fields :
  fields_of fields = inr (map strip (split "," fields)).
Proof.
  unfold fields_of. pose proof (split_not_nil "," fields) as Hne.
  destruct (split "," fields) as [|piece pieces]; [contradiction|reflexivity].
Qed.

(** X9: the check that at least one field is given (lines 613-614, and the
    same at 1007-1008 and 1171-1172) never fails: [split] always returns a
    piece, so even an empty [--fields] gives the one field [''] and no
    error. *)
Theorem fields_of_never_fails fields :
  fields_of fields = inr (map strip (split "," fields)) /\
  map strip (split "," fields) <> [].
Proof.
  unfold fields_of. pose proof (split_not_nil "," fields) as Hne.
  destruct (split "," fields) as [|piece pieces]; [contradiction|].
  split; [reflexivity|discriminate].
Qed.

Section Command.
Variable int_ : string -> option Z.
Variable float_ : string -> option Q.
Variable str_float : Q -> string.
Variable style : string -> string -> string.

Lemma parse_banners_matching color fields filters separator banners :
  filters <> [] ->
  (forall b, In b banners ->
     exists r, match_filters int_ float_ b filters = inr r) ->
  (forall b, In b banners -> accepts int_ float_ filters b = true ->
     exists row, parse_row str_float style color separator fields b = inr row) ->
  written (parse_banners int_ float_ str_float style color fields filters
             separator true banners).1 =
    List.filter (accepts int_ float_ filters) banners /\
  length (echoed (parse_banners int_ float_ str_float style color fields
                    filters separator true banners).1) =
    length (List.filter (accepts int_ float_ filters) banners) /\
  (parse_banners int_ float_ str_float style color fields filters
     separator true banners).2 = Returned.
Proof.
  intros Hfilters Hok Hrows.
  assert (Hhas : (0 <? length filters)%nat = true).
  { destruct filters; [contradiction|reflexivity]. }
  induction banners as [|b bs IH]; [auto|].
  cbn [parse_banners List.filter]. rewrite Hhas.
  destruct IH as (IHw & IHe & IHo).
  { intros b' Hb'. apply Hok. right. exact Hb'. }
  { intros b' Hb'. apply Hrows. right. exact Hb'. }
  destruct (Hok b (or_introl eq_refl)) as [r Hr].
  assert (Hacc : accepts int_ float_ filters b = r)
    by (unfold accepts; rewrite Hr; destruct r; reflexivity).
  rewrite Hr, Hacc.
  destruct r; [|auto].
  destruct (Hrows b (or_introl eq_refl) Hacc) as [row Hrow].
  rewrite Hrow.
  destruct (parse_banners int_ float_ str_float style color fields filters
              separator true bs) as [acts out].
  simpl in *. rewrite IHw, IHe. auto.
Qed.

(** X10: with [--filename] and filters, when no filter and no row raises,
    the banners written to the file are exactly the banners of the input
    for which [match_filters] returns [True], in the order of the input,
    and one row is printed for each of them. *)
Theorem parse_writes_the_matching_banners
    color fields filters name separator banners :
  name <> "" -> filters <> [] ->
  (forall b, In b banners ->
     exists r, match_filters int_ float_ b filters = inr r) ->
  (forall b, In b banners -> accepts int_ float_ filters b = true ->
     exists row, parse_row str_float style color separator
                   (map strip (split "," fields)) b = inr row) ->
  written (parse int_ float_ str_float style color fields filters
             (Some name) separator banners).1 =
    List.filter (accepts int_ float_ filters) banners /\
  length (echoed (parse int_ float_ str_float style color fields filters
                    (Some name) separator banners).1) =
    length (List.filter (accepts int_ float_ filters) banners) /\
  (parse int_ float_ str_float style color fields filters
     (Some name) separator banners).2 = Returned.
Proof.
  intros Hname Hfilters Hok Hrows. unfold parse.
  rewrite (fields_of_split fields).
  apply String.eqb_neq in Hname. rewrite Hname.
  assert (Hhas : (0 <? length filters)%nat = true).
  { destruct filters; [contradiction|reflexivity]. }
  rewrite Hhas. simpl.
  pose proof (parse_banners_matching color (map strip (split "," fields))
                filters separator banners Hfilters Hok Hrows) as H.
  destruct (parse_banners int_ float_ str_float style color
              (map strip (split "," fields)) filters separator true banners)
    as [acts out].
  exact H.
Qed.

End Command.

Lemma parse_writes_the_matching_banners_witness :
  "out" <> "" /\ ["port:80"] <> [] /\
  written (parse (fun s => if String.eqb s "80" then Some 80 else None)
                 (fun _ => None) (fun _ => "") (fun _ t => t)
                 false "port" ["port:80"] (Some "out") TAB
                 [ {[ "port" := JInt 80 ]}; {[ "port" := JInt 443 ]} ]).1 =
    List.filter (accepts (fun s => if String.eqb s "80" then Some 80 else None)
                         (fun _ => None) ["port:80"])
                [ {[ "port" := JInt 80 ]}; {[ "port" := JInt 443 ]} ].
Proof.
  assert (H1 : "out" <> "") by discriminate.
  assert (H2 : ["port:80"] <> []) by discriminate.
  split; [exact H1|]. split; [exact H2|].
  apply (parse_writes_the_matching_banners
           (fun s => if String.eqb s "80" then Some 80 else None)
           (fun _ => None) (fun _ => "") (fun _ t => t)
           false "port" ["port:80"] "out" TAB
           [ {[ "port" := JInt 80 ]}; {[ "port" := JInt 443 ]} ] H1 H2).
  - intros b [<-|[<-|[]]]; eexists; reflexivity.
  - intros b [<-|[<-|[]]] _; eexists; reflexivity.
Defined.

End ParseProofs.

(** ** The [download] command *)

Module DownloadProofs.
Import Text Download.

(** X11: when the search has results ([total] positive), the number of
    results to save lies between 1 and [total]: it is [--limit] if that
    lies in this range, and [total] if [--limit] is zero, negative or
    larger than [total]. *)
Theorem effective_limit_bounds limit total :
  0 < total ->
  1 <= effective_limit limit total <= total /\
  (1 <= limit <= total -> effective_limit limit total = limit) /\
  (limit <= 0 \/ total < limit -> effective_limit limit total = total).
Proof.
  intros Htotal. unfold effective_limit.
  destruct (Z.ltb_spec total limit);
    [destruct (Z.leb_spec total 0) | destruct (Z.leb_spec limit 0)];
    repeat split; intros; lia.
Qed.

Lemma effective_limit_bounds_witness :
  0 < 150 /\ effective_limit 1000 150 = 150 /\ effective_limit 20 150 = 20.
Proof.
  assert (H : 0 < 150) by lia.
  split; [exact H|]. split.
  - apply (proj2 (proj2 (effective_limit_bounds 1000 150 H))). right. lia.
  - apply (proj1 (proj2 (effective_limit_bounds 20 150 H))). lia.
Defined.

Lemma written_app tr1 tr2 : written (tr1 ++ tr2) = written tr1 ++ written tr2.
Proof. apply omap_app. Qed.

Lemma save_prefix limit evs : forall count,
  written (save limit count evs).1.1 =
    take (length (written (save limit count evs).1.1)) (yielded evs) /\
  Z.of_nat (length (written (save limit count evs).1.1)) =
    (save limit count evs).1.2 - count /\
  (save limit count evs).1.2 - count <= Z.max 1 (limit - count).
Proof.
  induction evs as [|[b|e|] evs IH]; intros count; simpl;
    try (rewrite Z.sub_diag; split; [reflexivity|lia]).
  destruct (Z.leb_spec limit (count + 1)) as [Hle|Hgt]; simpl.
  - split; [reflexivity|lia].
  - destruct (IH (count + 1)) as (Hw & Hc & Hm).
    destruct (save limit (count + 1) evs) as [[acts count'] p]. simpl in *.
    rewrite <- Hw. split; [reflexivity|lia].
Qed.

Lemma save_prints_no_notice limit evs : forall count,
  ~ In EchoNotice (save limit count evs).1.1.
Proof.
  induction evs as [|[b|e|] evs IH]; intros count; simpl; try tauto.
  destruct (limit <=? count + 1); simpl; [intuition discriminate|].
  specialize (IH (count + 1)).
  destruct (save limit (count + 1) evs) as [[acts count'] p]. simpl in *.
  intuition discriminate.
Qed.

Lemma save_raise_is_eof limit pre : forall count e rest,
  save limit count (pre ++ Raise e :: rest) = save limit count (pre ++ [Eof]).
Proof.
  induction pre as [|[b|e'|] pre IH]; intros count e rest; simpl;
    try reflexivity.
  destruct (limit <=? count + 1); [reflexivity|].
  rewrite (IH (count + 1) e rest). reflexivity.
Qed.

(** X12: an exception of the cursor ends the download exactly like the end
    of the results: whatever is raised ([KeyboardInterrupt] too), and
    whatever would follow, the command does what it does when the cursor is
    exhausted at that point. *)
Theorem download_takes_an_exception_for_the_end
    w limit filename query pre e rest :
  download w limit filename query (pre ++ Raise e :: rest) =
  download w limit filename query (pre ++ [Eof]).
Proof.
  unfold download.
  destruct (String.eqb (strip (String.concat " " query)) ""); [reflexivity|].
  destruct (String.eqb (strip filename) ""); [reflexivity|].
  destruct (api_count w) as [|total]; [reflexivity|].
  destruct (api_info w); [reflexivity|].
  rewrite save_raise_is_eof. reflexivity.
Qed.

(** X13: the banners saved are the first banners of the cursor, taken in
    order: as many as written, never more than the number to save (and
    never more than one when that number is zero or negative); when the
    command returns it reports that count, and it prints the notice exactly
    when the count is below the number to save. *)
Theorem download_saves_the_first_results w limit filename query evs total :
  strip (String.concat " " query) <> "" -> strip filename <> "" ->
  api_count w = inr total -> api_info w = None ->
  let r := download w limit filename query evs in
  let n := length (written r.1) in
  written r.1 = take n (yielded evs) /\
  Z.of_nat n <= Z.max 1 (effective_limit limit total) /\
  (r.2 = Returned ->
   In (EchoSaved (Z.of_nat n) (ScanSubmit.output_name (strip filename))) r.1 /\
   (In EchoNotice r.1 <-> Z.of_nat n < effective_limit limit total)).
Proof.
  intros Hq Hf Hcount Hinfo r n. subst n r. unfold download.
  apply String.eqb_neq in Hq. apply String.eqb_neq in Hf.
  rewrite Hq, Hf, Hcount, Hinfo.
  destruct (save_prefix (effective_limit limit total) evs 0) as (Hw & Hc & Hm).
  pose proof (save_prints_no_notice (effective_limit limit total) evs 0) as Hno.
  destruct (save (effective_limit limit total) 0 evs) as [[acts count] p].
  simpl in Hno.
  simpl in Hw, Hc, Hm. rewrite Z.sub_0_r in *.
  assert (Hstart : forall tail,
    written ([ApiCount (strip (String.concat " " query)); ApiInfo;
              OpenFile (ScanSubmit.output_name (strip filename));
              SearchCursor (strip (String.concat " " query))] ++ acts ++ tail) =
    written acts ++ written tail).
  { intros tail. rewrite written_app, written_app. reflexivity. }
  destruct p; cbn [fst snd].
  - rewrite <- (app_nil_r acts), Hstart, app_nil_r. simpl. rewrite app_nil_r.
    split; [exact Hw|]. split; [lia|]. discriminate.
  - rewrite Hstart.
    assert (Htail : written
              ((if count <? effective_limit limit total then [EchoNotice] else [])
               ++ [EchoSaved count (ScanSubmit.output_name (strip filename));
                   CloseFile]) = []).
    { destruct (count <? effective_limit limit total); reflexivity. }
    rewrite Htail, app_nil_r.
    split; [exact Hw|]. split; [lia|]. intros _. rewrite Hc.
    split.
    + apply in_or_app. right. apply in_or_app. right. apply in_or_app. right.
      left. reflexivity.
    + split.
      * intros Hin. repeat (apply in_app_or in Hin as [Hin|Hin]).
        -- simpl in Hin. intuition discriminate.
        -- contradiction.
        -- destruct (Z.ltb_spec count (effective_limit limit total));
             [assumption|destruct Hin].
        -- simpl in Hin. intuition discriminate.
      * intros Hlt. apply in_or_app. right. apply in_or_app. right.
        apply in_or_app. left.
        destruct (Z.ltb_spec count (effective_limit limit total)); [|lia].
        left. reflexivity.
Qed.

Lemma download_saves_the_first_results_witness :
  strip (String.concat " " ["apache"; "port:80"]) <> "" /\
  strip "out" <> "" /\
  api_count (World (inr 5) None) = inr 5 /\
  api_info (World (inr 5) None) = None /\
  (let r := download (World (inr 5) None) 2 "out" ["apache"; "port:80"]
              [Yield ∅; Yield ∅; Yield ∅] in
   let n := length (written r.1) in
   written r.1 = take n (yielded [Yield ∅; Yield ∅; Yield ∅]) /\
   Z.of_nat n <= Z.max 1 (effective_limit 2 5) /\
   (r.2 = Returned ->
    In (EchoSaved (Z.of_nat n) (ScanSubmit.output_name (strip "out"))) r.1 /\
    (In EchoNotice r.1 <-> Z.of_nat n < effective_limit 2 5))).
Proof.
  assert (H1 : strip (String.concat " " ["apache"; "port:80"]) <> "")
    by (vm_compute; discriminate).
  assert (H2 : strip "out" <> "") by (vm_compute; discriminate).
  assert (H3 : api_count (World (inr 5) None) = inr 5) by reflexivity.
  assert (H4 : api_info (World (inr 5) None) = None) by reflexivity.
  exact (conj H1 (conj H2 (conj H3 (conj H4
    (download_saves_the_first_results (World (inr 5) None) 2 "out"
       ["apache"; "port:80"] [Yield ∅; Yield ∅; Yield ∅] 5 H1 H2 H3 H4))))).
Defined.

End DownloadProofs.

(** ** The [scan internet] command *)

Module ScanInternetProofs.
Import ScanInternet.

Lemma banners_written_app tr1 tr2 :
  written (tr1 ++ tr2) = written tr1 ++ written tr2.
Proof. apply omap_app. Qed.

Lemma polled_app tr1 tr2 : polled (tr1 ++ tr2) = polled tr1 ++ polled tr2.
Proof. apply omap_app. Qed.

Lemma closed_app tr1 tr2 : (closed (tr1 ++ tr2) = closed tr1 + closed tr2)%nat.
Proof. unfold closed. rewrite omap_app, length_app. reflexivity. Qed.

Lemma opened_app tr1 tr2 : opened (tr1 ++ tr2) = opened tr1 ++ opened tr2.
Proof. apply omap_app. Qed.

#[local] Arguments written : simpl never.
#[local] Arguments received : simpl never.
#[local] Arguments closed : simpl never.
#[local] Arguments finished : simpl never.
#[local] Arguments opened : simpl never.
#[local] Arguments polled : simpl never.

Lemma omap_cons_eq {A B} (f : A -> option B) x l :
  omap f (x :: l) = match f x with Some y => y :: omap f l | None => omap f l end.
Proof. reflexivity. Qed.

Lemma omap_nil_eq {A B} (f : A -> option B) : omap f [] = [].
Proof. reflexivity. Qed.

Ltac readers :=
  unfold written, received, closed, finished, opened, polled in *;
  repeat (rewrite ?omap_app, ?omap_cons_eq, ?omap_nil_eq, ?length_app;
          cbn beta iota delta [length app Nat.add]).

Section Command.

Variable show : banner -> option exn.
Variable w : world.
Variable quiet : bool.
Variable port : Z.

(** The handlers poll at most once and touch neither the file nor the
    counter. *)
Lemma on_exception_frame st e :
  let r := on_exception w st e in
  written r.1.1 = [] /\ received r.1.1 = [] /\ closed r.1.1 = 0%nat /\
  finished r.1.1 = [] /\ opened r.1.1 = [] /\ counter r.1.2 = counter st.
Proof.
  unfold on_exception.
  destruct e; simpl;
    try (destruct (done st); simpl;
         [|destruct (api_scan_status w (polls st)) as [e'|[answer status]]; simpl]);
    repeat split; auto.
Qed.

Ltac listen_cases IH evs :=
  simpl;
  repeat match goal with
  | |- context [if quiet then _ else _] => destruct quiet
  | |- context [show ?b] => destruct (show b)
  | |- context [on_exception w ?s ?e] =>
    let H := fresh "Hx" in
    pose proof (on_exception_frame s e) as H;
    destruct (on_exception w s e) as [[? ?] []]; simpl in H
  | |- context [if done ?s then _ else _] => destruct (done s)
  | |- context [listen show w ?q port ?s evs] =>
    let H := fresh "Hl" in
    pose proof (IH s) as H;
    destruct (listen show w q port s evs) as [[? ?] ?]; simpl in H
  end.

Lemma listen_frame evs : forall st,
  let r := listen show w quiet port st evs in
  written r.1.1 = received r.1.1 /\
  counter r.1.2 = counter st + Z.of_nat (length (written r.1.1)) /\
  closed r.1.1 = 0%nat /\ finished r.1.1 = [] /\ opened r.1.1 = [].
Proof.
  induction evs as [|ev evs IH]; intros st.
  - simpl. repeat split; auto. lia.
  - destruct ev as [b|e|]; listen_cases IH evs; simpl in *;
      readers;
      repeat match goal with H : _ /\ _ |- _ => destruct H end;
      repeat match goal with H : _ = [] |- _ => rewrite H; clear H end;
      repeat match goal with H : _ = 0%nat |- _ => rewrite H; clear H end;
      cbn beta iota delta [length app Nat.add];
      repeat split; auto; try lia; try congruence.
Qed.

(** What the handlers of lines 732-751 add to the polls, given what the
    rest of the loop adds. *)
Lemma handle_polls q evs :
  forall st e,
    done st = false ->
    (forall st', done st' = false ->
       let r := listen show w q port st' evs in
       (polls st' + length (polled r.1.1) = polls r.1.2)%nat /\
       (r.2 = Returned ->
        exists k answer,
          polls r.1.2 = S k /\ api_scan_status w k = inr (answer, "DONE") /\
          forall j, (polls st' <= j < k)%nat ->
            exists a s, api_scan_status w j = inr (a, s) /\ s <> "DONE")) ->
    forall acts, polled acts = [] ->
    let r :=
      (let '(acts', st', aft) := on_exception w st e in
       match aft with
       | Again =>
         if done st' then (acts ++ acts', st', Returned)
         else
           let '(more, st'', out) := listen show w q port st' evs in
           (acts ++ acts' ++ StreamPorts [port] 90 :: more, st'', out)
       | Leave => (acts ++ acts', st', Returned)
       | Propagate e' => (acts ++ acts', st', Raised e')
       end) in
    (polls st + length (polled r.1.1) = polls r.1.2)%nat /\
    (r.2 = Returned ->
     exists k answer,
       polls r.1.2 = S k /\ api_scan_status w k = inr (answer, "DONE") /\
       forall j, (polls st <= j < k)%nat ->
         exists a s, api_scan_status w j = inr (a, s) /\ s <> "DONE").
Proof.
  intros st e Hd IH acts Hacts. unfold on_exception. rewrite Hd.
    assert (Hpoll :
      let r :=
        (let '(acts', st', aft) :=
           match api_scan_status w (polls st) with
           | inl e' =>
             ([ScanStatus (ScanSubmit.scan_id (scan st))],
              State (counter st) (scan st) (S (polls st)) false, Propagate e')
           | inr (answer, status) =>
             ([ScanStatus (ScanSubmit.scan_id (scan st))],
              State (counter st) answer (S (polls st))
                    (if String.eqb status "DONE" then true else false),
              Again)
           end in
         match aft with
         | Again =>
           if done st' then (acts ++ acts', st', Returned)
           else
             let '(more, st'', out) := listen show w q port st' evs in
             (acts ++ acts' ++ StreamPorts [port] 90 :: more, st'', out)
         | Leave => (acts ++ acts', st', Returned)
         | Propagate e' => (acts ++ acts', st', Raised e')
         end) in
      (polls st + length (polled r.1.1) = polls r.1.2)%nat /\
      (r.2 = Returned ->
       exists k answer,
         polls r.1.2 = S k /\ api_scan_status w k = inr (answer, "DONE") /\
         forall j, (polls st <= j < k)%nat ->
           exists a s, api_scan_status w j = inr (a, s) /\ s <> "DONE")).
    { destruct (api_scan_status w (polls st)) as [e'|[answer status]] eqn:Hapi.
      - simpl. rewrite polled_app, Hacts. simpl. split; [lia|discriminate].
      - destruct (String.eqb status "DONE") eqn:Hs.
        + apply String.eqb_eq in Hs. subst status. simpl.
          rewrite polled_app, Hacts. simpl. split; [lia|]. intros _.
          exists (polls st), answer. repeat split; auto. intros j Hj. lia.
        + apply String.eqb_neq in Hs. cbn [done].
          specialize (IH (State (counter st) answer (S (polls st)) false) eq_refl).
          destruct (listen show w q port _ evs) as [[more st''] out].
          simpl in IH. simpl. destruct IH as [Hn Hret].
          rewrite polled_app, Hacts. readers. split; [lia|].
          intros Hout. destruct (Hret Hout) as (k & ans & Hk & Hdone & Hbefore).
          exists k, ans. repeat split; auto. intros j Hj.
          destruct (Nat.eq_dec j (polls st)) as [->|Hne].
          * exists answer, status. split; assumption.
          * apply Hbefore. lia. }
    destruct e; try exact Hpoll;
      simpl; rewrite polled_app, Hacts; simpl; (split; [lia|discriminate]).
Qed.

(** While the scan is not known to be done, the loop returns only on a
    poll that answers DONE, and every earlier poll answered otherwise. *)
Lemma listen_polls evs : forall st,
  done st = false ->
  let r := listen show w quiet port st evs in
  (polls st + length (polled r.1.1) = polls r.1.2)%nat /\
  (r.2 = Returned ->
   exists k answer,
     polls r.1.2 = S k /\ api_scan_status w k = inr (answer, "DONE") /\
     forall j, (polls st <= j < k)%nat ->
       exists a s, api_scan_status w j = inr (a, s) /\ s <> "DONE").
Proof.
  induction evs as [|ev evs IH]; intros st Hd.
  - simpl. split; [lia|discriminate].
  - destruct ev as [b|e|].
    + simpl. destruct quiet.
      * specialize (IH (State (counter st + 1) (scan st) (polls st) (done st)) Hd).
        destruct (listen show w true port _ evs) as [[more st'] out].
        simpl in *. readers. exact IH.
      * destruct (show b) as [e|].
        -- apply (handle_polls false evs (State (counter st + 1) (scan st) (polls st) (done st))
                    e Hd IH [Next b; WriteBanner b]). reflexivity.
        -- specialize (IH (State (counter st + 1) (scan st) (polls st) (done st))
                         Hd).
           destruct (listen show w false port _ evs) as [[more st'] out].
           simpl in *. readers. exact IH.
    + apply (handle_polls quiet evs st e Hd IH []). reflexivity.
    + simpl. specialize (IH st Hd).
      destruct (listen show w quiet port st evs) as [[more st'] out].
      simpl in *. readers. exact IH.
Qed.

End Command.

(** X14: every banner the channel hands over is written to the file, also
    the banner whose line cannot be printed and ends the command; the
    number announced at the end is the number of banners written. *)
Theorem scan_internet_writes_every_banner show w quiet port protocol evs :
  let r := scan_internet show w quiet port protocol evs in
  written r.1 = received r.1 /\
  forall n, In (EchoFinished n) r.1 -> n = Z.of_nat (length (written r.1)).
Proof.
  assert (Hfin : forall n tr, In (EchoFinished n) tr -> In n (finished tr)).
  { intros n tr Hin. unfold finished.
    apply list_elem_of_In, list_elem_of_omap.
    exists (EchoFinished n). split; [apply list_elem_of_In, Hin|reflexivity]. }
  unfold scan_internet.
  destruct (api_scan_internet w) as [e|sc].
  { cbn [fst]. split; [reflexivity|]. intros n H. apply Hfin in H. destruct H. }
  destruct (api_ports w) as [e|official].
  { cbn [fst]. split; [reflexivity|]. intros n H. apply Hfin in H. destruct H. }
  destruct (existsb (Z.eqb port) official).
  { cbn [fst]. split; [reflexivity|]. intros n H. apply Hfin in H. destruct H. }
  pose proof (listen_frame show w quiet port evs (State 0 sc 0 false)) as Hl.
  destruct (listen show w quiet port _ evs) as [[acts st] out].
  simpl in Hl. destruct Hl as (Hw & Hc & _ & Hf & _).
  destruct out as [| |e]; cbn [fst]; (split; [|intros n H; apply Hfin in H; revert H]);
    readers; rewrite ?Hf, ?app_nil_r; try congruence.
  - intros [].
  - intros [<-|[]]. lia.
  - intros [].
Qed.

(** X15: the output file is opened at most once, and it is closed exactly
    when the command leaves after opening it, whether it returns or an
    exception escapes. *)
Theorem scan_internet_closes_the_file show w quiet port protocol evs :
  let r := scan_internet show w quiet port protocol evs in
  (length (opened r.1) <= 1)%nat /\
  closed r.1 = match r.2 with
               | Running => 0%nat
               | _ => length (opened r.1)
               end.
Proof.
  unfold scan_internet.
  destruct (api_scan_internet w) as [e|sc].
  { destruct e; cbn [fst snd]; readers; split; auto. }
  destruct (api_ports w) as [e|official].
  { destruct e; cbn [fst snd]; readers; split; auto. }
  destruct (existsb (Z.eqb port) official).
  { cbn [fst snd]; readers; split; auto. }
  pose proof (listen_frame show w quiet port evs (State 0 sc 0 false)) as Hl.
  destruct (listen show w quiet port _ evs) as [[acts st] out].
  simpl in Hl. destruct Hl as (_ & _ & Hcl & _ & Ho).
  destruct out as [| |e]; [| |destruct e]; cbn [fst snd]; readers;
    rewrite ?Ho, ?Hcl; cbn [length app Nat.add]; split; lia.
Qed.

(** X16: once it listens, the command returns only after a poll of the
    scan status that answered DONE, and it stops at the first such poll:
    every earlier poll answered with another status. *)
Theorem scan_internet_returns_only_after_done
    show w quiet port protocol evs sc official :
  api_scan_internet w = inr sc ->
  api_ports w = inr official ->
  existsb (Z.eqb port) official = false ->
  let r := scan_internet show w quiet port protocol evs in
  r.2 = Returned ->
  exists k answer,
    length (polled r.1) = S k /\
    api_scan_status w k = inr (answer, "DONE") /\
    forall j, (j < k)%nat ->
      exists a s, api_scan_status w j = inr (a, s) /\ s <> "DONE".
Proof.
  intros Hsc Hports Hoff. unfold scan_internet. rewrite Hsc, Hports, Hoff.
  pose proof (listen_polls show w quiet port evs (State 0 sc 0 false) eq_refl)
    as Hl.
  destruct (listen show w quiet port _ evs) as [[acts st] out].
  simpl in Hl. destruct Hl as [Hn Hret].
  destruct out as [| |e]; [discriminate| |destruct e; discriminate].
  intros _. destruct (Hret eq_refl) as (k & answer & Hk & Hdone & Hbefore).
  exists k, answer. split; [|split; [exact Hdone|]].
  - cbn [fst]. readers. rewrite ?app_nil_r, ?length_app. simpl. lia.
  - intros j Hj. apply Hbefore. lia.
Qed.

Lemma scan_internet_returns_only_after_done_witness :
  api_scan_internet done_at_third_poll = inr (ScanSubmit.Scan "Mo8W7itcWumiy9Ay" 0) /\
  api_ports done_at_third_poll = inr [80; 443] /\
  existsb (Z.eqb 8081) [80; 443] = false /\
  (scan_internet (fun _ => None) done_at_third_poll false 8081 "http"
     [Yield ∅; Raise SocketTimeout; Raise (APIError "Stream timed out");
      Yield ∅; Raise SocketTimeout]).2 = Returned /\
  exists k answer,
    length (polled (scan_internet (fun _ => None) done_at_third_poll false 8081
                      "http"
                      [Yield ∅; Raise SocketTimeout;
                       Raise (APIError "Stream timed out");
                       Yield ∅; Raise SocketTimeout]).1) = S k /\
    api_scan_status done_at_third_poll k = inr (answer, "DONE") /\
    forall j, (j < k)%nat ->
      exists a s, api_scan_status done_at_third_poll j = inr (a, s) /\
                  s <> "DONE".
Proof.
  assert (H1 : api_scan_internet done_at_third_poll
               = inr (ScanSubmit.Scan "Mo8W7itcWumiy9Ay" 0)) by reflexivity.
  assert (H2 : api_ports done_at_third_poll = inr [80; 443]) by reflexivity.
  assert (H3 : existsb (Z.eqb 8081) [80; 443] = false) by reflexivity.
  assert (H4 : (scan_internet (fun _ => None) done_at_third_poll false 8081
                  "http"
                  [Yield ∅; Raise SocketTimeout;
                   Raise (APIError "Stream timed out");
                   Yield ∅; Raise SocketTimeout]).2 = Returned) by reflexivity.
  exact (conj H1 (conj H2 (conj H3 (conj H4
    (scan_internet_returns_only_after_done (fun _ => None) done_at_third_poll
       false 8081 "http" _ _ _ H1 H2 H3 H4))))).
Defined.

End ScanInternetProofs.

(** ** The [host] command *)

Module HostProofs.
Import Fields Host.

Lemma remove_keeps x p ports : In p ports -> p = x \/ In p (remove x ports).
Proof.
  induction ports as [|q ports IH]; [intros []|].
  intros [->|Hin]; simpl.
  - destruct (Z.eqb_spec p x); [left; assumption|right; left; reflexivity].
  - destruct (Z.eqb_spec q x); [right; assumption|].
    destruct (IH Hin) as [->|H]; [left; reflexivity|right; right; exact H].
Qed.

(** A listed port is left over for a placeholder or belongs to a banner. *)
Lemma unseen_or_seen data : forall ports p,
  In p ports -> In p (unseen ports data) \/ In p (ports_of data).
Proof.
  induction data as [|b data IH]; intros ports p Hin; [left; exact Hin|].
  unfold unseen. cbn [fold_left]. fold (unseen
    (if existsb (Z.eqb (port b)) ports then remove (port b) ports else ports) data).
  destruct (existsb (Z.eqb (port b)) ports).
  - destruct (remove_keeps (port b) p ports Hin) as [->|H].
    + right. left. reflexivity.
    + destruct (IH _ p H) as [H'|H']; [left; exact H'|right; right; exact H'].
  - destruct (IH _ p Hin) as [H'|H']; [left; exact H'|right; right; exact H'].
Qed.

Lemma placeholder_timestamp p ts : others (placeholder p ts) !! "timestamp" = Some ts.
Proof.
  unfold placeholder. cbn [others].
  rewrite lookup_insert_ne by discriminate. apply lookup_insert_eq.
Qed.

Lemma placeholder_not_real p ts : is_real (placeholder p ts) = false.
Proof.
  unfold is_real, placeholder. cbn [others].
  rewrite lookup_insert_ne by discriminate.
  rewrite lookup_insert_ne by discriminate.
  rewrite lookup_insert_eq. reflexivity.
Qed.

Lemma add_placeholders_with ports : forall data oldest ts,
  last data = Some oldest -> others oldest !! "timestamp" = Some ts ->
  add_placeholders ports data =
  inr (data ++ map (fun p => placeholder p ts) ports).
Proof.
  induction ports as [|p ports IH]; intros data oldest ts Hlast Hts.
  - simpl. rewrite app_nil_r. reflexivity.
  - cbn [add_placeholders]. rewrite Hlast, Hts.
    rewrite (IH _ (placeholder p ts) ts (last_snoc _ _) (placeholder_timestamp p ts)).
    rewrite <- app_assoc. reflexivity.
Qed.

(** The placeholders are appended in the order of the ports, all with the
    timestamp of the banner that was last before the padding. *)
Lemma add_placeholders_spec ports data :
  add_placeholders ports data =
  match ports with
  | [] => inr data
  | _ :: _ =>
    match last data with
    | None => inl (OtherException "IndexError('list index out of range')")
    | Some oldest =>
      match others oldest !! "timestamp" with
      | None => inl (OtherException "KeyError('timestamp')")
      | Some ts => inr (data ++ map (fun p => placeholder p ts) ports)
      end
    end
  end.
Proof.
  destruct ports as [|p ports]; [reflexivity|].
  destruct (last data) as [oldest|] eqn:Hlast.
  - destruct (others oldest !! "timestamp") as [ts|] eqn:Hts.
    + apply (add_placeholders_with _ _ _ _ Hlast Hts).
    + cbn [add_placeholders]. rewrite Hlast, Hts. reflexivity.
  - cbn [add_placeholders]. rewrite Hlast. reflexivity.
Qed.

(** X17: when the number of ports differs from the number of banners and
    the padding succeeds, the banners of the answer are kept in place,
    one placeholder is appended for each port left over, all with the same
    timestamp, and every port of the host has a banner or a placeholder. *)
Theorem pad_lists_every_port ports data data' :
  length ports <> length data ->
  pad ports data = inr data' ->
  (exists ts,
     data' = data ++ map (fun p => placeholder p ts) (unseen ports data)) /\
  forall p, In p ports -> In p (ports_of data').
Proof.
  intros Hlen. unfold pad.
  destruct (Nat.eqb_spec (length ports) (length data)) as [Heq|_];
    [contradiction|].
  rewrite add_placeholders_spec. intros H.
  assert (Hts : exists ts,
            data' = data ++ map (fun p => placeholder p ts) (unseen ports data)).
  { destruct (unseen ports data) as [|q qs].
    - exists JNull. simpl. rewrite app_nil_r. congruence.
    - destruct (last data) as [oldest|]; [|discriminate].
      destruct (others oldest !! "timestamp") as [ts|]; [|discriminate].
      exists ts. congruence. }
  split; [exact Hts|].
  destruct Hts as [ts ->]. intros p Hin. unfold ports_of.
  rewrite map_app, map_map. cbn [placeholder port]. rewrite map_id.
  apply in_or_app.
  destruct (unseen_or_seen data ports p Hin) as [H'|H'];
    [right; exact H'|left; exact H'].
Qed.

Lemma pad_lists_every_port_witness :
  length [80; 443; 23] <> length [Service 80 (<["timestamp" := JStr "2019-03-02"]> ∅)] /\
  pad [80; 443; 23] [Service 80 (<["timestamp" := JStr "2019-03-02"]> ∅)] =
    inr [Service 80 (<["timestamp" := JStr "2019-03-02"]> ∅); placeholder 443 (JStr "2019-03-02");
         placeholder 23 (JStr "2019-03-02")] /\
  forall p, In p [80; 443; 23] ->
    In p (ports_of [Service 80 (<["timestamp" := JStr "2019-03-02"]> ∅);
                   placeholder 443 (JStr "2019-03-02");
                   placeholder 23 (JStr "2019-03-02")]).
Proof.
  pose (b80 := Service 80 (<["timestamp" := JStr "2019-03-02"]> ∅)).
  assert (H1 : length [80; 443; 23] <> length [b80]) by (simpl; lia).
  assert (H2 : pad [80; 443; 23] [b80] =
    inr [b80; placeholder 443 (JStr "2019-03-02");
         placeholder 23 (JStr "2019-03-02")]) by reflexivity.
  exact (conj H1 (conj H2
    (proj2 (pad_lists_every_port [80; 443; 23] [b80] _ H1 H2)))).
Defined.

(** X18: a host with open ports and an empty list of banners cannot be
    shown: the padding looks for the last banner and fails. *)
Theorem pad_needs_a_banner ports :
  ports <> [] ->
  pad ports [] = inl (OtherException "IndexError('list index out of range')").
Proof.
  intros Hne. destruct ports as [|p ports]; [contradiction|]. reflexivity.
Qed.

Lemma pad_needs_a_banner_witness :
  [22; 443] <> [] /\
  pad [22; 443] [] = inl (OtherException "IndexError('list index out of range')").
Proof.
  assert (H : [22; 443] <> ([] : list Z)) by discriminate.
  exact (conj H (pad_needs_a_banner [22; 443] H)).
Defined.

(** *** The saved file *)

Lemma insert_by_port_head b l :
  Forall (by_port b) l -> insert_by_port b l = b :: l.
Proof.
  intros H. destruct l as [|c l]; [reflexivity|].
  simpl. inversion H as [|? ? Hb _]; subst. unfold by_port in Hb.
  destruct (Z.leb_spec (port b) (port c)); [reflexivity|lia].
Qed.

Lemma insert_by_port_In b l x :
  In x (insert_by_port b l) -> x = b \/ In x l.
Proof.
  induction l as [|c l IH]; simpl.
  - intros [<-|[]]. left. reflexivity.
  - destruct (port b <=? port c).
    + intros [<-|H]; [left; reflexivity|right; exact H].
    + intros [<-|H]; [right; left; reflexivity|].
      destruct (IH H) as [->|H']; [left; reflexivity|right; right; exact H'].
Qed.

Lemma insert_by_port_sorted b l :
  StronglySorted by_port l -> StronglySorted by_port (insert_by_port b l).
Proof.
  induction 1 as [|c l Hs IH Hc]; simpl.
  - constructor; constructor.
  - destruct (Z.leb_spec (port b) (port c)).
    + constructor; [constructor; assumption|].
      constructor; [assumption|].
      apply List.Forall_forall. intros x Hx. unfold by_port.
      pose proof (proj1 (List.Forall_forall _ _) Hc x Hx) as Hcx.
      unfold by_port in Hcx. lia.
    + constructor; [exact IH|].
      apply List.Forall_forall. intros x Hx.
      destruct (insert_by_port_In _ _ _ Hx) as [->|Hx'].
      * unfold by_port. lia.
      * exact (proj1 (List.Forall_forall _ _) Hc x Hx').
Qed.

Lemma sorted_by_port_sorted data : StronglySorted by_port (sorted_by_port data).
Proof.
  induction data as [|b data IH]; [constructor|].
  apply insert_by_port_sorted, IH.
Qed.

Lemma filter_insert_by_port f b l :
  StronglySorted by_port l ->
  List.filter f (insert_by_port b l) =
  if f b then insert_by_port b (List.filter f l) else List.filter f l.
Proof.
  induction 1 as [|c l Hs IH Hc].
  - simpl. destruct (f b); reflexivity.
  - cbn [insert_by_port]. destruct (Z.leb_spec (port b) (port c)) as [Hle|Hgt].
    + cbn [List.filter]. destruct (f b); [|reflexivity].
      symmetry. apply (insert_by_port_head b (List.filter f (c :: l))).
      apply List.Forall_forall. intros x Hx.
      apply List.filter_In in Hx as [Hx _]. unfold by_port.
      destruct Hx as [<-|Hx]; [exact Hle|].
      pose proof (proj1 (List.Forall_forall _ _) Hc x Hx) as Hcx.
      unfold by_port in Hcx. lia.
    + cbn [List.filter]. rewrite IH.
      destruct (f c), (f b); try reflexivity.
      cbn [insert_by_port].
      destruct (Z.leb_spec (port b) (port c)); [lia|reflexivity].
Qed.

(** Leaving banners out before or after the sort gives the same list. *)
Lemma filter_sorted_by_port f data :
  List.filter f (sorted_by_port data) = sorted_by_port (List.filter f data).
Proof.
  induction data as [|b data IH]; [reflexivity|].
  change (sorted_by_port (b :: data))
    with (insert_by_port b (sorted_by_port data)).
  rewrite (filter_insert_by_port f b _ (sorted_by_port_sorted data)), IH.
  cbn [List.filter]. destruct (f b); reflexivity.
Qed.

Lemma filter_all {A} (f : A -> bool) l :
  forallb f l = true -> List.filter f l = l.
Proof.
  induction l as [|x l IH]; [reflexivity|].
  simpl. destruct (f x); [|discriminate]. intros H. rewrite (IH H). reflexivity.
Qed.

Lemma filter_placeholders ts ports :
  List.filter is_real (map (fun p => placeholder p ts) ports) = [].
Proof.
  induction ports as [|p ports IH]; [reflexivity|].
  cbn [map List.filter]. rewrite placeholder_not_real. exact IH.
Qed.

(** X19: the placeholders never reach the file: if no banner of the answer
    has a ['placeholder'] key, the file holds exactly the banners of the
    answer, in ascending order of their ports, banners of one port in the
    order of the answer. *)
Theorem placeholders_are_not_saved ports data data' :
  forallb is_real data = true ->
  pad ports data = inr data' ->
  saved data' = sorted_by_port data /\
  StronglySorted by_port (saved data') /\
  Permutation (saved data') data.
Proof.
  intros Hreal Hpad.
  assert (Hsaved : saved data' = sorted_by_port data).
  { unfold saved. rewrite filter_sorted_by_port. f_equal.
    revert Hpad. unfold pad.
    destruct (Nat.eqb (length ports) (length data)).
    - intros [= <-]. apply filter_all, Hreal.
    - rewrite add_placeholders_spec.
      destruct (unseen ports data) as [|q qs].
      + intros [= <-]. apply filter_all, Hreal.
      + destruct (last data) as [oldest|]; [|discriminate].
        destruct (others oldest !! "timestamp") as [ts|]; [|discriminate].
        intros [= <-].
        rewrite List.filter_app.
        change (placeholder q ts :: map (fun p => placeholder p ts) qs)
          with (map (fun p => placeholder p ts) (q :: qs)).
        rewrite filter_placeholders, app_nil_r.
        apply filter_all, Hreal. }
  rewrite Hsaved. split; [reflexivity|]. split; [apply sorted_by_port_sorted|].
  clear. induction data as [|b data IH]; [constructor|].
  change (sorted_by_port (b :: data))
    with (insert_by_port b (sorted_by_port data)).
  transitivity (b :: sorted_by_port data); [|constructor; exact IH].
  generalize (sorted_by_port data). clear. intros l.
  induction l as [|c l IH]; simpl; [reflexivity|].
  destruct (port b <=? port c); [reflexivity|].
  rewrite IH. apply perm_swap.
Qed.

Lemma placeholders_are_not_saved_witness :
  forallb is_real
    [Service 443 (<["timestamp" := JStr "2019-03-02"]> ∅);
     Service 80 (<["timestamp" := JStr "2019-03-01"]> ∅)] = true /\
  pad [80; 443; 23]
    [Service 443 (<["timestamp" := JStr "2019-03-02"]> ∅);
     Service 80 (<["timestamp" := JStr "2019-03-01"]> ∅)] =
    inr [Service 443 (<["timestamp" := JStr "2019-03-02"]> ∅);
         Service 80 (<["timestamp" := JStr "2019-03-01"]> ∅);
         placeholder 23 (JStr "2019-03-01")] /\
  saved [Service 443 (<["timestamp" := JStr "2019-03-02"]> ∅);
         Service 80 (<["timestamp" := JStr "2019-03-01"]> ∅);
         placeholder 23 (JStr "2019-03-01")] =
    sorted_by_port
      [Service 443 (<["timestamp" := JStr "2019-03-02"]> ∅);
       Service 80 (<["timestamp" := JStr "2019-03-01"]> ∅)].
Proof.
  pose (b443 := Service 443 (<["timestamp" := JStr "2019-03-02"]> ∅)).
  pose (b80 := Service 80 (<["timestamp" := JStr "2019-03-01"]> ∅)).
  assert (H1 : forallb is_real [b443; b80] = true) by reflexivity.
  assert (H2 : pad [80; 443; 23] [b443; b80] =
    inr [b443; b80; placeholder 23 (JStr "2019-03-01")]) by reflexivity.
  exact (conj H1 (conj H2
    (proj1 (placeholders_are_not_saved [80; 443; 23] [b443; b80] _ H1 H2)))).
Defined.

End HostProofs.

(** ** The [stats] command *)

Module StatsProofs.
Import Fields Stats.

Lemma insert_after {A} (pre : list A) a t v :
  <[length pre := v]> (pre ++ a :: t) = pre ++ v :: t.
Proof. induction pre as [|x pre IH]; simpl; [reflexivity|f_equal; exact IH]. Qed.

Lemma insert_after_next {A} (pre : list A) a b t v :
  <[S (length pre) := v]> (pre ++ a :: b :: t) = pre ++ a :: v :: t.
Proof. induction pre as [|x pre IH]; simpl; [reflexivity|f_equal; exact IH]. Qed.

(** The for loop fills the two cells of every facet, from left to right. *)
Lemma fill_spec k results : forall pre post has_items,
  fill k results (length pre)
       (pre ++ replicate (length results * 2) (JStr "") ++ post) has_items =
  (pre ++ concat (map (cells k) results) ++ post,
   has_items || existsb (fun facet => (k <? length facet.2)%nat) results).
Proof.
  induction results as [|[name values] results IH]; intros pre post has_items.
  - simpl. rewrite orb_false_r. reflexivity.
  - cbn [fill length Nat.mul Nat.add replicate app map concat existsb snd].
    unfold cells at 1. cbn [snd].
    destruct (values !! k) as [[value count]|] eqn:Hk.
    + rewrite insert_after, insert_after_next.
      assert (Hlt : (k <? length values)%nat = true).
      { apply Nat.ltb_lt. apply lookup_lt_is_Some. eauto. }
      rewrite Hlt, orb_true_r. cbn [orb].
      specialize (IH (pre ++ [value; count]) post true).
      rewrite length_app in IH. cbn [length] in IH.
      rewrite <- !app_assoc in IH. cbn [app] in IH.
      rewrite IH. reflexivity.
    + assert (Hlt : (k <? length values)%nat = false).
      { apply Nat.ltb_ge. apply lookup_ge_None. exact Hk. }
      rewrite Hlt. cbn [orb].
      specialize (IH (pre ++ [JStr ""; JStr ""]) post has_items).
      rewrite length_app in IH. cbn [length] in IH.
      rewrite <- !app_assoc in IH. cbn [app] in IH.
      rewrite IH. reflexivity.
Qed.

Lemma has_items_longest k results :
  existsb (fun facet : string * list item => (k <? length facet.2)%nat) results
  = (k <? longest results)%nat.
Proof.
  induction results as [|facet results IH]; [reflexivity|].
  cbn [existsb longest fold_right]. fold (longest results). rewrite IH.
  destruct (Nat.ltb_spec k (length facet.2)), (Nat.ltb_spec k (longest results)),
    (Nat.ltb_spec k (Nat.max (length facet.2) (longest results)));
    simpl; try reflexivity; lia.
Qed.

Lemma data_rows_spec results : forall fuel counter,
  (longest results - counter < fuel)%nat ->
  data_rows fuel counter results =
  Some (map (fun k => concat (map (cells k) results))
            (seq counter (longest results - counter))).
Proof.
  induction fuel as [|fuel IH]; intros counter Hfuel; [lia|].
  cbn [data_rows].
  pose proof (fill_spec counter results [] [] false) as Hfill.
  cbn [length app] in Hfill. rewrite !app_nil_r in Hfill.
  rewrite Hfill, has_items_longest. cbn [orb].
  destruct (Nat.ltb_spec counter (longest results)) as [Hlt|Hge].
  - rewrite IH by lia.
    replace (longest results - counter)%nat
      with (S (longest results - S counter)) by lia.
    reflexivity.
  - replace (longest results - counter)%nat with 0%nat by lia. reflexivity.
Qed.

Lemma header_spec results : forall row,
  fold_left (fun row (facet : string * list item) =>
               row ++ [JStr facet.1; JStr ""]) results row =
  row ++ concat (map (fun facet => [JStr facet.1; JStr ""]) results).
Proof.
  induction results as [|facet results IH]; intros row.
  - simpl. rewrite app_nil_r. reflexivity.
  - cbn [fold_left map concat]. rewrite IH, <- app_assoc. reflexivity.
Qed.

(** X20: the loop that fills the CSV table ends, after as many data rows
    as the longest facet has items; the row of rank [k] holds, for every
    facet in the order of the answer, the value and the count of its item
    of rank [k], or two empty cells if the facet is shorter; the header
    row has the name of every facet over its first column. *)
Theorem stats_table fuel query results :
  (longest results < fuel)%nat ->
  csv fuel query results =
  Some ([JStr "Query"; JStr query] :: []
        :: concat (map (fun facet => [JStr facet.1; JStr ""]) results)
        :: map (fun k => concat (map (cells k) results))
               (seq 0 (longest results))).
Proof.
  intros Hfuel. unfold csv, header.
  rewrite data_rows_spec by lia. rewrite header_spec, Nat.sub_0_r.
  reflexivity.
Qed.

Lemma stats_table_witness :
  (longest [("country", [(JStr "US", JInt 12); (JStr "DE", JInt 7)]);
            ("org", [(JStr "Amazon", JInt 9)])] < 5)%nat /\
  csv 5 "apache"
      [("country", [(JStr "US", JInt 12); (JStr "DE", JInt 7)]);
       ("org", [(JStr "Amazon", JInt 9)])] =
  Some [[JStr "Query"; JStr "apache"]; [];
        [JStr "country"; JStr ""; JStr "org"; JStr ""];
        [JStr "US"; JInt 12; JStr "Amazon"; JInt 9];
        [JStr "DE"; JInt 7; JStr ""; JStr ""]].
Proof.
  assert (H : (longest [("country", [(JStr "US", JInt 12); (JStr "DE", JInt 7)]);
                        ("org", [(JStr "Amazon", JInt 9)])] < 5)%nat)
    by (simpl; lia).
  exact (conj H (stats_table 5 "apache" _ H)).
Defined.

End StatsProofs.

(** ** The [convert] command and the names of the saved files *)

Module NamesProofs.
Import Text TextProofs Convert.

(** A search for [old] passes over text that lacks its first character. *)
Lemma replace_from_passes c old new base rest :
  has_char c base = false ->
  replace_from (String c old) new 0 (base +:+ rest) =
  base +:+ replace_from (String c old) new 0 rest.
Proof.
  induction base as [|a base IH]; [reflexivity|].
  cbn [has_char]. destruct (Ascii.eqb a c) eqn:E; [discriminate|].
  intros H. rewrite !append_cons. cbn [replace_from String.prefix].
  destruct (ascii_dec c a) as [->|_].
  - rewrite Ascii.eqb_refl in E. discriminate.
  - rewrite (IH H). reflexivity.
Qed.

Lemma replace_from_absent c old new s :
  has_char c s = false -> replace_from (String c old) new 0 s = s.
Proof.
  intros H. pose proof (replace_from_passes c old new s "" H) as Hp.
  rewrite append_nil_r in Hp. rewrite Hp. apply append_nil_r.
Qed.

(** X21: for an input file whose name has no dot before its extension
    [.json.gz] or [.json], the output file has the same name with the
    extension replaced by the format. *)
Theorem convert_replaces_the_extension base format :
  has_char "." base = false ->
  output_filename (base +:+ ".json.gz") format = base +:+ "." +:+ format /\
  output_filename (base +:+ ".json") format = base +:+ "." +:+ format.
Proof.
  intros Hdot. unfold output_filename, replace.
  rewrite (replace_from_passes "." "json.gz" "" base ".json.gz" Hdot).
  rewrite (replace_from_passes "." "json.gz" "" base ".json" Hdot).
  change (replace_from ".json.gz" "" 0 ".json.gz") with "".
  change (replace_from ".json.gz" "" 0 ".json") with ".json".
  rewrite append_nil_r.
  rewrite (replace_from_passes "." "json" "" base ".json" Hdot).
  change (replace_from ".json" "" 0 ".json") with "".
  rewrite append_nil_r.
  rewrite (replace_from_absent "." "json" "" base Hdot).
  split; reflexivity.
Qed.

Lemma convert_replaces_the_extension_witness :
  has_char "." "results" = false /\
  output_filename "results.json.gz" "kml" = "results.kml" /\
  output_filename "results.json" "kml" = "results.kml".
Proof.
  assert (H : has_char "." "results" = false) by reflexivity.
  exact (conj H (convert_replaces_the_extension "results" "kml" H)).
Defined.

Lemma substring_end s : forall t,
  substring (String.length s) (String.length t) (s +:+ t) = t.
Proof.
  induction s as [|c s IH]; intros t.
  - simpl. induction t as [|a t IHt]; [reflexivity|].
    simpl. f_equal. exact IHt.
  - rewrite append_cons. simpl. apply IH.
Qed.

Lemma length_app_string s t :
  String.length (s +:+ t) = (String.length s + String.length t)%nat.
Proof.
  induction s as [|c s IH]; [reflexivity|].
  rewrite append_cons. simpl. rewrite IH. reflexivity.
Qed.

Lemma ends_with_app suffix s : ScanSubmit.ends_with suffix (s +:+ suffix) = true.
Proof.
  unfold ScanSubmit.ends_with. rewrite length_app_string.
  replace (String.length s + String.length suffix - String.length suffix)%nat
    with (String.length s) by lia.
  rewrite substring_end, String.eqb_refl, andb_true_r.
  apply Nat.leb_le. lia.
Qed.

(** X22: the name of a saved file always ends in [.json.gz], and a name
    that has the extension is left as it is: the extension is never
    doubled. *)
Theorem output_name_has_the_extension filename :
  ScanSubmit.ends_with ".json.gz" (ScanSubmit.output_name filename) = true /\
  ScanSubmit.output_name (ScanSubmit.output_name filename) =
  ScanSubmit.output_name filename.
Proof.
  assert (H : ScanSubmit.ends_with ".json.gz" (ScanSubmit.output_name filename)
              = true).
  { unfold ScanSubmit.output_name.
    destruct (ScanSubmit.ends_with ".json.gz" filename) eqn:E; [exact E|].
    apply ends_with_app. }
  split; [exact H|].
  unfold ScanSubmit.output_name at 1. rewrite H. reflexivity.
Qed.

End NamesProofs.

(** ** More on the [stream] command: any script of the channel *)

Module StreamRunsProofs.
Import Stream StreamSpec StreamProofs.
#[local] Arguments trace_of : simpl never.
#[local] Arguments state_of : simpl never.
#[local] Arguments outcome_of : simpl never.

Lemma closes_app tr1 tr2 : closes (tr1 ++ tr2) = closes tr1 ++ closes tr2.
Proof. apply omap_app. Qed.

Lemma run_trace (a : list action) (s : state) (out : outcome) :
  trace_of (a, s, out) = a.
Proof. reflexivity. Qed.

Lemma run_state (a : list action) (s : state) (out : outcome) :
  state_of (a, s, out) = s.
Proof. reflexivity. Qed.


Ltac step_split :=
  unfold step, body, count_banner, persist, print_banner, on_exception,
    trace_of, state_of, outcome_of;
  repeat case_match; simplify_eq; simpl.

(** *** Files *)

(** A file is closed only when the next one is opened. *)
Lemma step_files o st ev :
  option_list (fout st) ++ opens (trace_of (step o st ev)) =
  closes (trace_of (step o st ev)) ++ option_list (fout (state_of (step o st ev)))
  /\ (fout (state_of (step o st ev)) = None <-> fout st = None).
Proof.
  step_split; simpl in *; rewrite ?opens_app, ?closes_app, ?app_nil_r; simpl;
    repeat match goal with H : fout _ = _ |- _ => rewrite H end;
    simpl; split; try reflexivity; try tauto; split; intros; congruence.
Qed.

Lemma loop_files o evs : forall st,
  option_list (fout st) ++ opens (trace_of (loop o st evs)) =
  closes (trace_of (loop o st evs)) ++ option_list (fout (state_of (loop o st evs)))
  /\ (fout (state_of (loop o st evs)) = None <-> fout st = None).
Proof.
  induction evs as [|ev evs IH]; intros st.
  - unfold trace_of, state_of. simpl. rewrite app_nil_r. tauto.
  - rewrite loop_cons. pose proof (step_files o st ev) as [Hs Hn].
    destruct (outcome_of (step o st ev)); try (split; assumption).
    destruct (IH (state_of (step o st ev))) as [Hl Hn'].
    rewrite !run_trace, !run_state.
    rewrite opens_app, closes_app, app_assoc, Hs, <- app_assoc, Hl, app_assoc.
    split; [reflexivity|]. tauto.
Qed.

(** X23: for every script of the channel, a file is closed only when the
    file of the next day is opened: the files closed are the files opened
    but the last, in order, and the file opened last is still open when
    the command ends, however it ends.  Without a data directory there is
    no file at all. *)
Theorem stream_leaves_the_last_file_open o start evs :
  let r := stream o start evs in
  opens (trace_of r) = closes (trace_of r) ++ option_list (fout (state_of r)) /\
  (fout (state_of r) = None <-> datadir_set o = None).
Proof.
  cbv zeta. rewrite stream_trace, stream_state, opens_app, closes_app.
  destruct (loop_files o evs (startup o start).2) as [Hl Hn].
  assert (Hs : opens (startup o start).1 = option_list (fout (startup o start).2)
               /\ closes (startup o start).1 = []
               /\ (fout (startup o start).2 = None <-> datadir_set o = None)).
  { unfold startup. destruct (datadir_set o); simpl; repeat split;
      intros; congruence. }
  destruct Hs as (Ho & Hc & Hd).
  rewrite Ho, Hc, Hl. split; [reflexivity|tauto].
Qed.

(** *** The limit *)

Lemma step_limit o st ev :
  0 < limit o -> counter st <= limit o ->
  let r := step o st ev in
  Z.of_nat (length (received (trace_of r))) <= counter (state_of r) - counter st /\
  Z.of_nat (length (writes (trace_of r))) <= counter (state_of r) - counter st /\
  (counter (state_of r) <= limit o \/
   outcome_of r = Returned /\ writes (trace_of r) = [] /\
   counter (state_of r) = limit o + 1).
Proof.
  intros Hl Hc.
  step_split; simpl in *; rewrite ?writes_app, ?received_app, ?app_nil_r;
    simpl; try lia;
    repeat match goal with
           | H : (_ <? _) = true |- _ => apply Z.ltb_lt in H
           | H : (_ <? _) = false |- _ => apply Z.ltb_ge in H
           end;
    repeat split; try lia; try (left; lia); try (right; repeat split; lia).
Qed.

Lemma loop_limit_any o evs : forall st,
  0 < limit o -> counter st <= limit o ->
  Z.of_nat (length (writes (trace_of (loop o st evs)))) <= limit o - counter st /\
  Z.of_nat (length (received (trace_of (loop o st evs))))
    <= limit o + 1 - counter st.
Proof.
  induction evs as [|ev evs IH]; intros st Hl Hc.
  - cbn [loop]. rewrite run_trace. simpl. lia.
  - rewrite loop_cons.
    destruct (step_limit o st ev Hl Hc) as (Hr & Hw & Hend).
    destruct (outcome_of (step o st ev)) eqn:Hout.
    + rewrite run_trace, writes_app, received_app, !length_app.
      destruct Hend as [Hle|(Hret & _)]; [|discriminate].
      destruct (IH (state_of (step o st ev)) Hl Hle) as [IHw IHr]. lia.
    + destruct Hend as [Hle|(_ & Hnil & Hover)]; [lia|].
      rewrite Hnil. simpl. lia.
    + destruct Hend as [Hle|(Hret & _)]; [lia|discriminate].
Qed.

(** X24: with a positive limit, whatever the channel does, timeouts and
    reconnections included, at most [limit] banners are written and at
    most [limit + 1] are taken from the channel: the count is not reset
    when the command reconnects. *)
Theorem stream_limit_counts_across_reconnections o start evs :
  0 < limit o ->
  let r := stream o start evs in
  Z.of_nat (length (writes (trace_of r))) <= limit o /\
  Z.of_nat (length (received (trace_of r))) <= limit o + 1.
Proof.
  intros Hl. cbv zeta. rewrite stream_trace, writes_app, received_app, !length_app.
  assert (Hs : writes (startup o start).1 = [] /\ received (startup o start).1 = []
               /\ counter (startup o start).2 = 0).
  { unfold startup. destruct (datadir_set o); simpl; auto. }
  destruct Hs as (Hw & Hr & Hc).
  destruct (loop_limit_any o evs (startup o start).2 Hl) as [H1 H2]; [lia|].
  rewrite Hw, Hr, Hc in *. simpl. lia.
Qed.

Lemma stream_limit_counts_across_reconnections_witness :
  0 < limit limit_two /\
  Z.of_nat (length (writes (trace_of
    (stream limit_two "2020-01-01"
       [Yield rec1 "2020-01-01"; Raise SocketTimeout; Yield rec2 "2020-01-01";
        Raise (OtherException "ConnectionError()"); Yield rec3 "2020-01-02"]))))
    <= limit limit_two /\
  Z.of_nat (length (received (trace_of
    (stream limit_two "2020-01-01"
       [Yield rec1 "2020-01-01"; Raise SocketTimeout; Yield rec2 "2020-01-01";
        Raise (OtherException "ConnectionError()"); Yield rec3 "2020-01-02"]))))
    <= limit limit_two + 1.
Proof.
  assert (H : 0 < limit limit_two) by reflexivity.
  exact (conj H (stream_limit_counts_across_reconnections limit_two "2020-01-01"
                   _ H)).
Defined.

(** *** The end of the channel *)





End StreamRunsProofs.
